(** * ComfyUI-HiDream-Sampler: the model cache, the loader and the parsers

    A shallow embedding of [hidreamsampler.py].  Python values are modelled
    as the interpreter has them: a [str] is a sequence of Unicode code
    points, the class attribute [_model_cache] is a finite map shared by the
    three sampler nodes, pipeline objects live in a store and are reached
    through handles, and code that can raise runs in a state-and-exception
    monad in which the state survives an exception. *)

From Stdlib Require Import ZArith NArith Lia Bool List Ascii String.
From stdpp Require Import base option list gmap strings.

Open Scope Z_scope.

(** ** Python strings *)

(** A Python [str]: its code points, in order. *)
Abbreviation pystr := (list N).

Fixpoint bytes_of (s : string) : list N :=
  match s with
  | EmptyString => []
  | String a s' => N_of_ascii a :: bytes_of s'
  end.

(** The source file is UTF-8; literals are decoded to code points. *)
Fixpoint utf8_decode (bs : list N) : pystr :=
  match bs with
  | [] => []
  | b0 :: r0 =>
    if (b0 <? 128)%N then b0 :: utf8_decode r0
    else match r0 with
    | [] => []
    | b1 :: r1 =>
      if (b0 <? 224)%N
      then ((b0 mod 32) * 64 + b1 mod 64)%N :: utf8_decode r1
      else match r1 with
      | [] => []
      | b2 :: r2 =>
        if (b0 <? 240)%N
        then ((b0 mod 16) * 4096 + (b1 mod 64) * 64 + b2 mod 64)%N
               :: utf8_decode r2
        else match r2 with
        | [] => []
        | b3 :: r3 =>
          ((b0 mod 8) * 262144 + (b1 mod 64) * 4096
           + (b2 mod 64) * 64 + b3 mod 64)%N :: utf8_decode r3
        end
      end
    end
  end.

(** [U "text"] is the Python literal ["text"]. *)
Definition U (s : string) : pystr := utf8_decode (bytes_of s).

(** The runtime the module is executed by: the Unicode database's decimal
    digit property for code points from 127 on, and the interpreter's
    [sys.get_int_max_str_digits()] (0: no limit). *)
Class PyRuntime := {
  unicode_decimal : N -> option N;
  int_max_str_digits : N
}.

(** Exceptions: the module's own [raise] statements with their messages,
    the built-in ones its expressions can raise, and [LibraryError] for
    whatever a third-party call raised (a subclass of [Exception]).  A
    [site] names a call into torch, transformers, diffusers or hi_diffusers
    whose outcome the module does not decide; the scheduler constructors
    have one site for the load and one for the replacement in [generate],
    so that the two calls of one invocation can end differently.
    [generator_setup] stands for the unguarded calls of the "Generation
    Setup" block ([comfy.utils.ProgressBar] and [torch.Generator]),
    [progress_update] for [pbar.update_absolute] in the [finally] clause. *)
Inductive site :=
| AutoTokenizer_from_pretrained
| AutoModelForCausalLM_from_pretrained
| AutoGPTQForCausalLM_from_pretrained
| LlamaForCausalLM_from_pretrained
| text_encoder_to
| HiDreamImageTransformer2DModel_from_pretrained
| transformer_to
| scheduler_init
| scheduler_replace
| HiDreamImagePipeline_from_pretrained
| HiDreamImageToImagePipeline_init
| preprocess_image_ops
| generator_setup
| pipeline_call
| progress_update.

Inductive exn :=
| ImportError (msg : pystr)
| ValueError (msg : pystr)
| RuntimeError (msg : pystr)
| IndexError
| KeyError (key : pystr)
| AttributeError (attr : pystr)
| TypeError (msg : pystr)
| UnicodeEncodeError
| LibraryError (at_site : site).

Inductive result (A : Type) :=
| Ok (a : A)
| Raise (e : exn).
Arguments Ok {A} a.
Arguments Raise {A} e.

#[global] Instance result_ret : MRet result := fun _ a => Ok a.
#[global] Instance result_bind : MBind result := fun _ _ f m =>
  match m with
  | Ok a => f a
  | Raise e => Raise e
  end.

(** *** [print] *)

(** The standard output encodes text as UTF-8 with the strict error
    handler, Python's default: every code point can be written but the
    surrogates U+D800 to U+DFFF. *)
Definition encodable (c : N) : bool :=
  negb ((55296 <=? c) && (c <=? 57343))%N.

Definition printable (s : pystr) : bool := forallb encodable s.

(** [print(f"... {s} ...")] for a string [s] the caller supplied.  The text
    around it (literals, numbers, the messages of the exceptions caught)
    can always be written.  Prints that show no caller string, or only
    keys the cache holds and the names of the configuration table, are
    left out of the embedding. *)
Definition py_print (s : pystr) : result unit :=
  if printable s then Ok tt else Raise UnicodeEncodeError.

(** [str.isspace] on one code point. *)
Definition isspace (c : N) : bool :=
  (((9 <=? c) && (c <=? 13)) || ((28 <=? c) && (c <=? 32))
   || (c =? 133) || (c =? 160) || (c =? 5760)
   || ((8192 <=? c) && (c <=? 8202))
   || (c =? 8232) || (c =? 8233) || (c =? 8239) || (c =? 8287)
   || (c =? 12288))%N.

Fixpoint lstrip (s : pystr) : pystr :=
  match s with
  | [] => []
  | c :: s' => if isspace c then lstrip s' else s
  end.

Definition rstrip (s : pystr) : pystr := rev (lstrip (rev s)).

(** [s.strip()] *)
Definition strip (s : pystr) : pystr := rstrip (lstrip s).

Fixpoint startswith (p s : pystr) : bool :=
  match p, s with
  | [], _ => true
  | _ :: _, [] => false
  | a :: p', b :: s' => (a =? b)%N && startswith p' s'
  end.

(** [sub in s] *)
Fixpoint contains (sub s : pystr) : bool :=
  startswith sub s ||
  match s with
  | [] => false
  | _ :: s' => contains sub s'
  end.

Definition cons_hd (c : N) (ps : list pystr) : list pystr :=
  match ps with
  | [] => [[c]]
  | p :: ps' => (c :: p) :: ps'
  end.

(** The scan of [s.split(sep)]: [skip] counts the code points of a matched
    separator still to pass over. *)
Fixpoint split_from (sep : pystr) (skip : nat) (s : pystr) : list pystr :=
  match s with
  | [] => [[]]
  | c :: s' =>
    match skip with
    | S k => split_from sep k s'
    | O =>
      if startswith sep s
      then [] :: split_from sep (length sep - 1) s'
      else cons_hd c (split_from sep 0 s')
    end
  end.

(** [s.split(sep)] for a non-empty [sep]. *)
Definition split (sep s : pystr) : list pystr := split_from sep 0 s.

(** [s.replace(old, new)] for one-character [old] and [new]. *)
Definition replace (old new : N) (s : pystr) : pystr :=
  map (fun c => if (c =? old)%N then new else c) s.

(** [l[i]] *)
Definition index {A} (l : list A) (i : nat) : result A :=
  match l !! i with
  | Some x => Ok x
  | None => Raise IndexError
  end.

(** [a, b = l] *)
Definition unpack2 {A} (l : list A) : result (A * A) :=
  match l with
  | [a; b] => Ok (a, b)
  | _ :: _ :: _ :: _ => Raise (ValueError (U "too many values to unpack"))
  | _ => Raise (ValueError (U "not enough values to unpack"))
  end.

(** *** [int(str)] *)

Definition is_digit (c : N) : bool := ((48 <=? c) && (c <=? 57))%N.
Definition is_c_space (c : N) : bool :=
  (((9 <=? c) && (c <=? 13)) || (c =? 32))%N.

(** One code point of the string handed to the C parser: ASCII is kept,
    other white space becomes a blank, other decimal digits become ASCII
    digits, anything else is rejected. *)
Definition to_ascii `{PyRuntime} (c : N) : option N :=
  if (c <? 127)%N then Some c
  else if isspace c then Some 32%N
  else (fun d => 48 + d)%N <$> unicode_decimal c.

Fixpoint transform `{PyRuntime} (s : pystr) : option pystr :=
  match s with
  | [] => Some []
  | c :: s' =>
    match to_ascii c with
    | None => None
    | Some a => cons a <$> transform s'
    end
  end.

Fixpoint skip_c_space (s : pystr) : pystr :=
  match s with
  | [] => []
  | c :: s' => if is_c_space c then skip_c_space s' else s
  end.

(** The longest prefix of digits and underscores, and what follows it. *)
Fixpoint scan_digits (s : pystr) : pystr * pystr :=
  match s with
  | [] => ([], [])
  | c :: s' =>
    if is_digit c || (c =? 95)%N
    then let '(b, r) := scan_digits s' in (c :: b, r)
    else ([], s)
  end.

(** No leading, trailing or doubled underscore. *)
Fixpoint underscores_ok (prev_us : bool) (b : pystr) : bool :=
  match b with
  | [] => negb prev_us
  | c :: b' =>
    if (c =? 95)%N then negb prev_us && underscores_ok true b'
    else underscores_ok false b'
  end.

Definition decimal_value (ds : pystr) : Z :=
  fold_left (fun acc c => 10 * acc + (Z.of_N c - 48)) ds 0.

Definition int_literal_error : exn :=
  ValueError (U "invalid literal for int() with base 10").

Definition py_int `{PyRuntime} (s : pystr) : result Z :=
  match transform s with
  | None => Raise int_literal_error
  | Some cs =>
    let cs1 := skip_c_space cs in
    let '(sign, cs2) :=
      match cs1 with
      | c :: r => if (c =? 43)%N then (1, r)
                  else if (c =? 45)%N then (-1, r)
                  else (1, cs1)
      | [] => (1, cs1)
      end in
    let '(body, rest) := scan_digits cs2 in
    let digits := filter (fun c => is_digit c = true) body in
    if negb (underscores_ok true body) then Raise int_literal_error
    else if ((640 <? N.of_nat (length digits)) && (0 <? int_max_str_digits)
             && (int_max_str_digits <? N.of_nat (length digits)))%N
    then Raise (ValueError (U "Exceeds the limit for integer string conversion"))
    else match skip_c_space rest with
         | [] => Ok (sign * decimal_value digits)
         | _ :: _ => Raise int_literal_error
         end
  end.

(** ** Resolution parsing *)

Definition RESOLUTION_OPTIONS : list pystr :=
  [U "1024 × 1024 (Square)"; U "768 × 1360 (Portrait)";
   U "1360 × 768 (Landscape)"; U "880 × 1168 (Portrait)";
   U "1168 × 880 (Landscape)"; U "1248 × 832 (Landscape)";
   U "832 × 1248 (Portrait)"].

(** The [try] block of [parse_resolution]. *)
Definition parse_resolution_try `{PyRuntime} (resolution_str : pystr)
  : result (Z * Z) :=
  p0 ← index (split (U " (") resolution_str) 0;
  let res_part := strip p0 in
  let parts := split (U "×") (replace 120 215 res_part) in
  if negb (length parts =? 2)%nat
  then Raise (ValueError (U "Expected format 'width × height', got '"
                            ++ res_part ++ U "'"))
  else
    p_w ← index parts 0;
    let width_str := strip p_w in
    p_h ← index parts 1;
    let height_str := strip p_h in
    width ← py_int width_str;
    height ← py_int height_str;
    mret (height, width).

(** The [except] branch prints [resolution_str] before it returns. *)
Definition parse_resolution `{PyRuntime} (resolution_str : pystr)
  : result (Z * Z) :=
  match parse_resolution_try resolution_str with
  | Ok r => Ok r
  | Raise _ => py_print resolution_str ;; Ok (1024, 1024)
  end.

(** [d.get(k)] and [d[k]] on a dictionary literal, kept in source order. *)
Fixpoint dict_get {V} (d : list (pystr * V)) (k : pystr) : option V :=
  match d with
  | [] => None
  | (k', v) :: d' => if decide (k' = k) then Some v else dict_get d' k
  end.

(** ** Import-time state of the module *)

(** What the [try: import ...] blocks at the top of the module found. *)
Class Env := {
  flash_attn_available : bool;
  sdpa_available : bool;
  accelerate_available : bool;
  gptqmodel_available : bool;
  autogptq_available : bool;
  optimum_available : bool;
  bnb_available : bool;
  hidream_classes_loaded : bool
}.

Definition gptq_support_available `{Env} : bool :=
  gptqmodel_available || autogptq_available.

Definition ORIGINAL_MODEL_PREFIX : pystr := U "HiDream-ai".
Definition NF4_MODEL_PREFIX : pystr := U "azaneko".
Definition ORIGINAL_LLAMA_MODEL_NAME : pystr :=
  U "nvidia/Llama-3.1-Nemotron-Nano-8B-v1".
Definition NF4_LLAMA_MODEL_NAME : pystr :=
  U "hugging-quants/Meta-Llama-3.1-8B-Instruct-GPTQ-INT4".
Definition ALTERNATE_LLAMA_MODEL_NAME : pystr :=
  U "akhbar/Meta-Llama-3.1-8B-Instruct-abliterated-GPTQ".
Definition ALTERNATE_NF4_LLAMA_MODEL_NAME : pystr :=
  U "akhbar/Meta-Llama-3.1-8B-Instruct-abliterated-GPTQ".

(** One entry of [MODEL_CONFIGS].  The float literals [guidance_scale] and
    [shift] are all integral (5.0, 0.0, 3.0, 6.0) and are kept as integers;
    they only travel to the scheduler and the pipeline. *)
Record ModelConfig := {
  path : pystr;
  guidance_scale : Z;
  num_inference_steps : Z;
  shift : Z;
  scheduler_class : pystr;
  is_nf4 : bool;
  is_fp8 : bool;
  requires_bnb : bool;
  requires_gptq_deps : bool
}.

Definition ALL_MODEL_CONFIGS : list (pystr * ModelConfig) :=
  [(U "full-nf4",
    {| path := NF4_MODEL_PREFIX ++ U "/HiDream-I1-Full-nf4";
       guidance_scale := 5; num_inference_steps := 50; shift := 3;
       scheduler_class := U "FlowUniPCMultistepScheduler";
       is_nf4 := true; is_fp8 := false;
       requires_bnb := false; requires_gptq_deps := true |});
   (U "dev-nf4",
    {| path := NF4_MODEL_PREFIX ++ U "/HiDream-I1-Dev-nf4";
       guidance_scale := 0; num_inference_steps := 28; shift := 6;
       scheduler_class := U "FlashFlowMatchEulerDiscreteScheduler";
       is_nf4 := true; is_fp8 := false;
       requires_bnb := false; requires_gptq_deps := true |});
   (U "fast-nf4",
    {| path := NF4_MODEL_PREFIX ++ U "/HiDream-I1-Fast-nf4";
       guidance_scale := 0; num_inference_steps := 16; shift := 3;
       scheduler_class := U "FlashFlowMatchEulerDiscreteScheduler";
       is_nf4 := true; is_fp8 := false;
       requires_bnb := false; requires_gptq_deps := true |});
   (U "full",
    {| path := ORIGINAL_MODEL_PREFIX ++ U "/HiDream-I1-Full";
       guidance_scale := 5; num_inference_steps := 50; shift := 3;
       scheduler_class := U "FlowUniPCMultistepScheduler";
       is_nf4 := false; is_fp8 := false;
       requires_bnb := true; requires_gptq_deps := false |});
   (U "dev",
    {| path := ORIGINAL_MODEL_PREFIX ++ U "/HiDream-I1-Dev";
       guidance_scale := 0; num_inference_steps := 28; shift := 6;
       scheduler_class := U "FlashFlowMatchEulerDiscreteScheduler";
       is_nf4 := false; is_fp8 := false;
       requires_bnb := true; requires_gptq_deps := false |});
   (U "fast",
    {| path := ORIGINAL_MODEL_PREFIX ++ U "/HiDream-I1-Fast";
       guidance_scale := 0; num_inference_steps := 16; shift := 3;
       scheduler_class := U "FlashFlowMatchEulerDiscreteScheduler";
       is_nf4 := false; is_fp8 := false;
       requires_bnb := true; requires_gptq_deps := false |})].

(** [{k: v for k, v in d.items() if not v.get(flag, False)}] *)
Definition without {V} (flag : V -> bool) (d : list (pystr * V))
  : list (pystr * V) :=
  List.filter (fun kv => negb (flag kv.2)) d.

(** [MODEL_CONFIGS] after the dependency filters at import time. *)
Definition MODEL_CONFIGS `{Env} : list (pystr * ModelConfig) :=
  let c0 := ALL_MODEL_CONFIGS in
  let c1 := if negb bnb_available then without requires_bnb c0 else c0 in
  let c2 := if negb optimum_available || negb gptq_support_available
            then without requires_gptq_deps c1 else c1 in
  if negb hidream_classes_loaded then [] else c2.

Definition available_schedulers `{Env} : list pystr :=
  if hidream_classes_loaded
  then [U "FlowUniPCMultistepScheduler";
        U "FlashFlowMatchEulerDiscreteScheduler"]
  else [].

(** ** Objects and the shared cache *)

(** The components a pipeline owns, named by what they were built from. *)
Inductive component :=
| Tokenizer (name : pystr)
| TextEncoder (name : pystr)
| Transformer (model_path : pystr)
| Scheduler (cls : pystr) (shift_value : Z)
            (use_karras_sigmas use_exponential_sigmas : bool).

(** The value of an attribute: missing ([hasattr] is false), [None], or an
    object. *)
Inductive slot :=
| Absent
| PyNone
| Obj (c : component).

Inductive attr_name := transformer | text_encoder_4 | tokenizer_4 | scheduler.

Inductive pipeline_class := HiDreamImagePipeline | HiDreamImageToImagePipeline.

Record Pipe := {
  pipe_class : pipeline_class;
  v_transformer : slot;
  v_text_encoder_4 : slot;
  v_tokenizer_4 : slot;
  v_scheduler : slot
}.

Definition get_slot (a : attr_name) (p : Pipe) : slot :=
  match a with
  | transformer => v_transformer p
  | text_encoder_4 => v_text_encoder_4 p
  | tokenizer_4 => v_tokenizer_4 p
  | scheduler => v_scheduler p
  end.

Definition set_slot (a : attr_name) (v : slot) (p : Pipe) : Pipe :=
  match a with
  | transformer =>
    {| pipe_class := pipe_class p; v_transformer := v;
       v_text_encoder_4 := v_text_encoder_4 p;
       v_tokenizer_4 := v_tokenizer_4 p; v_scheduler := v_scheduler p |}
  | text_encoder_4 =>
    {| pipe_class := pipe_class p; v_transformer := v_transformer p;
       v_text_encoder_4 := v;
       v_tokenizer_4 := v_tokenizer_4 p; v_scheduler := v_scheduler p |}
  | tokenizer_4 =>
    {| pipe_class := pipe_class p; v_transformer := v_transformer p;
       v_text_encoder_4 := v_text_encoder_4 p;
       v_tokenizer_4 := v; v_scheduler := v_scheduler p |}
  | scheduler =>
    {| pipe_class := pipe_class p; v_transformer := v_transformer p;
       v_text_encoder_4 := v_text_encoder_4 p;
       v_tokenizer_4 := v_tokenizer_4 p; v_scheduler := v |}
  end.

Definition attr_text (a : attr_name) : pystr :=
  match a with
  | transformer => U "transformer"
  | text_encoder_4 => U "text_encoder_4"
  | tokenizer_4 => U "tokenizer_4"
  | scheduler => U "scheduler"
  end.

(** A pipeline object is reached through its position in the store. *)
Abbreviation handle := nat.

(** A cache value is the tuple [(pipe, config)]; either may be [None] as far
    as the checks in the code go. *)
Abbreviation entry := (option handle * option ModelConfig)%type.

Record State := {
  _model_cache : gmap pystr entry;
  heap : list Pipe
}.

Definition with_cache (c : gmap pystr entry) (s : State) : State :=
  {| _model_cache := c; heap := heap s |}.
Definition with_heap (h : list Pipe) (s : State) : State :=
  {| _model_cache := _model_cache s; heap := h |}.

(** The outcome of the third-party calls during one invocation: which calls
    return, and the shape of the tensor made from the first image the
    pipeline produced ([None]: no image, or the conversion gave nothing).
    These calls are taken to leave the cache and the four attributes
    modelled here alone. *)
Record World := {
  returns : site -> bool;
  output_shape : option (list Z)
}.

(** ** Stateful code that may raise *)

Definition M (A : Type) : Type := State -> State * result A.

#[global] Instance M_ret : MRet M := fun _ a s => (s, Ok a).
#[global] Instance M_bind : MBind M := fun _ _ f m s =>
  match m s with
  | (s', Ok a) => f a s'
  | (s', Raise e) => (s', Raise e)
  end.

Definition raise {A} (e : exn) : M A := fun s => (s, Raise e).

(** [try: body / except Exception as e: handler] *)
Definition try_except {A} (body : M A) (handler : exn -> M A) : M A :=
  fun s =>
    match body s with
    | (s', Raise e) => handler e s'
    | r => r
    end.

(** [try: body / finally: cleanup]: the clean-up runs however the body
    ends, and an exception of its own takes over. *)
Definition try_finally {A} (body : M A) (cleanup : M unit) : M A :=
  fun s =>
    match body s with
    | (s1, r) =>
      match cleanup s1 with
      | (s2, Ok _) => (s2, r)
      | (s2, Raise e) => (s2, Raise e)
      end
    end.

(** A step that leaves the state alone. *)
Definition of_result {A} (r : result A) : M A := fun s => (s, r).

Definition call (w : World) (st : site) : M unit :=
  if returns w st then mret tt else raise (LibraryError st).

(** [key in cls._model_cache] *)
Definition cache_contains (key : pystr) : M bool :=
  fun s => (s, Ok (bool_decide (is_Some (_model_cache s !! key)))).

(** [cls._model_cache[key]] *)
Definition cache_getitem (key : pystr) : M entry :=
  fun s =>
    match _model_cache s !! key with
    | Some v => (s, Ok v)
    | None => (s, Raise (KeyError key))
    end.

(** [cls._model_cache.pop(key)] *)
Definition cache_pop (key : pystr) : M entry :=
  fun s =>
    match _model_cache s !! key with
    | Some v => (with_cache (delete key (_model_cache s)) s, Ok v)
    | None => (s, Raise (KeyError key))
    end.

(** [cls._model_cache.pop(key, None)] *)
Definition cache_pop_default (key : pystr) : M unit :=
  fun s => (with_cache (delete key (_model_cache s)) s, Ok tt).

(** [del cls._model_cache[key]] *)
Definition cache_delitem (key : pystr) : M unit :=
  cache_pop key ;; mret tt.

(** [cls._model_cache[key] = value] *)
Definition cache_setitem (key : pystr) (value : entry) : M unit :=
  fun s => (with_cache (<[key := value]> (_model_cache s)) s, Ok tt).

(** [list(cls._model_cache.keys())], in the order of the map rather than
    the order of insertion. *)
Definition cache_keys : M (list pystr) :=
  fun s => (s, Ok (map_to_list (_model_cache s)).*1).

(** The truth value of [cls._model_cache]. *)
Definition cache_nonempty : M bool :=
  fun s => (s, Ok (negb (bool_decide (_model_cache s = ∅)))).

(** The attribute as [hasattr]/[getattr] see it; [None] has none of them,
    nor has a handle with no object behind it. *)
Definition read_slot (pipe : option handle) (a : attr_name) : M slot :=
  fun s =>
    (s, Ok match pipe with
           | None => Absent
           | Some l => match heap s !! l with
                       | Some p => get_slot a p
                       | None => Absent
                       end
           end).

Definition hasattr (pipe : option handle) (a : attr_name) : M bool :=
  v ← read_slot pipe a;
  mret match v with Absent => false | _ => true end.

(** [pipe.a] *)
Definition getattr (pipe : option handle) (a : attr_name) : M slot :=
  v ← read_slot pipe a;
  match v with
  | Absent => raise (AttributeError (attr_text a))
  | _ => mret v
  end.

(** [pipe.a = v] *)
Definition setattr (pipe : option handle) (a : attr_name) (v : slot)
  : M unit :=
  fun s =>
    match pipe with
    | None => (s, Raise (AttributeError (attr_text a)))
    | Some l =>
      match heap s !! l with
      | Some p => (with_heap (<[l := set_slot a v p]> (heap s)) s, Ok tt)
      | None => (s, Raise (AttributeError (attr_text a)))
      end
    end.

(** A newly constructed pipeline object. *)
Definition new_pipe (p : Pipe) : M handle :=
  fun s => (with_heap (heap s ++ [p]) s, Ok (length (heap s))).

(** ** Loading *)

Definition get_scheduler_instance `{Env} (w : World) (at_site : site)
    (scheduler_name : pystr) (shift_value : Z) : M component :=
  match available_schedulers with
  | [] => raise (RuntimeError (U "No schedulers available..."))
  | _ :: _ =>
    if bool_decide (scheduler_name ∈ available_schedulers)
    then call w at_site ;;
         mret (Scheduler scheduler_name shift_value false false)
    else raise (ValueError (U "Scheduler class '" ++ scheduler_name
                              ++ U "' not found..."))
  end.

(** The key [f"{model_type}_{'alternate' if use_alternate_llm else
    'standard'}"] built by [load_models], [HiDreamSampler.generate] and
    [HiDreamSamplerAdvanced.generate]. *)
Definition cache_key (model_type : pystr) (use_alternate_llm : bool) : pystr :=
  model_type ++ U "_"
    ++ (if use_alternate_llm then U "alternate" else U "standard").

(** The cache check of [load_models]: the cached pipeline when the entry is
    usable, otherwise the entry is dropped. *)
Definition load_models_cached (cache_key : pystr) : M (option handle) :=
  present ← cache_contains cache_key;
  if present : bool then
    '(pipe, stored_config) ← cache_getitem cache_key;
    tr ← read_slot pipe transformer;
    match pipe, tr with
    | Some l, Obj _ => mret (Some l)
    | _, _ => cache_pop_default cache_key ;; mret None
    end
  else mret None.

(** Steps 1 to 5 of [load_models], after the cache check missed.  The
    guarded blocks that swallow their exception (the rope-scaling patch, the
    final [pipe.to] and the CPU offload) change nothing modelled here and
    are left out. *)
Definition load_models_fresh `{Env} (w : World) (model_type : pystr)
    (use_alternate_llm : bool) (config : ModelConfig) : M handle :=
  let model_path := path config in
  let scheduler_name := scheduler_class config in
  let llama_model_name :=
    if is_nf4 config
    then (if use_alternate_llm then ALTERNATE_NF4_LLAMA_MODEL_NAME
          else NF4_LLAMA_MODEL_NAME)
    else (if use_alternate_llm then ALTERNATE_LLAMA_MODEL_NAME
          else ORIGINAL_LLAMA_MODEL_NAME) in
  (if is_nf4 config then mret tt
   else if bnb_available then mret tt
   else raise (ImportError (U "BNB config required for standard LLM."))) ;;
  call w AutoTokenizer_from_pretrained ;;
  let tokenizer := Tokenizer llama_model_name in
  (if is_nf4 config then
     try_except
       (if gptqmodel_available
        then call w AutoModelForCausalLM_from_pretrained
        else if autogptq_available
        then call w AutoGPTQForCausalLM_from_pretrained
        else raise (ImportError (U "No supported GPTQModel backend for INT4/NF4 (need transformers.GPTQConfig or auto_gptq).")))
       (fun e => raise e)
   else call w LlamaForCausalLM_from_pretrained) ;;
  let text_encoder := TextEncoder llama_model_name in
  (if is_nf4 config && accelerate_available then mret tt
   else call w text_encoder_to) ;;
  (if is_nf4 config then mret tt
   else if bnb_available then mret tt
   else raise (ImportError (U "BNB config required for transformer but unavailable."))) ;;
  call w HiDreamImageTransformer2DModel_from_pretrained ;;
  let transformer_obj := Transformer model_path in
  call w transformer_to ;;
  scheduler_obj ← get_scheduler_instance w scheduler_init scheduler_name
                    (shift config);
  call w HiDreamImagePipeline_from_pretrained ;;
  pipe ← new_pipe {| pipe_class := HiDreamImagePipeline;
                     v_transformer := PyNone;
                     v_text_encoder_4 := Obj text_encoder;
                     v_tokenizer_4 := Obj tokenizer;
                     v_scheduler := Obj scheduler_obj |};
  setattr (Some pipe) transformer (Obj transformer_obj) ;;
  mret pipe.

Definition load_models `{Env} (w : World) (model_type : pystr)
    (use_alternate_llm : bool) : M (handle * ModelConfig) :=
  if negb hidream_classes_loaded
  then raise (ImportError
                (U "Cannot load models: HiDream classes failed to import."))
  else
    match dict_get MODEL_CONFIGS model_type with
    | None => raise (ValueError (U "Unknown or incompatible model_type: "
                                   ++ model_type))
    | Some config =>
      if requires_bnb config && negb bnb_available
      then raise (ImportError (U "Model '" ++ model_type
                                 ++ U "' requires BitsAndBytes..."))
      else if requires_gptq_deps config
              && (negb optimum_available || negb gptq_support_available)
      then raise (ImportError (U "Model '" ++ model_type
                                 ++ U "' requires Optimum & GPTQ support..."))
      else
        cached ← load_models_cached (cache_key model_type use_alternate_llm);
        match cached with
        | Some pipe => mret (pipe, config)
        | None =>
          pipe ← load_models_fresh w model_type use_alternate_llm config;
          mret (pipe, config)
        end
    end.

(** ** Blocks the three sampler nodes share *)

(** What [generate] returns: a blank tensor or a produced image, by shape. *)
Inductive Output :=
| zeros (shape : list Z)
| image (shape : list Z).

(** [torch.zeros(shape)]; the message goes on with the dimension and the
    shape. *)
Definition negative_dimension : exn :=
  RuntimeError (U "Trying to create tensor with negative dimension").

Definition torch_zeros (shape : list Z) : M Output :=
  if forallb (Z.leb 0) shape then mret (zeros shape)
  else raise negative_dimension.

Definition is_None {A} (o : option A) : bool :=
  match o with
  | None => true
  | Some _ => false
  end.

(** The cache check at the head of each [generate]. *)
Definition check_cache (cache_key : pystr) : M entry :=
  present ← cache_contains cache_key;
  if present : bool then
    '(pipe, config) ← cache_getitem cache_key;
    has_tr ← hasattr pipe transformer;
    tr ← read_slot pipe transformer;
    if is_None pipe || is_None config || negb has_tr
       || match tr with PyNone => true | _ => false end
    then cache_delitem cache_key ;; mret (None, None)
    else mret (pipe, config)
  else mret (None, None).

Definition clear_attr (pipe_to_del : option handle) (a : attr_name)
  : M unit :=
  present ← hasattr pipe_to_del a;
  if present : bool then setattr pipe_to_del a PyNone else mret tt.

(** "More aggressive cleanup - clear all major components" *)
Definition clear_components (pipe_to_del : option handle) : M unit :=
  clear_attr pipe_to_del transformer ;;
  clear_attr pipe_to_del text_encoder_4 ;;
  clear_attr pipe_to_del tokenizer_4 ;;
  clear_attr pipe_to_del scheduler.

(** The [try]/[except] of the eviction loop around a pop and a cleanup. *)
Definition pop_and_clean (cleanup : option handle -> M unit) (key : pystr)
  : M unit :=
  try_except
    ('(pipe_to_del, _) ← cache_pop key;
     cleanup pipe_to_del)
    (fun e => mret tt).

(** The body of the eviction loop. *)
Definition evict_entry (key : pystr) : M unit :=
  pop_and_clean clear_components key.

Fixpoint evict_keys (keys_to_del : list pystr) : M unit :=
  match keys_to_del with
  | [] => mret tt
  | key :: rest => evict_entry key ;; evict_keys rest
  end.

(** [if self._model_cache: ...] before a load. *)
Definition clear_all_cache : M unit :=
  nonempty ← cache_nonempty;
  if nonempty : bool then
    keys_to_del ← cache_keys;
    evict_keys keys_to_del
  else mret tt.

Definition make_scheduler `{Env} (w : World) (cls : pystr) (shift_value : Z)
    (use_karras_sigmas use_exponential_sigmas : bool) : M component :=
  (if hidream_classes_loaded then mret tt
   else raise (TypeError (U "'NoneType' object is not callable"))) ;;
  call w scheduler_replace ;;
  mret (Scheduler cls shift_value use_karras_sigmas use_exponential_sigmas).

(** The "Update scheduler if requested" block. *)
Definition update_scheduler `{Env} (w : World) (pipe : handle)
    (scheduler_choice original_scheduler_class : pystr) (original_shift : Z)
  : M unit :=
  if negb (bool_decide (scheduler_choice = U "Default for model")) then
    of_result (py_print scheduler_choice) ;;
    if bool_decide (scheduler_choice = U "UniPC") then
      new_scheduler ← make_scheduler w (U "FlowUniPCMultistepScheduler")
                         original_shift false false;
      setattr (Some pipe) scheduler (Obj new_scheduler)
    else if bool_decide (scheduler_choice = U "Euler") then
      new_scheduler ← make_scheduler w
                         (U "FlashFlowMatchEulerDiscreteScheduler")
                         original_shift false false;
      setattr (Some pipe) scheduler (Obj new_scheduler)
    else if bool_decide (scheduler_choice = U "Karras Euler") then
      new_scheduler ← make_scheduler w
                         (U "FlashFlowMatchEulerDiscreteScheduler")
                         original_shift true false;
      setattr (Some pipe) scheduler (Obj new_scheduler)
    else if bool_decide (scheduler_choice = U "Karras Exponential") then
      new_scheduler ← make_scheduler w
                         (U "FlashFlowMatchEulerDiscreteScheduler")
                         original_shift false true;
      setattr (Some pipe) scheduler (Obj new_scheduler)
    else mret tt
  else
    default_scheduler ← get_scheduler_instance w scheduler_replace
                          original_scheduler_class original_shift;
    setattr (Some pipe) scheduler (Obj default_scheduler).

(** Inference and output handling.  Whatever raises inside the [try]
    (moving the pipeline, the prints of the prompts, the pipeline itself)
    counts as [pipeline_call] not returning; the [except] branch returns
    the blank tensor of the requested size, [Some] below; the [finally]
    clause updates the progress bar; every failure of the output handling
    gives the blank tensor too. *)
Definition run_pipeline (w : World) (height width : Z) : M Output :=
  let blank := torch_zeros [1; height; width; 3] in
  returned ← try_finally
               (try_except (call w pipeline_call ;; mret None)
                           (fun e => b ← blank; mret (Some b)))
               (call w progress_update);
  match returned with
  | Some b => mret b
  | None =>
    match output_shape w with
    | Some ([1; _; _; 3] as shape) => mret (image shape)
    | _ => blank
    end
  end.

Definition blank_512 : Output := zeros [1; 512; 512; 3].

(** ** [class HiDreamSampler] *)

Module HiDreamSampler.

Definition cleanup_models : M bool :=
  keys_to_del ← cache_keys;
  evict_keys keys_to_del ;;
  mret true.

(** The [try] block of [parse_aspect_ratio]. *)
Definition parse_aspect_ratio_try `{PyRuntime} (aspect_ratio_str : pystr)
  : result (Z * Z) :=
  after_paren ← index (split (U "(") aspect_ratio_str) 1;
  dims_part ← index (split (U ")") after_paren) 0;
  '(width, height) ← unpack2 (split (U "×") dims_part);
  w ← py_int width;
  h ← py_int height;
  mret (w, h).

(** The [except] branch prints [aspect_ratio_str] before it returns. *)
Definition parse_aspect_ratio `{PyRuntime} (aspect_ratio_str : pystr)
  : result (Z * Z) :=
  match parse_aspect_ratio_try aspect_ratio_str with
  | Ok r => Ok r
  | Raise _ => py_print aspect_ratio_str ;; Ok (1024, 1024)
  end.

(** "Clearing ALL cache before loading", then the guarded load and the
    insertion; [None] when the [except] branch returned the blank image. *)
Definition load_and_cache `{Env} (w : World) (model_type : pystr)
    (use_alternate_llm : bool) (cache_key : pystr) : M (option entry) :=
  clear_all_cache ;;
  try_except
    ('(pipe, config) ← load_models w model_type use_alternate_llm;
     cache_setitem cache_key (Some pipe, Some config) ;;
     mret (Some (Some pipe, Some config)))
    (fun e => mret None).

(** The arguments that only reach the pipeline call (prompts, seed, step
    and guidance overrides) are left out.  On a miss [model_type] is
    printed before the eviction when the cache is not empty and again
    before the load: either both prints pass or the first one reached
    raises with the cache as the check left it, which is what the one
    print ahead of [load_and_cache] does. *)
Definition generate `{PyRuntime} `{Env} (w : World)
    (model_type aspect_ratio scheduler_choice : pystr)
    (use_alternate_llm : bool) : M Output :=
  '(width, height) ← of_result (parse_aspect_ratio aspect_ratio);
  of_result (py_print aspect_ratio) ;;
  let width := width / 64 * 64 in
  let height := height / 64 * 64 in
  if is_None (head MODEL_CONFIGS) || bool_decide (model_type = U "error")
  then mret blank_512
  else
    let cache_key := cache_key model_type use_alternate_llm in
    '(pipe, config) ← check_cache cache_key;
    loaded ← (if is_None pipe
              then of_result (py_print model_type) ;;
                   load_and_cache w model_type use_alternate_llm cache_key
              else mret (Some (pipe, config)));
    match loaded with
    | None => mret blank_512
    | Some (Some pipe, Some config) =>
      '(txt2img_pipe, model_config) ←
        load_models w model_type use_alternate_llm;
      let original_scheduler_class := scheduler_class model_config in
      let original_shift := shift config in
      update_scheduler w pipe scheduler_choice original_scheduler_class
                       original_shift ;;
      call w generator_setup ;;
      run_pipeline w height width
    | Some _ => mret blank_512
    end.

End HiDreamSampler.

(** ** [class HiDreamSamplerAdvanced] *)

Module HiDreamSamplerAdvanced.

(** [_model_cache] and [cleanup_models] are the ones of [HiDreamSampler]. *)
Definition cleanup_models : M bool := HiDreamSampler.cleanup_models.

(** The [try] block of [parse_dimensions]. *)
Definition parse_dimensions_try `{PyRuntime} (aspect_ratio_str : pystr)
  : result (Z * Z) :=
  if contains (U "Square Reso") aspect_ratio_str then mret (1024, 1024)
  else
    after_paren ← index (split (U "(") aspect_ratio_str) 1;
    dims_part ← index (split (U ")") after_paren) 0;
    '(width, height) ← unpack2 (split (U "×") dims_part);
    w ← py_int width;
    h ← py_int height;
    mret (w, h).

(** The [except] branch prints [aspect_ratio_str] before it returns. *)
Definition parse_dimensions `{PyRuntime} (aspect_ratio_str : pystr)
  : result (Z * Z) :=
  match parse_dimensions_try aspect_ratio_str with
  | Ok r => Ok r
  | Raise _ => py_print aspect_ratio_str ;; Ok (1024, 1024)
  end.

Definition load_and_cache `{Env} (w : World) (model_type : pystr)
    (use_alternate_llm : bool) (cache_key : pystr) : M (option entry) :=
  clear_all_cache ;;
  try_except
    ('(pipe, config) ← load_models w model_type use_alternate_llm;
     cache_setitem cache_key (Some pipe, Some config) ;;
     mret (Some (Some pipe, Some config)))
    (fun e => mret None).

Definition generate `{PyRuntime} `{Env} (w : World)
    (model_type aspect_ratio scheduler_choice : pystr)
    (use_alternate_llm : bool)
    (square_resolution custom_width custom_height : Z) : M Output :=
  '(width, height) ←
    (if contains (U "Square Reso") aspect_ratio
     then mret (square_resolution, square_resolution)
     else if bool_decide (aspect_ratio = U "Custom")
     then mret (custom_width, custom_height)
     else
       dims ← of_result (parse_dimensions aspect_ratio);
       of_result (py_print aspect_ratio) ;;
       mret dims);
  let width := width / 64 * 64 in
  let height := height / 64 * 64 in
  if is_None (head MODEL_CONFIGS) || bool_decide (model_type = U "error")
  then mret blank_512
  else
    let cache_key := cache_key model_type use_alternate_llm in
    '(pipe, config) ← check_cache cache_key;
    loaded ← (if is_None pipe
              then of_result (py_print model_type) ;;
                   load_and_cache w model_type use_alternate_llm cache_key
              else mret (Some (pipe, config)));
    match loaded with
    | None => mret blank_512
    | Some (Some pipe, Some config) =>
      let original_scheduler_class := scheduler_class config in
      let original_shift := shift config in
      update_scheduler w pipe scheduler_choice original_scheduler_class
                       original_shift ;;
      call w generator_setup ;;
      run_pipeline w (height / 64 * 64) (width / 64 * 64)
    | Some _ => mret blank_512
    end.

End HiDreamSamplerAdvanced.

(** ** [class HiDreamImg2Img] *)

Module HiDreamImg2Img.

Definition cleanup_models : M bool := HiDreamSampler.cleanup_models.

(** [f"{model_type}_img2img_{'alternate' if use_alternate_llm else
    'standard'}"] *)
Definition cache_key (model_type : pystr) (use_alternate_llm : bool)
  : pystr :=
  model_type ++ U "_img2img_"
    ++ (if use_alternate_llm then U "alternate" else U "standard").

(** The image-to-image pipeline built around the components of the loaded
    text-to-image one. *)
Definition convert (w : World) (txt2img_pipe : handle) : M handle :=
  sch ← getattr (Some txt2img_pipe) scheduler;
  te4 ← getattr (Some txt2img_pipe) text_encoder_4;
  tok4 ← getattr (Some txt2img_pipe) tokenizer_4;
  call w HiDreamImageToImagePipeline_init ;;
  pipe ← new_pipe {| pipe_class := HiDreamImageToImagePipeline;
                     v_transformer := Absent;
                     v_text_encoder_4 := te4;
                     v_tokenizer_4 := tok4;
                     v_scheduler := sch |};
  tr ← getattr (Some txt2img_pipe) transformer;
  setattr (Some pipe) transformer tr ;;
  mret pipe.

Definition load_and_cache `{Env} (w : World) (model_type : pystr)
    (use_alternate_llm : bool) (cache_key : pystr) : M (option entry) :=
  clear_all_cache ;;
  try_except
    ('(txt2img_pipe, config) ← load_models w model_type use_alternate_llm;
     pipe ← convert w txt2img_pipe;
     cache_setitem cache_key (Some pipe, Some config) ;;
     mret (Some (Some pipe, Some config)))
    (fun e => mret None).

(** [image_h], [image_w]: the input tensor's shape is
    [(batch, image_h, image_w, channels)]. *)
Definition generate `{Env} (w : World)
    (model_type scheduler_choice : pystr) (use_alternate_llm : bool)
    (image_h image_w : Z) : M Output :=
  call w preprocess_image_ops ;;
  if is_None (head MODEL_CONFIGS) || bool_decide (model_type = U "error")
  then mret blank_512
  else
    let cache_key := cache_key model_type use_alternate_llm in
    '(pipe, config) ← check_cache cache_key;
    loaded ← (if is_None pipe
              then of_result (py_print model_type) ;;
                   load_and_cache w model_type use_alternate_llm cache_key
              else mret (Some (pipe, config)));
    match loaded with
    | None => mret blank_512
    | Some (Some pipe, Some config) =>
      let original_scheduler_class := scheduler_class config in
      let original_shift := shift config in
      update_scheduler w pipe scheduler_choice original_scheduler_class
                       original_shift ;;
      call w generator_setup ;;
      run_pipeline w image_h image_w
    | Some _ => mret blank_512
    end.

End HiDreamImg2Img.

(** ** [class HiDreamResolutionSelect] *)

Module HiDreamResolutionSelect.

(** [None] marks the entry handled by the custom logic. *)
Definition _RESOLUTION_PRESETS : list (pystr * option (Z * Z)) :=
  [(U "1:1 (Square Reso)", Some (1024, 1024));
   (U "1:2 Tablet (704 x 1408)", Some (704, 1408));
   (U "2:1 Rectangle (1408 x 704)", Some (1408, 704));
   (U "2:3 Portrait (704 x 1344)", Some (704, 1344));
   (U "3:2 Landscape (1344 x 704)", Some (1344, 704));
   (U "12:25 Poster (704 x 1472)", Some (704, 1472));
   (U "25:12 Banner (1472 x 704)", Some (1472, 704));
   (U "4:5 Classic (896 x 1120)", Some (896, 1120));
   (U "5:4 Classic (1120 x 896)", Some (1120, 896));
   (U "9:16 Portrait (768 x 1344)", Some (768, 1344));
   (U "16:9 Widescreen (1344 x 768)", Some (1344, 768));
   (U "1:3 Vertical Poster (576 x 1728)", Some (576, 1728));
   (U "3:1 Panoramic (1728 x 576)", Some (1728, 576));
   (U "1:4 Ultrawide (512 x 2048)", Some (512, 2048));
   (U "4:1 Banner (2048 x 512)", Some (2048, 512));
   (U "Custom Square", None)].

(** The branch of an unknown preset prints its name. *)
Definition get_resolution (resolution_preset : pystr)
    (custom_square_size : Z) : result (Z * Z) :=
  let '(width, height) := (1024, 1024) in
  if decide (resolution_preset = U "Custom Square")
  then Ok (custom_square_size, custom_square_size)
  else
    match dict_get _RESOLUTION_PRESETS resolution_preset with
    | Some (Some dimensions) => Ok dimensions
    | Some None | None => py_print resolution_preset ;; Ok (width, height)
    end.

End HiDreamResolutionSelect.

(** ** Registration with the host's memory management *)

(** A function object of the host: what calling it does to the host's own
    state [H] and to this module's state, its result, and whether it carries
    the attribute [_hidream_wrapped]. *)
Record HostFunction (H R : Type) := {
  call_fn : H * State -> (H * State) * R;
  _hidream_wrapped : bool
}.
Arguments call_fn {H R} h.
Arguments _hidream_wrapped {H R} h.

Definition wrapped_unload {H R} (original_unload : HostFunction H R)
  : H * State -> (H * State) * R :=
  fun '(h, s) =>
    let '(s', _) := HiDreamSampler.cleanup_models s in
    call_fn original_unload (h, s').

(** The registration block at the end of the module; the argument is
    [comfy.model_management.unload_all_models], [None] when the host has no
    such attribute. *)
Definition register {H R} (unload_all_models : option (HostFunction H R))
  : option (HostFunction H R) :=
  match unload_all_models with
  | None => None
  | Some f =>
    if negb (_hidream_wrapped f)
    then let original_unload := f in
         Some {| call_fn := wrapped_unload original_unload;
                 _hidream_wrapped := true |}
    else Some f
  end.

(** ** Concrete runtimes, for examples *)

(** Every model type the module can configure. *)
Definition configured_names : list pystr := ALL_MODEL_CONFIGS.*1.

(** The code points of the digit zero of every decimal script of Unicode
    14.0, the database of CPython 3.11, other than ASCII; the nine that
    follow each are its digits one to nine. *)
Definition unicode_zeros : list N :=
  [1632; 1776; 1984; 2406; 2534; 2662; 2790; 2918; 3046; 3174; 3302; 3430;
   3558; 3664; 3792; 3872; 4160; 4240; 6112; 6160; 6470; 6608; 6784; 6800;
   6992; 7088; 7232; 7248; 42528; 43216; 43264; 43472; 43504; 43600; 44016;
   65296; 66720; 68912; 69734; 69872; 69942; 70096; 70384; 70736; 70864;
   71248; 71360; 71472; 71904; 72016; 72784; 73040; 73120; 92768; 92864;
   93008; 120782; 120792; 120802; 120812; 120822; 123200; 123632; 125264;
   130032]%N.

Definition unicode_decimal_14 (c : N) : option N :=
  (fun z => c - z)%N
    <$> List.find (fun z => (z <=? c) && (c <=? z + 9))%N unicode_zeros.

(** CPython 3.11 with its defaults. *)
Definition cpython : PyRuntime :=
  {| unicode_decimal := unicode_decimal_14; int_max_str_digits := 4300 |}.

(** Every optional dependency imported. *)
Definition env_full : Env :=
  {| flash_attn_available := true; sdpa_available := true;
     accelerate_available := true; gptqmodel_available := true;
     autogptq_available := true; optimum_available := true;
     bnb_available := true; hidream_classes_loaded := true |}.

(** The local [hi_diffusers] import failed. *)
Definition env_no_classes : Env :=
  {| flash_attn_available := true; sdpa_available := true;
     accelerate_available := true; gptqmodel_available := true;
     autogptq_available := true; optimum_available := true;
     bnb_available := true; hidream_classes_loaded := false |}.

(** Every third-party call returns and one 1024x1024 image comes back. *)
Definition world_ok : World :=
  {| returns := fun _ => true; output_shape := Some [1; 1024; 1024; 3] |}.

(** Every third-party call raises. *)
Definition world_down : World :=
  {| returns := fun _ => false; output_shape := None |}.

Definition empty_state : State := {| _model_cache := ∅; heap := [] |}.

(** A host handler that does nothing and returns [true]. *)
Definition plain_unload : HostFunction unit bool :=
  {| call_fn := fun hs => (hs, true); _hidream_wrapped := false |}.

(** ** Vocabulary of the statements *)

(** [m] can only end in an exception satisfying [P]. *)
Definition raises_only {A} (P : exn -> Prop) (m : M A) : Prop :=
  forall s s' e, m s = (s', Raise e) -> P e.

(** The error of the [model_type not in MODEL_CONFIGS] branch. *)
Definition not_unknown_model_type (e : exn) : Prop :=
  forall x, e <> ValueError (U "Unknown or incompatible model_type: " ++ x).

(** What the eviction loop does to one attribute of an object: an attribute
    that exists becomes [None]. *)
Definition nulled_slot (v : slot) : slot :=
  match v with
  | Absent => Absent
  | _ => PyNone
  end.

Definition null_attr (a : attr_name) (pipe : option handle) (h : list Pipe)
  : list Pipe :=
  match pipe with
  | Some l =>
    match h !! l with
    | Some p => <[l := set_slot a (nulled_slot (get_slot a p)) p]> h
    | None => h
    end
  | None => h
  end.

Definition null_all (pipe : option handle) (h : list Pipe) : list Pipe :=
  null_attr scheduler pipe
    (null_attr tokenizer_4 pipe
       (null_attr text_encoder_4 pipe (null_attr transformer pipe h))).

(** The object behind handle [l] owns no component any more. *)
Definition released (h : list Pipe) (l : handle) : Prop :=
  forall p, h !! l = Some p -> forall a c, get_slot a p <> Obj c.

(** The attribute of the object behind a cached handle, [Absent] for
    [None]. *)
Definition slot_of (s : State) (pipe : option handle) (a : attr_name)
  : slot :=
  match pipe with
  | None => Absent
  | Some l => match heap s !! l with
              | Some p => get_slot a p
              | None => Absent
              end
  end.

(** A cache lookup misses at [key]: both checks answer "not cached". *)
Definition lookup_misses (key : pystr) (s : State) : Prop :=
  check_cache key s = (s, Ok (None, None))
  /\ load_models_cached key s = (s, Ok None).

(** [m] leaves the cache mapping as it found it. *)
Definition keeps_cache {A} (m : M A) : Prop :=
  forall s, _model_cache (m s).1 = _model_cache s.

(** [m] does not read or change the state. *)
Definition stateless {A} (m : M A) : Prop :=
  exists r, forall s, m s = (s, r).

(** A load either raises, leaving the state alone, or returns the handle of
    one new object satisfying [Good], appended to the store. *)
Definition load_outcome (Good : Pipe -> Prop) (k : M handle) : Prop :=
  forall s,
    (exists e, k s = (s, Raise e))
    \/ (exists p, k s = (with_heap (heap s ++ [p]) s, Ok (length (heap s)))
                  /\ Good p).

(** What [load_models] hands out: a text-to-image pipeline with its four
    components in place. *)
Definition fresh_pipe (p : Pipe) : Prop :=
  pipe_class p = HiDreamImagePipeline
  /\ forall a, exists c, get_slot a p = Obj c.

(** The validity test of [load_models]: a handle whose transformer is an
    object. *)
Definition loader_valid (s : State) (e : entry) : bool :=
  match e.1 with
  | Some l => match slot_of s (Some l) transformer with
              | Obj _ => true
              | _ => false
              end
  | None => false
  end.

(** The validity test of the [generate] methods: the same, and a
    configuration that is not [None]. *)
Definition generate_valid (s : State) (e : entry) : bool :=
  loader_valid s e && negb (is_None e.2).

(** The ways a call of [load_models] from state [s] can end: rejected by
    the guards, served from the cache, or, with no usable entry under the
    key (a stale one is dropped), a load that fails or succeeds. *)
Inductive load_models_ends `{Env} (m : pystr) (a : bool) (s : State)
  : State * result (handle * ModelConfig) -> Prop :=
| lm_rejected e :
    dict_get MODEL_CONFIGS m = None ->
    load_models_ends m a s (s, Raise e)
| lm_cached l c cfg :
    dict_get MODEL_CONFIGS m = Some cfg ->
    _model_cache s !! cache_key m a = Some (Some l, c) ->
    loader_valid s (Some l, c) = true ->
    load_models_ends m a s (s, Ok (l, cfg))
| lm_load_failed cfg e :
    dict_get MODEL_CONFIGS m = Some cfg ->
    (forall v, _model_cache s !! cache_key m a = Some v ->
               loader_valid s v = false) ->
    load_models_ends m a s
      (with_cache (delete (cache_key m a) (_model_cache s)) s, Raise e)
| lm_loaded cfg p :
    dict_get MODEL_CONFIGS m = Some cfg ->
    (forall v, _model_cache s !! cache_key m a = Some v ->
               loader_valid s v = false) ->
    fresh_pipe p ->
    load_models_ends m a s
      (with_heap (heap s ++ [p])
         (with_cache (delete (cache_key m a) (_model_cache s)) s),
       Ok (length (heap s), cfg)).

(** The shape the three [generate] methods share once past their first
    checks: look the key up, load and cache on a miss, and go on with the
    pipeline in hand. *)
Definition acquire_then (key : pystr) (load_and_cache : M (option entry))
    (continue : handle -> ModelConfig -> M Output) : M Output :=
  '(pipe, config) ← check_cache key;
  loaded ← (if is_None pipe then load_and_cache
            else mret (Some (pipe, config)));
  match loaded with
  | None => mret blank_512
  | Some (Some pipe, Some config) => continue pipe config
  | Some _ => mret blank_512
  end.

(** How a load-and-cache block ends: with the cache empty after a failed
    load, or holding exactly the new entry. *)
Inductive put_outcome `{Env} (m key : pystr)
  : State * result (option entry) -> Prop :=
| put_failed s' :
    _model_cache s' = ∅ ->
    put_outcome m key (s', Ok None)
| put_done s' l cfg :
    _model_cache s' = {[key := (Some l, Some cfg)]} ->
    loader_valid s' (Some l, Some cfg) = true ->
    dict_get MODEL_CONFIGS m = Some cfg ->
    put_outcome m key (s', Ok (Some (Some l, Some cfg))).

(** The first check of every [generate]. *)
Definition no_models `{Env} (model_type : pystr) : bool :=
  is_None (head MODEL_CONFIGS) || bool_decide (model_type = U "error").

(** The three nodes that share the cache, and one call of [generate]. *)
Inductive node := Sampler | Advanced | Img2Img.

Record request := {
  node_of : node;
  model_type : pystr;
  use_alternate_llm : bool;
  aspect_ratio : pystr;
  scheduler_choice : pystr;
  square_resolution : Z;
  custom_width : Z;
  custom_height : Z;
  image_h : Z;
  image_w : Z
}.

(** The key the node builds for the request. *)
Definition request_key (r : request) : pystr :=
  match node_of r with
  | Sampler | Advanced => cache_key (model_type r) (use_alternate_llm r)
  | Img2Img => HiDreamImg2Img.cache_key (model_type r) (use_alternate_llm r)
  end.

Definition run_generate `{PyRuntime} `{Env} (w : World) (r : request)
  : M Output :=
  match node_of r with
  | Sampler =>
    HiDreamSampler.generate w (model_type r) (aspect_ratio r)
      (scheduler_choice r) (use_alternate_llm r)
  | Advanced =>
    HiDreamSamplerAdvanced.generate w (model_type r) (aspect_ratio r)
      (scheduler_choice r) (use_alternate_llm r)
      (square_resolution r) (custom_width r) (custom_height r)
  | Img2Img =>
    HiDreamImg2Img.generate w (model_type r) (scheduler_choice r)
      (use_alternate_llm r) (image_h r) (image_w r)
  end.

Definition run_load_and_cache `{Env} (w : World) (r : request)
  : M (option entry) :=
  match node_of r with
  | Sampler =>
    HiDreamSampler.load_and_cache w (model_type r) (use_alternate_llm r)
      (request_key r)
  | Advanced =>
    HiDreamSamplerAdvanced.load_and_cache w (model_type r)
      (use_alternate_llm r) (request_key r)
  | Img2Img =>
    HiDreamImg2Img.load_and_cache w (model_type r) (use_alternate_llm r)
      (request_key r)
  end.

(** A configuration: the pipeline kind, the model variant and the
    alternate-LLM flag. *)
Definition configuration (r : request) : pipeline_class * pystr * bool :=
  (match node_of r with
   | Sampler | Advanced => HiDreamImagePipeline
   | Img2Img => HiDreamImageToImagePipeline
   end, model_type r, use_alternate_llm r).

(** The key holds an entry both lookups accept. *)
Definition cached (key : pystr) (s : State) : Prop :=
  exists l cfg,
    _model_cache s !! key = Some (Some l, Some cfg)
    /\ loader_valid s (Some l, Some cfg) = true.

(** The call found no usable entry for its configuration and left one. *)
Definition loads_and_caches `{PyRuntime} `{Env} (w : World) (r : request)
    (s : State) : Prop :=
  ~ cached (request_key r) s
  /\ cached (request_key r) (run_generate w r s).1.

(** Examples of requests. *)
Definition sampler_fast : request :=
  {| node_of := Sampler; model_type := U "fast";
     use_alternate_llm := false; aspect_ratio := U "1:1 (1024×1024)";
     scheduler_choice := U "Default for model";
     square_resolution := 1024; custom_width := 1024;
     custom_height := 1024; image_h := 512; image_w := 512 |}.

Definition img2img_full : request :=
  {| node_of := Img2Img; model_type := U "full";
     use_alternate_llm := false; aspect_ratio := U "1:1 (1024×1024)";
     scheduler_choice := U "Default for model";
     square_resolution := 1024; custom_width := 1024;
     custom_height := 1024; image_h := 512; image_w := 512 |}.

(** The state after the image-to-image node has served "full" once. *)
Definition after_img2img_full : State :=
  (@run_generate cpython env_full world_ok img2img_full empty_state).1.

(** A dimension as the option lists write it: ASCII decimal digits, at
    least one, and few enough that the interpreter's limit on integer
    strings cannot apply. *)
Definition dimension_text (ds : pystr) : Prop :=
  ds <> [] /\ Forall (fun c => is_digit c = true) ds
  /\ (length ds <= 640)%nat.

(** A text with no parenthesis and no multiplication sign in it. *)
Definition plain_text (t : pystr) : Prop :=
  (40%N ∉ t) /\ (41%N ∉ t) /\ (215%N ∉ t).

(** Every entry is stored under a key one of the nodes builds for a
    configured model type, together with that model type's record. *)
Definition entries_originate `{Env} (s : State) : Prop :=
  forall k p c,
    _model_cache s !! k = Some (p, c) ->
    exists m a cfg,
      c = Some cfg /\ dict_get MODEL_CONFIGS m = Some cfg
      /\ (k = cache_key m a \/ k = HiDreamImg2Img.cache_key m a).

(** ** The model choice of the nodes' [INPUT_TYPES] *)



(** ** A fresh load, call by call *)

(** The third-party calls of steps 1 to 5 of [load_models], in the order
    the code makes them for a record of [MODEL_CONFIGS]. *)
Definition loading_sites `{Env} (config : ModelConfig) : list site :=
  [AutoTokenizer_from_pretrained;
   if is_nf4 config
   then (if gptqmodel_available then AutoModelForCausalLM_from_pretrained
         else AutoGPTQForCausalLM_from_pretrained)
   else LlamaForCausalLM_from_pretrained]
  ++ (if is_nf4 config && accelerate_available then []
      else [text_encoder_to])
  ++ [HiDreamImageTransformer2DModel_from_pretrained; transformer_to;
      scheduler_init; HiDreamImagePipeline_from_pretrained].

(** The first call of the list that does not return. *)
Definition first_failure (w : World) (sites : list site) : option site :=
  List.find (fun st => negb (returns w st)) sites.

Definition llama_model_name (config : ModelConfig) (use_alternate_llm : bool)
  : pystr :=
  if is_nf4 config
  then (if use_alternate_llm then ALTERNATE_NF4_LLAMA_MODEL_NAME
        else NF4_LLAMA_MODEL_NAME)
  else (if use_alternate_llm then ALTERNATE_LLAMA_MODEL_NAME
        else ORIGINAL_LLAMA_MODEL_NAME).

(** The pipeline object a successful load assembles. *)
Definition loaded_pipe (config : ModelConfig) (use_alternate_llm : bool)
  : Pipe :=
  {| pipe_class := HiDreamImagePipeline;
     v_transformer := Obj (Transformer (path config));
     v_text_encoder_4 :=
       Obj (TextEncoder (llama_model_name config use_alternate_llm));
     v_tokenizer_4 :=
       Obj (Tokenizer (llama_model_name config use_alternate_llm));
     v_scheduler :=
       Obj (Scheduler (scheduler_class config) (shift config) false false) |}.

(** What a fresh load from state [s] comes to. *)
Definition fresh_load (w : World) `{Env} (config : ModelConfig)
    (use_alternate_llm : bool) (s : State) : State * result handle :=
  match first_failure w (loading_sites config) with
  | Some st => (s, Raise (LibraryError st))
  | None => (with_heap (heap s ++ [loaded_pipe config use_alternate_llm]) s,
             Ok (length (heap s)))
  end.

(** ** One call of [generate], step by step *)

(** The scheduler the "Update scheduler if requested" block installs for a
    choice, given the class and shift of the model; [None] for a choice the
    block does not know, which leaves the pipeline's scheduler as it is. *)
Definition chosen_scheduler (choice cls : pystr) (sh : Z) : option component :=
  if bool_decide (choice = U "Default for model")
  then Some (Scheduler cls sh false false)
  else if bool_decide (choice = U "UniPC")
  then Some (Scheduler (U "FlowUniPCMultistepScheduler") sh false false)
  else if bool_decide (choice = U "Euler")
  then Some (Scheduler (U "FlashFlowMatchEulerDiscreteScheduler") sh
               false false)
  else if bool_decide (choice = U "Karras Euler")
  then Some (Scheduler (U "FlashFlowMatchEulerDiscreteScheduler") sh
               true false)
  else if bool_decide (choice = U "Karras Exponential")
  then Some (Scheduler (U "FlashFlowMatchEulerDiscreteScheduler") sh
               false true)
  else None.

(** The blank image of the requested size, when it can be made. *)
Definition blank_result (height width : Z) : result Output :=
  if (0 <=? height) && (0 <=? width) then Ok (zeros [1; height; width; 3])
  else Raise negative_dimension.

(** What inference and output handling come to. *)
Definition pipeline_result (w : World) (height width : Z) : result Output :=
  if returns w progress_update then
    if returns w pipeline_call then
      match output_shape w with
      | Some ([1; _; _; 3] as shape) => Ok (image shape)
      | _ => blank_result height width
      end
    else blank_result height width
  else Raise (LibraryError progress_update).

(** The part of every [generate] after the pipeline is in hand. *)
Definition generation `{Env} (w : World) (pipe : handle)
    (choice cls : pystr) (sh height width : Z) : M Output :=
  update_scheduler w pipe choice cls sh ;;
  call w generator_setup ;;
  run_pipeline w height width.

(** What that part comes to when [pipe] is the handle of object [p]. *)
Definition generation_result (w : World) (pipe : handle) (p : Pipe)
    (choice cls : pystr) (sh height width : Z) (s : State)
  : State * result Output :=
  let finish s1 :=
    if returns w generator_setup
    then (s1, pipeline_result w height width)
    else (s1, Raise (LibraryError generator_setup)) in
  if printable choice then
    match chosen_scheduler choice cls sh with
    | None => finish s
    | Some sc =>
      if returns w scheduler_replace
      then finish (with_heap (<[pipe := set_slot scheduler (Obj sc) p]>
                                (heap s)) s)
      else (s, Raise (LibraryError scheduler_replace))
    end
  else (s, Raise UnicodeEncodeError).

(** What a parser returned, or the fallback size where it raised and
    [generate] with it. *)
Definition parsed (dims : result (Z * Z)) : Z * Z :=
  match dims with
  | Ok d => d
  | Raise _ => (1024, 1024)
  end.

(** The height and width a request asks the pipeline for. *)
Definition requested_size `{PyRuntime} (r : request) : Z * Z :=
  match node_of r with
  | Sampler =>
    let '(width, height) :=
      parsed (HiDreamSampler.parse_aspect_ratio (aspect_ratio r)) in
    (height / 64 * 64, width / 64 * 64)
  | Advanced =>
    let '(width, height) :=
      if contains (U "Square Reso") (aspect_ratio r)
      then (square_resolution r, square_resolution r)
      else if bool_decide (aspect_ratio r = U "Custom")
      then (custom_width r, custom_height r)
      else parsed (HiDreamSamplerAdvanced.parse_dimensions (aspect_ratio r))
    in
    (height / 64 * 64 / 64 * 64, width / 64 * 64 / 64 * 64)
  | Img2Img => (image_h r, image_w r)
  end.

(** What a node does with the pipeline and the record in hand. *)
Definition continue_with `{PyRuntime} `{Env} (w : World) (r : request)
    (pipe : handle) (config : ModelConfig) : M Output :=
  match node_of r with
  | Sampler =>
    '(txt2img_pipe, model_config) ←
      load_models w (model_type r) (use_alternate_llm r);
    generation w pipe (scheduler_choice r) (scheduler_class model_config)
      (shift config) (requested_size r).1 (requested_size r).2
  | Advanced | Img2Img =>
    generation w pipe (scheduler_choice r) (scheduler_class config)
      (shift config) (requested_size r).1 (requested_size r).2
  end.

(** The steps of a node ahead of its "No models loaded" check go
    through: the aspect ratio is parsed and printed, the input image is
    prepared. *)
Definition prepared (w : World) (r : request) : bool :=
  match node_of r with
  | Sampler => printable (aspect_ratio r)
  | Advanced =>
    contains (U "Square Reso") (aspect_ratio r)
    || bool_decide (aspect_ratio r = U "Custom")
    || printable (aspect_ratio r)
  | Img2Img => returns w preprocess_image_ops
  end.

(** The exception of those steps otherwise. *)
Definition unprepared (r : request) : exn :=
  match node_of r with
  | Sampler | Advanced => UnicodeEncodeError
  | Img2Img => LibraryError preprocess_image_ops
  end.

(** The call gets past the checks that precede the cache lookup. *)
Definition reaches_cache `{Env} (w : World) (r : request) : bool :=
  prepared w r && negb (no_models (model_type r)).

(** The miss path of a node: [model_type] is printed, then the
    load-and-cache block runs. *)
Definition print_and_load `{Env} (w : World) (r : request)
  : M (option entry) :=
  of_result (py_print (model_type r)) ;; run_load_and_cache w r.

(** The image-to-image pipeline built around a text-to-image one. *)
Definition converted (p : Pipe) : Pipe :=
  {| pipe_class := HiDreamImageToImagePipeline;
     v_transformer := v_transformer p;
     v_text_encoder_4 := v_text_encoder_4 p;
     v_tokenizer_4 := v_tokenizer_4 p;
     v_scheduler := v_scheduler p |}.

(** The pipeline a node caches for a record. *)
Definition pipe_for (n : node) (config : ModelConfig)
    (use_alternate_llm : bool) : Pipe :=
  match n with
  | Sampler | Advanced => loaded_pipe config use_alternate_llm
  | Img2Img => converted (loaded_pipe config use_alternate_llm)
  end.

(** The record of the request when every call of its load returns. *)
Definition loadable `{Env} (w : World) (r : request) : option ModelConfig :=
  match dict_get MODEL_CONFIGS (model_type r) with
  | Some config =>
    if is_None (first_failure w
                  (loading_sites config
                   ++ match node_of r with
                      | Img2Img => [HiDreamImageToImagePipeline_init]
                      | Sampler | Advanced => []
                      end))
    then Some config else None
  | None => None
  end.

(** The handle, the objects and the state a successful load-and-cache
    block leaves, from the state [s2] the eviction loop left. *)
Definition new_handle (r : request) (s2 : State) : handle :=
  match node_of r with
  | Sampler | Advanced => length (heap s2)
  | Img2Img => S (length (heap s2))
  end.

Definition new_objects (r : request) (config : ModelConfig) : list Pipe :=
  match node_of r with
  | Sampler | Advanced => [loaded_pipe config (use_alternate_llm r)]
  | Img2Img => [loaded_pipe config (use_alternate_llm r);
                converted (loaded_pipe config (use_alternate_llm r))]
  end.

Definition stored_state (r : request) (config : ModelConfig) (s2 : State)
  : State :=
  {| _model_cache :=
       {[request_key r := (Some (new_handle r s2), Some config)]};
     heap := heap s2 ++ new_objects r config |}.


(** Models cannot be loaded; everything else works. *)
Definition world_offline : World :=
  {| returns := fun st => match st with
                          | scheduler_replace | generator_setup
                          | pipeline_call | progress_update
                          | preprocess_image_ops => true
                          | _ => false
                          end;
     output_shape := Some [1; 1024; 1024; 3] |}.

(** The state after the first node has served "fast" once. *)
Definition after_sampler_fast : State :=
  (@run_generate cpython env_full world_ok sampler_fast empty_state).1.

(** The record of "fast" in the table. *)
Definition loaded_config_fast : ModelConfig :=
  {| path := ORIGINAL_MODEL_PREFIX ++ U "/HiDream-I1-Fast";
     guidance_scale := 0; num_inference_steps := 16; shift := 3;
     scheduler_class := U "FlashFlowMatchEulerDiscreteScheduler";
     is_nf4 := false; is_fp8 := false;
     requires_bnb := true; requires_gptq_deps := false |}.

(** ** What the cache holds *)

(** [p] is [q] up to its scheduler, which is an object: the attribute the
    nodes replace from call to call. *)
Definition same_build (p q : Pipe) : Prop :=
  pipe_class p = pipe_class q
  /\ v_transformer p = v_transformer q
  /\ v_text_encoder_4 p = v_text_encoder_4 q
  /\ v_tokenizer_4 p = v_tokenizer_4 q
  /\ exists c, v_scheduler p = Obj c.

(** The key a node builds. *)
Definition node_key (n : node) (m : pystr) (a : bool) : pystr :=
  match n with
  | Sampler | Advanced => cache_key m a
  | Img2Img => HiDreamImg2Img.cache_key m a
  end.

(** Every entry sits under the key of a node, a configured model type and
    a flag, and holds that model type's record and the handle of a
    pipeline built for them. *)
Definition cache_sound `{Env} (s : State) : Prop :=
  forall k e,
    _model_cache s !! k = Some e ->
    exists n m a cfg l p,
      k = node_key n m a
      /\ e = (Some l, Some cfg)
      /\ dict_get MODEL_CONFIGS m = Some cfg
      /\ heap s !! l = Some p
      /\ same_build p (pipe_for n cfg a).

(** The states the module can be in: it starts with an empty cache, and
    the cache is touched by the [generate] methods, [load_models] and
    [cleanup_models] only. *)
Inductive reachable `{PyRuntime} `{Env} : State -> Prop :=
| reach_start : reachable empty_state
| reach_generate w r s :
    reachable s -> reachable (run_generate w r s).1
| reach_load_models w m a s :
    reachable s -> reachable (load_models w m a s).1
| reach_cleanup s :
    reachable s -> reachable (HiDreamSampler.cleanup_models s).1.

(** ** The prompts [HiDreamSamplerAdvanced.generate] gives the pipeline *)

(** The truth value of a string. *)
Definition nonempty (s : pystr) : bool :=
  match s with
  | [] => false
  | _ :: _ => true
  end.

(** [x.strip() if x.strip() else primary_prompt], then "." in place of a
    blank result: the prompt of the CLIP-L, OpenCLIP and T5 encoders. *)
Definition encoder_prompt (specific_prompt primary_prompt : pystr) : pystr :=
  let prompt := if nonempty (strip specific_prompt)
                then strip specific_prompt else primary_prompt in
  if negb (nonempty (strip prompt)) then U "." else prompt.

Definition period_system_prompt : pystr :=
  U "You will only output a single period as your output '.'" ++ [10%N]
    ++ U "Do not add any other acknowledgement or extra text or data.".

(** The Llama prompt and the system prompt that goes with it. *)
Definition llama_prompts (llama_prompt primary_prompt llm_system_prompt
                          : pystr) : pystr * pystr :=
  let prompt_llama := if nonempty (strip llama_prompt)
                      then strip llama_prompt else primary_prompt in
  let custom_system_prompt := llm_system_prompt in
  if negb (nonempty (strip prompt_llama))
  then (U ".", period_system_prompt)
  else (prompt_llama, custom_system_prompt).

(** [negative_prompt.strip() if negative_prompt else None], the argument
    every [generate] passes. *)
Definition negative_argument (negative_prompt : pystr) : option pystr :=
  if nonempty negative_prompt then Some (strip negative_prompt) else None.

(** ** The aspect ratios the forms offer *)

(** [aspect_ratio_options] of [HiDreamSampler.INPUT_TYPES]. *)
Definition sampler_aspect_ratio_options : list pystr :=
  [U "1:1 (1024×1024)"; U "9:16 (768×1360)"; U "16:9 (1360×768)";
   U "3:4 (880×1168)"; U "4:3 (1168×880)"; U "3:2 (1248×832)";
   U "2:3 (832×1248)"].

(** [aspect_ratio_options] of [HiDreamSamplerAdvanced.INPUT_TYPES]. *)
Definition advanced_aspect_ratio_options : list pystr :=
  [U "1:1 (Square Reso)"; U "9:16 (768×1360)"; U "16:9 (1360×768)";
   U "3:4 (880×1168)"; U "4:3 (1168×880)"; U "3:2 (1248×832)";
   U "2:3 (832×1248)"; U "Custom"].

(** ** The geometry of [HiDreamImg2Img.preprocess_image] *)

(** The float arithmetic [preprocess_image] uses, kept abstract: [a / b] on
    two integers with [b] not zero, [float('inf')], [abs(x - y)], [x < y],
    and the two truncations [int(n / x)] and [int(n * x)], which are [None]
    when Python raises (a zero divisor, an infinite or undefined value). *)
Class PyFloat := {
  float : Type;
  truediv : Z -> Z -> float;
  inf : float;
  abs_diff : float -> float -> float;
  flt : float -> float -> bool;
  int_truediv : Z -> float -> option Z;
  int_mul : Z -> float -> option Z
}.

(** (width, height) *)
Definition standard_resolutions : list (Z * Z) :=
  [(1024, 1024); (768, 1360); (1360, 768); (880, 1168); (1168, 880);
   (832, 1248); (1248, 832)].

(** The loop "Find closest aspect ratio": the state is
    [(best_diff, (target_width, target_height))]. *)
Definition closest_step `{PyFloat} (orig_aspect : float)
    (st : float * (Z * Z)) (wh : Z * Z) : float * (Z * Z) :=
  let '(best_diff, target) := st in
  let '(w, h) := wh in
  let res_aspect := truediv w h in
  let diff := abs_diff res_aspect orig_aspect in
  if flt diff best_diff then (diff, (w, h)) else (best_diff, target).

Definition closest_resolution `{PyFloat} (orig_aspect : float) : Z * Z :=
  (foldl (closest_step orig_aspect) (inf, (1024, 1024))
         standard_resolutions).2.

(** The sizes and offsets [preprocess_image] computes. *)
Record Geometry := {
  target_width : Z;
  target_height : Z;
  new_w : Z;
  new_h : Z;
  y_offset : Z;
  x_offset : Z;
  height_to_copy : Z;
  width_to_copy : Z;
  target_y_offset : Z;
  target_x_offset : Z
}.

(** [preprocess_image(image)] as [generate] calls it, without a target
    size, for an image of shape [(_, orig_h, orig_w, _)]: every number it
    computes before it touches the pixels; [None] when the arithmetic
    raises. *)
Definition preprocess_geometry `{PyFloat} (orig_h orig_w : Z)
  : option Geometry :=
  if (orig_h =? 0)%Z then None
  else
    let orig_aspect := truediv orig_w orig_h in
    let '(target_width, target_height) := closest_resolution orig_aspect in
    let target_width := target_width / 16 * 16 in
    let target_height := target_height / 16 * 16 in
    '(new_w, new_h) ←
      (if flt (truediv target_width target_height) orig_aspect
       then
         let new_w := target_width in
         new_h ← int_truediv new_w orig_aspect;
         Some (new_w, new_h / 16 * 16)
       else
         let new_h := target_height in
         new_w ← int_mul new_h orig_aspect;
         Some (new_w / 16 * 16, new_h));
    let y_offset := Z.max 0 ((new_h - target_height) / 2) in
    let x_offset := Z.max 0 ((new_w - target_width) / 2) in
    let height_to_copy := Z.min new_h target_height in
    let width_to_copy := Z.min new_w target_width in
    let target_y_offset := Z.max 0 ((target_height - height_to_copy) / 2) in
    let target_x_offset := Z.max 0 ((target_width - width_to_copy) / 2) in
    Some {| target_width := target_width; target_height := target_height;
            new_w := new_w; new_h := new_h;
            y_offset := y_offset; x_offset := x_offset;
            height_to_copy := height_to_copy;
            width_to_copy := width_to_copy;
            target_y_offset := target_y_offset;
            target_x_offset := target_x_offset |}.

(** Exact fractions [(numerator, denominator)] in place of floats, for
    examples; [(1, 0)] stands for infinity. *)
Definition fractions : PyFloat :=
  {| float := Z * Z;
     truediv := fun a b => if (0 <? b)%Z then (a, b) else (- a, - b);
     inf := (1, 0);
     abs_diff := fun x y => (Z.abs (x.1 * y.2 - y.1 * x.2), x.2 * y.2);
     flt := fun x y => (x.1 * y.2 <? y.1 * x.2)%Z;
     int_truediv := fun n x =>
       if (x.1 =? 0)%Z then None else Some (Z.quot (n * x.2) x.1);
     int_mul := fun n x => Some (Z.quot (n * x.1) x.2) |}.

(** * Properties *)

(** ** Cache keys *)

Lemma cache_key_eq (m : pystr) (a : bool) :
  cache_key m a
  = m ++ (if a then U "_alternat" else U "_standar")
      ++ [if a then 101%N else 100%N].
Proof. destruct a; reflexivity. Qed.

Lemma img2img_cache_key_eq (m : pystr) (a : bool) :
  HiDreamImg2Img.cache_key m a
  = m ++ (if a then U "_img2img_alternat" else U "_img2img_standar")
      ++ [if a then 101%N else 100%N].
Proof. destruct a; reflexivity. Qed.

Lemma cache_key_inj (m1 m2 : pystr) (a1 a2 : bool) :
  cache_key m1 a1 = cache_key m2 a2 -> m1 = m2 /\ a1 = a2.
Proof.
  rewrite !cache_key_eq, !app_assoc. intros E.
  apply app_inj_tail in E as [E Hlast].
  assert (a1 = a2) as -> by (destruct a1, a2; congruence).
  split; [|reflexivity]. eapply app_inv_tail, E.
Qed.

Lemma img2img_cache_key_inj (m1 m2 : pystr) (a1 a2 : bool) :
  HiDreamImg2Img.cache_key m1 a1 = HiDreamImg2Img.cache_key m2 a2 ->
  m1 = m2 /\ a1 = a2.
Proof.
  rewrite !img2img_cache_key_eq, !app_assoc. intros E.
  apply app_inj_tail in E as [E Hlast].
  assert (a1 = a2) as -> by (destruct a1, a2; congruence).
  split; [|reflexivity]. eapply app_inv_tail, E.
Qed.

Lemma cache_key_img2img_same (m : pystr) (a : bool) :
  cache_key m a <> HiDreamImg2Img.cache_key m a.
Proof.
  unfold cache_key, HiDreamImg2Img.cache_key. intros E.
  apply app_inv_head in E. destruct a; vm_compute in E; discriminate.
Qed.

(** C6: the key is a function of the model type, the alternate-LLM flag and
    the pipeline kind; for one (model_type, use_alternate_llm) pair the
    text-to-image key and the image-to-image key differ; and within each
    kind two keys are equal exactly when their pairs are equal. *)
Theorem cache_key_namespaces :
  (forall m a, cache_key m a <> HiDreamImg2Img.cache_key m a)
  /\ (forall m1 a1 m2 a2,
        cache_key m1 a1 = cache_key m2 a2 <-> (m1, a1) = (m2, a2))
  /\ (forall m1 a1 m2 a2,
        HiDreamImg2Img.cache_key m1 a1 = HiDreamImg2Img.cache_key m2 a2
        <-> (m1, a1) = (m2, a2)).
Proof.
  split; [exact cache_key_img2img_same|]. split; intros m1 a1 m2 a2; split.
  - intros [-> ->]%cache_key_inj. reflexivity.
  - intros [= -> ->]. reflexivity.
  - intros [-> ->]%img2img_cache_key_inj. reflexivity.
  - intros [= -> ->]. reflexivity.
Qed.


(** ** The resolution node *)

Lemma get_resolution_custom_square (c : Z) :
  HiDreamResolutionSelect.get_resolution (U "Custom Square") c = Ok (c, c).
Proof. reflexivity. Qed.



Lemma get_resolution_custom_multiple_of_64 (c : Z) :
  64 <= c <= 1536 -> c mod 64 = 0 ->
  HiDreamResolutionSelect.get_resolution (U "Custom Square") c = Ok (c, c)
  /\ 0 < c /\ c mod 64 = 0.
Proof. intros Hr Hm. rewrite get_resolution_custom_square. split; [done|lia]. Qed.

(** C10, at the input where it fails: the preset "4:5 Classic (896 x 1120)"
    is returned as stored, and its height 1120 is 17 * 64 + 32, not a
    multiple of 64; the mirrored preset "5:4 Classic (1120 x 896)" has
    the same width. *)
Theorem get_resolution_classic_not_multiple_of_64 :
  In (U "4:5 Classic (896 x 1120)", Some (896, 1120))
     HiDreamResolutionSelect._RESOLUTION_PRESETS
  /\ HiDreamResolutionSelect.get_resolution
       (U "4:5 Classic (896 x 1120)") 1024 = Ok (896, 1120)
  /\ HiDreamResolutionSelect.get_resolution
       (U "5:4 Classic (1120 x 896)") 1024 = Ok (1120, 896)
  /\ 1120 mod 64 = 32.
Proof.
  split; [|split; [|split]]; try reflexivity.
  vm_compute. do 7 right. left. reflexivity.
Qed.

(** ** Exceptions a computation can end in *)

Lemma raises_only_ret {A} P (a : A) : raises_only P (mret a).
Proof. intros s s' e [=]. Qed.

Lemma raises_only_raise {A} (P : exn -> Prop) e :
  P e -> raises_only P (@raise A e).
Proof. intros HP s s' e' [= _ <-]. exact HP. Qed.

Lemma raises_only_bind {A B} P (m : M A) (f : A -> M B) :
  raises_only P m -> (forall a, raises_only P (f a)) ->
  raises_only P (m ≫= f).
Proof.
  intros Hm Hf s s' e. unfold mbind, M_bind.
  destruct (m s) as [s1 [a|e1]] eqn:E.
  - apply Hf.
  - intros [= _ <-]. eapply Hm, E.
Qed.

Lemma raises_only_try_except {A} P (m : M A) (h : exn -> M A) :
  (forall e, raises_only P (h e)) -> raises_only P (try_except m h).
Proof.
  intros Hh s s' e. unfold try_except.
  destruct (m s) as [s1 [a|e1]] eqn:E; [intros [=]|]. apply Hh.
Qed.

Lemma raises_only_call P w st :
  P (LibraryError st) -> raises_only P (call w st).
Proof.
  intros HP. unfold call. destruct (returns w st).
  - apply raises_only_ret.
  - apply raises_only_raise, HP.
Qed.

Lemma raises_only_if {A} P (b : bool) (m1 m2 : M A) :
  raises_only P m1 -> raises_only P m2 ->
  raises_only P (if b then m1 else m2).
Proof. destruct b; auto. Qed.

Lemma raises_only_setattr P pipe a v :
  P (AttributeError (attr_text a)) -> raises_only P (setattr pipe a v).
Proof.
  intros HP s s' e. unfold setattr.
  destruct pipe as [l|]; [destruct (heap s !! l)|]; intros [= _ <-]; exact HP.
Qed.

Lemma raises_only_new_pipe P p : raises_only P (new_pipe p).
Proof. intros s s' e [=]. Qed.

Lemma raises_only_get_scheduler_instance `{Env} w st name sh :
  raises_only not_unknown_model_type (get_scheduler_instance w st name sh).
Proof.
  unfold get_scheduler_instance.
  destruct available_schedulers.
  { apply raises_only_raise. intros x [=]. }
  apply raises_only_if.
  - apply raises_only_bind; [|intros; apply raises_only_ret].
    apply raises_only_call. intros x [=].
  - apply raises_only_raise. intros x E. injection E as E.
    vm_compute in E. discriminate E.
Qed.

Lemma raises_only_reraise {A} P (m : M A) :
  raises_only P m -> raises_only P (try_except m (fun e => raise e)).
Proof.
  intros Hm s s' e. unfold try_except.
  destruct (m s) as [s1 [a|e1]] eqn:E; [intros [=]|].
  intros [= _ <-]. eapply Hm, E.
Qed.

Ltac raises_tac :=
  repeat first
    [ apply raises_only_ret
    | apply raises_only_new_pipe
    | apply raises_only_get_scheduler_instance
    | apply raises_only_reraise
    | apply raises_only_bind; [|intros ?]
    | apply raises_only_if
    | apply raises_only_call; intros ? [=]
    | apply raises_only_raise; intros ? [=]
    | apply raises_only_setattr; intros ? [=] ].

Lemma raises_only_load_models_fresh `{Env} w m a config :
  raises_only not_unknown_model_type (load_models_fresh w m a config).
Proof. unfold load_models_fresh. raises_tac. Qed.

Lemma raises_only_load_models_cached P key :
  raises_only P (load_models_cached key).
Proof.
  intros s s' e. unfold load_models_cached, cache_contains, cache_getitem,
    read_slot, cache_pop_default, mbind, M_bind, mret, M_ret.
  destruct (_model_cache s !! key) as [[pipe cfg]|] eqn:E; simpl.
  - rewrite E. destruct pipe as [l|]; [|intros [=]].
    destruct (heap s !! l) as [p|]; [|intros [=]].
    destruct (v_transformer p); intros [=].
  - intros [=].
Qed.

(** ** The loader's guard on the model type *)

Lemma load_models_not_configured `{Env} w m a s :
  dict_get MODEL_CONFIGS m = None ->
  load_models w m a s
  = (s, Raise (if hidream_classes_loaded
               then ValueError (U "Unknown or incompatible model_type: "
                                  ++ m)
               else ImportError
                      (U "Cannot load models: HiDream classes failed to import."))).
Proof.
  intros Hm. unfold load_models.
  destruct hidream_classes_loaded; simpl; [|reflexivity].
  rewrite Hm. reflexivity.
Qed.

(** C5, as the code has it: an unrecognised model type makes [load_models]
    raise before anything is loaded or touched, with [ValueError] when the
    HiDream classes were imported and with the [ImportError] of the first
    guard when they were not (then no model type is recognised); for a
    recognised model type the unknown-model-type branch is never the way
    [load_models] ends. *)
Theorem load_models_unknown_model_type `{Env} (w : World) (m : pystr)
    (a : bool) (s : State) :
  (dict_get MODEL_CONFIGS m = None ->
   load_models w m a s
   = (s, Raise (if hidream_classes_loaded
                then ValueError (U "Unknown or incompatible model_type: "
                                   ++ m)
                else ImportError
                       (U "Cannot load models: HiDream classes failed to import."))))
  /\ (is_Some (dict_get MODEL_CONFIGS m) ->
      forall x, (load_models w m a s).2
                <> Raise (ValueError
                            (U "Unknown or incompatible model_type: " ++ x))).
Proof.
  split.
  - apply load_models_not_configured.
  - intros [config Hm] x Hr.
    assert (raises_only not_unknown_model_type (load_models w m a)) as Hro.
    { unfold load_models. rewrite Hm.
      do 3 (apply raises_only_if; [raises_tac|]).
      apply raises_only_bind; [apply raises_only_load_models_cached|].
      intros [pipe|]; [raises_tac|].
      apply raises_only_bind; [apply raises_only_load_models_fresh|].
      intros pipe. raises_tac. }
    destruct (load_models w m a s) as [s' r] eqn:E. simpl in Hr. subst r.
    exact (Hro _ _ _ E x eq_refl).
Qed.

Lemma load_models_unknown_model_type_witness :
  (@load_models env_full world_ok (U "ultra") false empty_state).2
  = Raise (ValueError (U "Unknown or incompatible model_type: ultra"))
  /\ (forall x, (@load_models env_full world_ok (U "fast") false
                   empty_state).2
                <> Raise (ValueError
                            (U "Unknown or incompatible model_type: " ++ x))).
Proof.
  split.
  - rewrite (proj1 (@load_models_unknown_model_type env_full world_ok
                      (U "ultra") false empty_state));
      [reflexivity | vm_compute; reflexivity].
  - apply (proj2 (@load_models_unknown_model_type env_full world_ok
                    (U "fast") false empty_state)).
    vm_compute. eauto.
Defined.

(** With the classes missing, an unrecognised model type does not give a
    [ValueError]: the claim as stated fails. *)
Lemma load_models_unknown_not_ValueError :
  ~ (forall (env : Env) (w : World) (m : pystr) (a : bool) (s : State),
        dict_get MODEL_CONFIGS m = None ->
        exists msg, (load_models w m a s).2 = Raise (ValueError msg)).
Proof.
  intros Hall.
  destruct (Hall env_no_classes world_ok (U "ultra") false empty_state
              eq_refl) as [msg Hmsg].
  vm_compute in Hmsg. discriminate Hmsg.
Qed.

(** ** The unload hook *)

Lemma register_idempotent {H R} (u : option (HostFunction H R)) :
  register (register u) = register u.
Proof.
  destruct u as [f|]; [|reflexivity]. unfold register.
  destruct (_hidream_wrapped f) eqn:E; simpl; [rewrite E|]; reflexivity.
Qed.

(** ** Eviction *)

Lemma with_heap_id s : with_heap (heap s) s = s.
Proof. destruct s; reflexivity. Qed.

Lemma clear_attr_spec pipe a s :
  clear_attr pipe a s = (with_heap (null_attr a pipe (heap s)) s, Ok tt).
Proof.
  unfold clear_attr, hasattr, read_slot, setattr, null_attr,
    mbind, M_bind, mret, M_ret.
  destruct pipe as [l|]; simpl; [|by rewrite with_heap_id].
  destruct (heap s !! l) as [p|] eqn:E; simpl; [|by rewrite with_heap_id].
  destruct (get_slot a p) eqn:G; simpl; rewrite ?E; simpl; try reflexivity.
  f_equal. rewrite <- (with_heap_id s) at 1. f_equal.
  symmetry. apply list_insert_id.
  rewrite E. f_equal. destruct p, a; simpl in *; congruence.
Qed.

Lemma evict_entry_present key pipe config s :
  _model_cache s !! key = Some (pipe, config) ->
  evict_entry key s
  = ({| _model_cache := delete key (_model_cache s);
        heap := null_all pipe (heap s) |}, Ok tt).
Proof.
  intros E. unfold evict_entry, pop_and_clean, try_except, cache_pop.
  unfold mbind at 1, M_bind at 1. rewrite E.
  unfold clear_components, mbind, M_bind. rewrite !clear_attr_spec. simpl.
  reflexivity.
Qed.

Lemma evict_entry_absent key s :
  _model_cache s !! key = None -> evict_entry key s = (s, Ok tt).
Proof.
  intros E. unfold evict_entry, pop_and_clean, try_except, cache_pop.
  unfold mbind, M_bind. rewrite E. reflexivity.
Qed.

Lemma evict_entry_cache key s :
  (evict_entry key s).2 = Ok tt
  /\ _model_cache (evict_entry key s).1 = delete key (_model_cache s).
Proof.
  destruct (_model_cache s !! key) as [[pipe config]|] eqn:E.
  - rewrite (evict_entry_present _ _ _ _ E). done.
  - rewrite (evict_entry_absent _ _ E). split; [done|].
    simpl. symmetry. by apply delete_id.
Qed.

Lemma evict_keys_ok keys s : (evict_keys keys s).2 = Ok tt.
Proof.
  revert s. induction keys as [|k r IH]; intros s; [done|].
  simpl. unfold mbind, M_bind.
  destruct (evict_entry_cache k s) as [Hr _].
  destruct (evict_entry k s) as [s1 r1]. simpl in Hr. subst r1. apply IH.
Qed.

Lemma evict_keys_lookup keys s k :
  _model_cache (evict_keys keys s).1 !! k
  = if bool_decide (k ∈ keys) then None else _model_cache s !! k.
Proof.
  revert s. induction keys as [|k0 r IH]; intros s.
  { rewrite bool_decide_eq_false_2 by apply not_elem_of_nil. done. }
  cbn [evict_keys]. unfold mbind, M_bind.
  destruct (evict_entry_cache k0 s) as [Hr Hc].
  destruct (evict_entry k0 s) as [s1 r1]. simpl in Hr, Hc. subst r1.
  rewrite IH, Hc.
  destruct (decide (k = k0)) as [->|Hne].
  - rewrite (bool_decide_eq_true_2 (k0 ∈ k0 :: r)) by left.
    rewrite lookup_delete_eq. by case_bool_decide.
  - rewrite lookup_delete_ne by done.
    case_bool_decide as H1; case_bool_decide as H2; try done.
    + exfalso. apply H2. by right.
    + exfalso. apply elem_of_cons in H2 as [?|?]; done.
Qed.

Lemma cache_keys_elem s k :
  k ∈ (map_to_list (_model_cache s)).*1 <-> is_Some (_model_cache s !! k).
Proof.
  rewrite list_elem_of_fmap. split.
  - intros [[k' v] [-> Hin]]. apply elem_of_map_to_list in Hin. eauto.
  - intros [v Hv]. exists (k, v). split; [done|].
    by apply elem_of_map_to_list.
Qed.

Lemma cleanup_models_spec s :
  exists s', HiDreamSampler.cleanup_models s = (s', Ok true)
             /\ _model_cache s' = ∅.
Proof.
  unfold HiDreamSampler.cleanup_models, cache_keys, mbind, M_bind, mret, M_ret.
  pose proof (evict_keys_ok (map_to_list (_model_cache s)).*1 s) as Hok.
  pose proof (evict_keys_lookup (map_to_list (_model_cache s)).*1 s) as Hl.
  destruct (evict_keys _ s) as [s' r]. simpl in Hok, Hl. subst r.
  exists s'. split; [done|].
  apply map_eq. intros k. rewrite Hl, lookup_empty.
  case_bool_decide as Hk; [done|].
  destruct (_model_cache s !! k) eqn:E; [|done].
  exfalso. apply Hk, cache_keys_elem. eauto.
Qed.

Lemma lookup_misses_absent key s :
  _model_cache s !! key = None -> lookup_misses key s.
Proof.
  intros E. unfold lookup_misses, check_cache, load_models_cached,
    cache_contains, mbind, M_bind.
  rewrite bool_decide_eq_false_2; [done|]. rewrite E. by intros [? ?].
Qed.

(** Whatever the cleanup after the pop does, raising included, the popped
    entry stays out of the cache and the loop body ends normally. *)
Lemma pop_and_clean_removes (cleanup : option handle -> M unit) key s :
  (forall p s0, _model_cache (cleanup p s0).1 = _model_cache s0) ->
  (pop_and_clean cleanup key s).2 = Ok tt
  /\ _model_cache (pop_and_clean cleanup key s).1
     = delete key (_model_cache s).
Proof.
  intros Hc. unfold pop_and_clean, try_except, cache_pop, mbind, M_bind.
  destruct (_model_cache s !! key) as [[pipe config]|] eqn:E.
  - specialize (Hc pipe (with_cache (delete key (_model_cache s)) s)).
    destruct (cleanup pipe _) as [s1 [[]|e]]; simpl in *; done.
  - simpl. split; [done|]. symmetry. by apply delete_id.
Qed.

(** C4: [cleanup_models] returns [True] with the cache empty, so every
    lookup afterwards misses, whatever key it asks for; and the loop body
    removes its entry whatever the cleanup that follows the pop does,
    because the pop comes first. *)
Theorem cleanup_models_empties_cache (s : State) :
  exists s',
    HiDreamSampler.cleanup_models s = (s', Ok true)
    /\ HiDreamSamplerAdvanced.cleanup_models s = (s', Ok true)
    /\ HiDreamImg2Img.cleanup_models s = (s', Ok true)
    /\ _model_cache s' = ∅
    /\ (forall key, lookup_misses key s')
    /\ (forall cleanup key,
          (forall p s0, _model_cache (cleanup p s0).1 = _model_cache s0) ->
          (pop_and_clean cleanup key s).2 = Ok tt
          /\ _model_cache (pop_and_clean cleanup key s).1 !! key = None).
Proof.
  destruct (cleanup_models_spec s) as (s' & Hrun & Hempty).
  exists s'. repeat split; try done.
  - apply lookup_misses_absent. by rewrite Hempty, lookup_empty.
  - apply lookup_misses_absent. by rewrite Hempty, lookup_empty.
  - by apply pop_and_clean_removes.
  - destruct (pop_and_clean_removes cleanup key s) as [_ ->]; [done|].
    apply lookup_delete_eq.
Qed.

(** C7: registering replaces an unwrapped host handler by a wrapper that is
    marked as wrapped, that first runs [cleanup_models] (which empties the
    cache) and then calls the original handler on the resulting state,
    returning what the original returns; registering again leaves the
    wrapper in place. *)
Theorem unload_hook_wraps_once {H R} (original_unload : HostFunction H R) :
  _hidream_wrapped original_unload = false ->
  exists wrapped,
    register (Some original_unload) = Some wrapped
    /\ _hidream_wrapped wrapped = true
    /\ (forall h s, exists s',
          HiDreamSampler.cleanup_models s = (s', Ok true)
          /\ _model_cache s' = ∅
          /\ call_fn wrapped (h, s) = call_fn original_unload (h, s'))
    /\ register (register (Some original_unload)) = Some wrapped.
Proof.
  intros Hw. rewrite register_idempotent.
  exists {| call_fn := wrapped_unload original_unload;
            _hidream_wrapped := true |}.
  assert (register (Some original_unload)
          = Some {| call_fn := wrapped_unload original_unload;
                    _hidream_wrapped := true |}) as Hreg.
  { unfold register. by rewrite Hw. }
  split; [exact Hreg|]. split; [reflexivity|]. split; [|exact Hreg].
  intros h s. destruct (cleanup_models_spec s) as (s' & Hrun & Hempty).
  exists s'. split; [done|]. split; [done|].
  simpl. unfold wrapped_unload. by rewrite Hrun.
Qed.

Lemma unload_hook_wraps_once_witness :
  exists wrapped,
    register (Some plain_unload) = Some wrapped
    /\ _hidream_wrapped wrapped = true
    /\ (forall h s, exists s',
          HiDreamSampler.cleanup_models s = (s', Ok true)
          /\ _model_cache s' = ∅
          /\ call_fn wrapped (h, s) = call_fn plain_unload (h, s'))
    /\ register (register (Some plain_unload)) = Some wrapped.
Proof. apply (unload_hook_wraps_once plain_unload). reflexivity. Defined.

(** ** The two lookups *)

Lemma with_cache_id s : with_cache (_model_cache s) s = s.
Proof. destruct s; reflexivity. Qed.

Lemma load_models_cached_spec key s :
  load_models_cached key s
  = match _model_cache s !! key with
    | Some e => if loader_valid s e then (s, Ok e.1)
                else (with_cache (delete key (_model_cache s)) s, Ok None)
    | None => (s, Ok None)
    end.
Proof.
  unfold load_models_cached, cache_contains, cache_getitem, read_slot,
    cache_pop_default, loader_valid, slot_of, mbind, M_bind, mret, M_ret.
  destruct (_model_cache s !! key) as [[pipe cfg]|] eqn:E; simpl; [|done].
  rewrite E. destruct pipe as [l|]; [|done]. simpl.
  destruct (heap s !! l) as [p|]; [|done].
  simpl. by destruct (v_transformer p).
Qed.

Lemma check_cache_spec key s :
  check_cache key s
  = match _model_cache s !! key with
    | Some e => if generate_valid s e then (s, Ok e)
                else (with_cache (delete key (_model_cache s)) s,
                      Ok (None, None))
    | None => (s, Ok (None, None))
    end.
Proof.
  unfold check_cache, cache_contains, cache_getitem, hasattr, read_slot,
    cache_delitem, cache_pop, generate_valid, loader_valid, slot_of,
    mbind, M_bind, mret, M_ret.
  destruct (_model_cache s !! key) as [[pipe cfg]|] eqn:E; simpl; [|done].
  rewrite E. destruct pipe as [l|]; simpl; [|by rewrite E].
  destruct (heap s !! l) as [p|]; simpl.
  - destruct (v_transformer p), cfg; simpl; rewrite ?E; done.
  - destruct cfg; simpl; by rewrite E.
Qed.

Lemma check_cache_cases key s :
  (exists l cfg c,
      _model_cache s !! key = Some (Some l, Some cfg)
      /\ slot_of s (Some l) transformer = Obj c
      /\ check_cache key s = (s, Ok (Some l, Some cfg)))
  \/ (check_cache key s
      = (with_cache (delete key (_model_cache s)) s, Ok (None, None))).
Proof.
  rewrite check_cache_spec.
  destruct (_model_cache s !! key) as [[pipe cfg]|] eqn:E.
  - destruct (generate_valid s (pipe, cfg)) eqn:V; [|by right].
    left. unfold generate_valid, loader_valid in V. cbn [fst snd] in V.
    destruct pipe as [l|]; [|done].
    destruct cfg as [cfg|]; [|by rewrite andb_false_r in V].
    destruct (slot_of s (Some l) transformer) as [| |c] eqn:S; try done.
    by exists l, cfg, c.
  - right. rewrite delete_id by done. by rewrite with_cache_id.
Qed.

(** ** Which configurations survive the import-time filters *)

Lemma dict_get_In {V} (d : list (pystr * V)) k v :
  dict_get d k = Some v -> In (k, v) d.
Proof.
  induction d as [|[k' v'] d IH]; simpl; [done|].
  destruct (decide (k' = k)) as [->|]; [intros [= ->]; by left|].
  intros E. right. by apply IH.
Qed.

Lemma MODEL_CONFIGS_sound `{Env} m cfg :
  dict_get MODEL_CONFIGS m = Some cfg ->
  hidream_classes_loaded = true
  /\ requires_bnb cfg && negb bnb_available = false
  /\ requires_gptq_deps cfg
     && (negb optimum_available || negb gptq_support_available) = false
  /\ In m configured_names.
Proof.
  intros Hm. apply dict_get_In in Hm. unfold MODEL_CONFIGS in Hm.
  destruct hidream_classes_loaded; cbn [negb] in Hm; [|destruct Hm].
  split; [done|].
  assert (forall (f : ModelConfig -> bool) d,
             In (m, cfg) (without f d) -> f cfg = false /\ In (m, cfg) d)
    as Hw.
  { intros f d [Hin Hf]%filter_In. simpl in Hf.
    split; [by destruct (f cfg)|done]. }
  assert (In (m, cfg) ALL_MODEL_CONFIGS -> In m configured_names) as Hnames.
  { intros Hin. unfold configured_names. apply (in_map fst) in Hin. exact Hin. }
  destruct bnb_available, optimum_available, gptq_support_available;
    cbn [negb orb] in Hm |- *; rewrite ?andb_false_r, ?andb_true_r;
    repeat match goal with
           | Hx : In _ (without _ _) |- _ => apply Hw in Hx as [? Hx]
           end; auto.
Qed.

(** ** Steps that do not touch the state *)

Lemma stateless_ret {A} (a : A) : stateless (mret a).
Proof. by exists (Ok a). Qed.

Lemma stateless_raise {A} e : stateless (@raise A e).
Proof. by exists (Raise e). Qed.

Lemma stateless_of_result {A} (r : result A) : stateless (of_result r).
Proof. by exists r. Qed.

Lemma stateless_call w st : stateless (call w st).
Proof.
  unfold call. destruct (returns w st);
    [apply stateless_ret | apply stateless_raise].
Qed.

Lemma stateless_if {A} (b : bool) (m1 m2 : M A) :
  stateless m1 -> stateless m2 -> stateless (if b then m1 else m2).
Proof. by destruct b. Qed.

Lemma stateless_bind {A B} (m : M A) (f : A -> M B) :
  stateless m -> (forall a, stateless (f a)) -> stateless (m ≫= f).
Proof.
  intros [[a|e] Hm] Hf.
  - destruct (Hf a) as [r Hr]. exists r. intros s.
    unfold mbind, M_bind. by rewrite Hm, Hr.
  - exists (Raise e). intros s. unfold mbind, M_bind. by rewrite Hm.
Qed.

Lemma stateless_reraise {A} (m : M A) :
  stateless m -> stateless (try_except m (fun e => raise e)).
Proof.
  intros [r Hm]. exists r. intros s. unfold try_except. rewrite Hm.
  by destruct r.
Qed.

Lemma stateless_get_scheduler_instance `{Env} w st name sh :
  stateless (get_scheduler_instance w st name sh).
Proof.
  unfold get_scheduler_instance. destruct available_schedulers.
  { apply stateless_raise. }
  apply stateless_if; [|apply stateless_raise].
  apply stateless_bind; [apply stateless_call|intros; apply stateless_ret].
Qed.

Lemma stateless_make_scheduler `{Env} w cls sh k e :
  stateless (make_scheduler w cls sh k e).
Proof.
  unfold make_scheduler.
  apply stateless_bind;
    [apply stateless_if; [apply stateless_ret|apply stateless_raise]|].
  intros _. apply stateless_bind; [apply stateless_call|].
  intros; apply stateless_ret.
Qed.

Ltac stateless_tac :=
  repeat first
    [ apply stateless_ret
    | apply stateless_of_result
    | apply stateless_raise
    | apply stateless_call
    | apply stateless_get_scheduler_instance
    | apply stateless_reraise
    | apply stateless_if
    | apply stateless_bind; [|intros ?] ].

Lemma stateless_keeps_cache {A} (m : M A) : stateless m -> keeps_cache m.
Proof. intros [r Hm] s. by rewrite Hm. Qed.

Lemma load_outcome_after_stateless {A} Good (m : M A) (f : A -> M handle) :
  stateless m -> (forall a, load_outcome Good (f a)) ->
  load_outcome Good (m ≫= f).
Proof.
  intros [[a|e] Hm] Hf s; unfold mbind, M_bind; rewrite Hm.
  - apply Hf.
  - left. by exists e.
Qed.

Lemma load_models_fresh_outcome `{Env} w m a config :
  load_outcome fresh_pipe (load_models_fresh w m a config).
Proof.
  unfold load_models_fresh. cbv zeta.
  repeat (apply load_outcome_after_stateless; [by stateless_tac|intros ?]).
  intros s. right. eexists. split.
  - unfold new_pipe, setattr, mbind, M_bind, mret, M_ret. simpl.
    rewrite lookup_app_r by lia. rewrite Nat.sub_diag. simpl.
    rewrite insert_app_r_alt by lia. rewrite Nat.sub_diag. simpl.
    reflexivity.
  - split; [done|]. intros []; simpl; eauto.
Qed.

Lemma load_models_ends_spec `{Env} w m a s :
  load_models_ends m a s (load_models w m a s).
Proof.
  unfold load_models.
  destruct (dict_get MODEL_CONFIGS m) as [cfg|] eqn:Hm.
  2:{ destruct (negb hidream_classes_loaded); by apply lm_rejected. }
  destruct (MODEL_CONFIGS_sound _ _ Hm) as (-> & -> & -> & _).
  cbn [negb]. unfold mbind at 1, M_bind at 1.
  rewrite load_models_cached_spec.
  destruct (_model_cache s !! cache_key m a) as [[pipe c]|] eqn:E.
  - destruct (loader_valid s (pipe, c)) eqn:V.
    + destruct pipe as [l|]; [|done]. simpl. by eapply lm_cached.
    + set (s1 := with_cache _ s).
      assert (forall v, _model_cache s !! cache_key m a = Some v ->
                        loader_valid s v = false) as Hv
          by (intros v Ev; congruence).
      unfold mbind, M_bind.
      destruct (load_models_fresh_outcome w m a cfg s1)
        as [[e ->]|(p & -> & Hp)].
      * by eapply lm_load_failed.
      * change (heap s1) with (heap s). by eapply lm_loaded.
  - assert (s = with_cache (delete (cache_key m a) (_model_cache s)) s)
      as Hs by (rewrite delete_id by done; by rewrite with_cache_id).
    assert (forall v, _model_cache s !! cache_key m a = Some v ->
                      loader_valid s v = false) as Hv
        by (intros v Ev; congruence).
    unfold mbind, M_bind.
    destruct (load_models_fresh_outcome w m a cfg s)
      as [[e ->]|(p & -> & Hp)].
    + pose proof (lm_load_failed m a s cfg e Hm Hv) as X.
      by rewrite <- Hs in X.
    + pose proof (lm_loaded m a s cfg p Hm Hv Hp) as X.
      by rewrite <- Hs in X.
Qed.

(** ** Steps that leave the cache mapping alone *)

Lemma keeps_cache_bind {A B} (m : M A) (f : A -> M B) :
  keeps_cache m -> (forall a, keeps_cache (f a)) -> keeps_cache (m ≫= f).
Proof.
  intros Hm Hf s. unfold mbind, M_bind. specialize (Hm s).
  destruct (m s) as [s1 [a|e]]; simpl in *; [|done].
  by rewrite Hf.
Qed.

Lemma keeps_cache_try_except {A} (m : M A) (h : exn -> M A) :
  keeps_cache m -> (forall e, keeps_cache (h e)) ->
  keeps_cache (try_except m h).
Proof.
  intros Hm Hh s. unfold try_except. specialize (Hm s).
  destruct (m s) as [s1 [a|e]]; simpl in *; [done|].
  by rewrite Hh.
Qed.

Lemma keeps_cache_setattr pipe a v : keeps_cache (setattr pipe a v).
Proof.
  intros s. unfold setattr. destruct pipe as [l|]; [|done].
  by destruct (heap s !! l).
Qed.

Lemma keeps_cache_if {A} (b : bool) (m1 m2 : M A) :
  keeps_cache m1 -> keeps_cache m2 -> keeps_cache (if b then m1 else m2).
Proof. by destruct b. Qed.

Lemma keeps_cache_update_scheduler `{Env} w pipe choice cls sh :
  keeps_cache (update_scheduler w pipe choice cls sh).
Proof.
  unfold update_scheduler.
  repeat first
    [ apply keeps_cache_setattr
    | apply stateless_keeps_cache, stateless_make_scheduler
    | apply stateless_keeps_cache, stateless_get_scheduler_instance
    | apply stateless_keeps_cache, stateless_ret
    | apply stateless_keeps_cache, stateless_of_result
    | apply keeps_cache_if
    | apply keeps_cache_bind; [|intros ?] ].
Qed.

Lemma stateless_try_except {A} (m : M A) (h : exn -> M A) :
  stateless m -> (forall e, stateless (h e)) -> stateless (try_except m h).
Proof.
  intros [[a|e] Hm] Hh.
  - exists (Ok a). intros s. unfold try_except. by rewrite Hm.
  - destruct (Hh e) as [r Hr]. exists r. intros s.
    unfold try_except. by rewrite Hm, Hr.
Qed.

Lemma stateless_try_finally {A} (m : M A) (c : M unit) :
  stateless m -> stateless c -> stateless (try_finally m c).
Proof.
  intros [r Hm] [[[]|e] Hc].
  - exists r. intros s. unfold try_finally. by rewrite Hm, Hc.
  - exists (Raise e). intros s. unfold try_finally. by rewrite Hm, Hc.
Qed.

Lemma stateless_torch_zeros shape : stateless (torch_zeros shape).
Proof.
  unfold torch_zeros. apply stateless_if;
    [apply stateless_ret|apply stateless_raise].
Qed.

Lemma stateless_run_pipeline w h wd : stateless (run_pipeline w h wd).
Proof.
  unfold run_pipeline. cbv zeta. apply stateless_bind.
  { apply stateless_try_finally; [|apply stateless_call].
    apply stateless_try_except; intros; stateless_tac. }
  intros [|]; [apply stateless_ret|].
  repeat match goal with
         | |- stateless (match ?x with _ => _ end) => destruct x
         end; first [apply stateless_ret|apply stateless_torch_zeros].
Qed.

(** The part of every [generate] after the pipeline is in hand. *)
Lemma keeps_cache_generation `{Env} w pipe choice cls sh h wd :
  keeps_cache (update_scheduler w pipe choice cls sh ;;
               call w generator_setup ;;
               run_pipeline w h wd).
Proof.
  apply keeps_cache_bind; [apply keeps_cache_update_scheduler|intros _].
  apply keeps_cache_bind; intros;
    apply stateless_keeps_cache;
    [apply stateless_call|apply stateless_run_pipeline].
Qed.

(** ** What eviction does to the evicted objects *)

Lemma null_attr_lookup_same a l h :
  null_attr a (Some l) h !! l
  = (fun p => set_slot a (nulled_slot (get_slot a p)) p) <$> h !! l.
Proof.
  unfold null_attr. destruct (h !! l) as [p|] eqn:E; simpl.
  - apply list_lookup_insert_eq. by eapply lookup_lt_Some.
  - done.
Qed.

Lemma null_attr_lookup_other a pipe h l :
  pipe <> Some l -> null_attr a pipe h !! l = h !! l.
Proof.
  intros Hne. unfold null_attr. destruct pipe as [l'|]; [|done].
  destruct (h !! l'); [|done].
  apply list_lookup_insert_ne. congruence.
Qed.

Lemma released_null_attr a pipe h l :
  released h l -> released (null_attr a pipe h) l.
Proof.
  intros Hr p Hp. destruct (decide (pipe = Some l)) as [->|Hne].
  - rewrite null_attr_lookup_same in Hp.
    destruct (h !! l) as [p0|] eqn:E; [|done]. injection Hp as <-.
    intros a' c. specialize (Hr p0 E a' c).
    destruct p0, a, a'; simpl in *; try done;
      match goal with |- nulled_slot ?v <> _ => by destruct v end.
  - rewrite null_attr_lookup_other in Hp by done. by apply Hr.
Qed.

Lemma released_null_all pipe h l : released h l -> released (null_all pipe h) l.
Proof. intros Hr. unfold null_all. by repeat apply released_null_attr. Qed.

Lemma null_all_released l h : released (null_all (Some l) h) l.
Proof.
  intros p Hp. unfold null_all in Hp.
  rewrite !null_attr_lookup_same in Hp.
  destruct (h !! l) as [p0|]; [|done]. injection Hp as <-.
  intros a c. destruct p0 as [k t e o sc]. 
  destruct a; simpl; [by destruct t|by destruct e|by destruct o|by destruct sc].
Qed.

Lemma evict_entry_released key s l :
  let s' := (evict_entry key s).1 in
  (released (heap s) l -> released (heap s') l)
  /\ (forall c, _model_cache s !! key = Some (Some l, c) ->
                released (heap s') l).
Proof.
  destruct (_model_cache s !! key) as [[pipe config]|] eqn:E.
  - rewrite (evict_entry_present _ _ _ _ E). simpl. split.
    + apply released_null_all.
    + intros c [= -> ->]. apply null_all_released.
  - rewrite (evict_entry_absent _ _ E). simpl. split; [done|]. by intros.
Qed.

Lemma evict_keys_released keys s l :
  let s' := (evict_keys keys s).1 in
  (released (heap s) l -> released (heap s') l)
  /\ (forall k c, k ∈ keys -> _model_cache s !! k = Some (Some l, c) ->
                  released (heap s') l).
Proof.
  revert s. induction keys as [|k0 r IH]; intros s; simpl.
  { split; [done|]. intros k c Hk. by apply not_elem_of_nil in Hk. }
  unfold mbind, M_bind.
  destruct (evict_entry_cache k0 s) as [Hr Hc].
  destruct (evict_entry_released k0 s l) as [Hkeep Hnow].
  destruct (evict_entry k0 s) as [s1 r1]. simpl in Hr, Hc, Hkeep, Hnow.
  subst r1. destruct (IH s1) as [IHkeep IHkeys]. split.
  - intros Hl. by apply IHkeep, Hkeep.
  - intros k c Hk Hlook. destruct (decide (k = k0)) as [->|Hne].
    + eapply IHkeep, Hnow, Hlook.
    + apply elem_of_cons in Hk as [?|Hk]; [done|].
      eapply IHkeys; [exact Hk|]. rewrite Hc, lookup_delete_ne by done.
      exact Hlook.
Qed.

Lemma clear_all_cache_spec s :
  exists s2,
    clear_all_cache s = (s2, Ok tt)
    /\ _model_cache s2 = ∅
    /\ (forall k l c, _model_cache s !! k = Some (Some l, c) ->
                      released (heap s2) l).
Proof.
  unfold clear_all_cache, cache_nonempty, cache_keys, mbind, M_bind.
  case_bool_decide as Hempty; simpl.
  - exists s. split; [done|]. split; [done|].
    intros k l c Hk. by rewrite Hempty, lookup_empty in Hk.
  - pose proof (evict_keys_ok (map_to_list (_model_cache s)).*1 s) as Hok.
    pose proof (evict_keys_lookup (map_to_list (_model_cache s)).*1 s) as Hl.
    pose proof (evict_keys_released (map_to_list (_model_cache s)).*1 s)
      as Hrel.
    destruct (evict_keys _ s) as [s2 r]. simpl in Hok, Hl, Hrel. subst r.
    exists s2. split; [done|]. split.
    + apply map_eq. intros k. rewrite Hl, lookup_empty.
      case_bool_decide as Hk; [done|].
      destruct (_model_cache s !! k) eqn:E; [|done].
      exfalso. apply Hk, cache_keys_elem. eauto.
    + intros k l c Hk. eapply (proj2 (Hrel l)); [|exact Hk].
      apply cache_keys_elem. eauto.
Qed.

(** ** Loading into an emptied cache *)

Lemma load_models_no_entry `{Env} w m a s :
  _model_cache s !! cache_key m a = None ->
  (exists e, load_models w m a s = (s, Raise e))
  \/ (exists p cfg,
        fresh_pipe p /\ dict_get MODEL_CONFIGS m = Some cfg
        /\ load_models w m a s
           = (with_heap (heap s ++ [p]) s, Ok (length (heap s), cfg))).
Proof.
  intros Hk.
  assert (with_cache (delete (cache_key m a) (_model_cache s)) s = s) as Hs
      by (rewrite delete_id by done; apply with_cache_id).
  pose proof (load_models_ends_spec w m a s) as Hends.
  destruct (load_models w m a s) as [s' r].
  inversion Hends; subst.
  - left. by eexists.
  - congruence.
  - left. rewrite Hs. by eexists.
  - right. rewrite Hs. eauto.
Qed.

Lemma fresh_pipe_valid s p c :
  fresh_pipe p ->
  loader_valid (with_heap (heap s ++ [p]) s) (Some (length (heap s)), c)
  = true.
Proof.
  intros [_ Hp]. destruct (Hp transformer) as [t Ht].
  unfold loader_valid, slot_of. cbn [fst with_heap heap].
  rewrite lookup_app_r by lia. rewrite Nat.sub_diag. cbn [lookup list_lookup].
  by rewrite Ht.
Qed.

Lemma load_and_cache_spec `{Env} w m a key s :
  exists s2,
    clear_all_cache s = (s2, Ok tt)
    /\ _model_cache s2 = ∅
    /\ ((exists e, load_models w m a s2 = (s2, Raise e)
                   /\ HiDreamSampler.load_and_cache w m a key s
                      = (s2, Ok None))
        \/ (exists p cfg,
              fresh_pipe p /\ dict_get MODEL_CONFIGS m = Some cfg
              /\ HiDreamSampler.load_and_cache w m a key s
                 = ({| _model_cache :=
                         {[key := (Some (length (heap s2)), Some cfg)]};
                       heap := heap s2 ++ [p] |},
                    Ok (Some (Some (length (heap s2)), Some cfg))))).
Proof.
  destruct (clear_all_cache_spec s) as (s2 & Hclear & Hempty & _).
  exists s2. split; [done|]. split; [done|].
  unfold HiDreamSampler.load_and_cache, try_except, mbind, M_bind.
  rewrite Hclear.
  destruct (load_models_no_entry w m a s2) as [[e He]|(p & cfg & Hp & Hm & Hl)].
  { by rewrite Hempty, lookup_empty. }
  - left. exists e. split; [done|]. by rewrite He.
  - right. exists p, cfg. split; [done|]. split; [done|].
    rewrite Hl. unfold cache_setitem, mret, M_ret.
    cbn [with_heap with_cache _model_cache heap]. rewrite Hempty.
    reflexivity.
Qed.

Lemma sampler_put_outcome `{Env} w m a key s :
  put_outcome m key (HiDreamSampler.load_and_cache w m a key s).
Proof.
  destruct (load_and_cache_spec w m a key s)
    as (s2 & _ & Hempty & [(e & _ & ->)|(p & cfg & Hp & Hm & ->)]).
  - by apply put_failed.
  - apply put_done; [done| |done].
    apply (fresh_pipe_valid s2 p (Some cfg) Hp).
Qed.

Lemma advanced_put_outcome `{Env} w m a key s :
  put_outcome m key (HiDreamSamplerAdvanced.load_and_cache w m a key s).
Proof. exact (sampler_put_outcome w m a key s). Qed.

(** ** Stepping through a sequence *)

Lemma bind_ok {A B} (m : M A) (f : A -> M B) s s1 a :
  m s = (s1, Ok a) -> (m ≫= f) s = f a s1.
Proof. intros E. unfold mbind, M_bind. by rewrite E. Qed.

Lemma bind_raise {A B} (m : M A) (f : A -> M B) s s1 e :
  m s = (s1, Raise e) -> (m ≫= f) s = (s1, Raise e).
Proof. intros E. unfold mbind, M_bind. by rewrite E. Qed.

Lemma call_bind {B} w st (k : unit -> M B) s :
  (call w st ≫= k) s
  = if returns w st then k tt s else (s, Raise (LibraryError st)).
Proof. unfold call, mbind, M_bind. by destruct (returns w st). Qed.

Lemma ret_bind {A B} (a : A) (k : A -> M B) s : (mret a ≫= k) s = k a s.
Proof. reflexivity. Qed.

Lemma bind_assoc {A B C} (m : M A) (f : A -> M B) (g : B -> M C) s :
  ((m ≫= f) ≫= g) s = (m ≫= fun a => f a ≫= g) s.
Proof. unfold mbind, M_bind. by destruct (m s) as [s' [a|e]]. Qed.

Lemma of_result_ok {A B} (a : A) (k : A -> M B) s :
  (of_result (Ok a) ≫= k) s = k a s.
Proof. reflexivity. Qed.

Lemma of_result_raise {A B} e (k : A -> M B) s :
  (of_result (Raise e) ≫= k) s = (s, Raise e).
Proof. reflexivity. Qed.

Lemma print_bind {B} (x : pystr) (k : unit -> M B) s :
  (of_result (py_print x) ≫= k) s
  = if printable x then k tt s else (s, Raise UnicodeEncodeError).
Proof. unfold py_print. by destruct (printable x). Qed.

Lemma getattr_obj l a s p c :
  heap s !! l = Some p -> get_slot a p = Obj c ->
  getattr (Some l) a s = (s, Ok (Obj c)).
Proof.
  intros Hl Ha. unfold getattr, read_slot, mbind, M_bind.
  by rewrite Hl, Ha.
Qed.

Lemma setattr_ok l a v s p :
  heap s !! l = Some p ->
  setattr (Some l) a v s
  = (with_heap (<[l := set_slot a v p]> (heap s)) s, Ok tt).
Proof. intros Hl. unfold setattr. by rewrite Hl. Qed.

Lemma convert_spec w s p :
  fresh_pipe p ->
  let s3 := with_heap (heap s ++ [p]) s in
  let l := length (heap s) in
  (exists e, HiDreamImg2Img.convert w l s3 = (s3, Raise e))
  \/ (exists p',
        HiDreamImg2Img.convert w l s3
        = (with_heap (heap s ++ [p; p']) s, Ok (S l))
        /\ exists c, v_transformer p' = Obj c).
Proof.
  intros [_ Hp] s3 l.
  assert (heap s3 !! l = Some p) as Hl.
  { subst s3 l. cbn [with_heap heap]. by apply list_lookup_middle. }
  destruct (Hp scheduler) as [sc Hsc], (Hp text_encoder_4) as [te Hte],
    (Hp tokenizer_4) as [tk Htk], (Hp transformer) as [tr Htr].
  unfold HiDreamImg2Img.convert.
  rewrite (bind_ok _ _ _ _ _ (getattr_obj _ _ _ _ _ Hl Hsc)).
  rewrite (bind_ok _ _ _ _ _ (getattr_obj _ _ _ _ _ Hl Hte)).
  rewrite (bind_ok _ _ _ _ _ (getattr_obj _ _ _ _ _ Hl Htk)).
  unfold call. destruct (returns w HiDreamImageToImagePipeline_init).
  2:{ left. eexists. reflexivity. }
  right. eexists. split.
  - rewrite (bind_ok _ _ s3 s3 tt) by reflexivity.
    erewrite bind_ok by reflexivity.
    assert (forall q, heap (with_heap (heap s3 ++ [q]) s3) !! l = Some p)
      as Hl2.
    { intros q. cbn [with_heap heap]. rewrite lookup_app_l; [done|].
      by eapply lookup_lt_Some. }
    rewrite (bind_ok _ _ _ _ _ (getattr_obj _ _ _ _ _ (Hl2 _) Htr)).
    erewrite bind_ok.
    2:{ apply setattr_ok. cbn [with_heap heap].
        apply list_lookup_middle. reflexivity. }
    unfold mret, M_ret. subst s3 l. cbn [with_heap heap _model_cache].
    rewrite length_app. cbn [length]. f_equal; [|f_equal; lia].
    unfold with_heap. cbn [_model_cache]. f_equal.
    rewrite insert_app_r_alt by (rewrite length_app; simpl; lia).
    rewrite length_app. cbn [length].
    replace (length (heap s) + 1 - (length (heap s) + 1))%nat with 0%nat
      by lia.
    cbn [insert list_insert]. by rewrite <- app_assoc.
  - simpl. eauto.
Qed.

Lemma img2img_put_outcome `{Env} w m a key s :
  put_outcome m key (HiDreamImg2Img.load_and_cache w m a key s).
Proof.
  destruct (clear_all_cache_spec s) as (s2 & Hclear & Hempty & _).
  unfold HiDreamImg2Img.load_and_cache.
  rewrite (bind_ok _ _ _ _ _ Hclear). unfold try_except.
  destruct (load_models_no_entry w m a s2) as [[e He]|(p & cfg & Hp & Hm & Hl)].
  { by rewrite Hempty, lookup_empty. }
  { rewrite (bind_raise _ _ _ _ _ He). by apply put_failed. }
  rewrite (bind_ok _ _ _ _ _ Hl).
  destruct (convert_spec w s2 p Hp) as [[e He]|(p' & Hc & t & Ht)].
  { rewrite (bind_raise _ _ _ _ _ He). by apply put_failed. }
  rewrite (bind_ok _ _ _ _ _ Hc).
  unfold cache_setitem, mbind, M_bind, mret, M_ret.
  cbn [with_heap with_cache _model_cache heap]. rewrite Hempty.
  apply put_done; [done| |done].
  unfold loader_valid, slot_of. cbn [fst heap with_cache with_heap].
  replace (heap s2 ++ [p; p']) with ((heap s2 ++ [p]) ++ [p'])
    by (by rewrite <- app_assoc).
  rewrite lookup_app_r by (rewrite length_app; simpl; lia).
  rewrite length_app. cbn [length].
  replace (S (length (heap s2)) - (length (heap s2) + 1))%nat with 0%nat
    by lia.
  cbn [lookup list_lookup get_slot]. by rewrite Ht.
Qed.

(** ** The shared shape of [generate] *)

Lemma acquire_then_hit `{Env} key lac continue s l cfg :
  _model_cache s !! key = Some (Some l, Some cfg) ->
  loader_valid s (Some l, Some cfg) = true ->
  acquire_then key lac continue s = continue l cfg s.
Proof.
  intros Hk Hv. unfold acquire_then.
  erewrite bind_ok.
  2:{ rewrite check_cache_spec, Hk. unfold generate_valid. rewrite Hv.
      reflexivity. }
  cbn [is_None]. by erewrite bind_ok by reflexivity.
Qed.

Lemma acquire_then_miss `{Env} m key lac continue s s1 :
  check_cache key s = (s1, Ok (None, None)) ->
  (exists e, lac s1 = (s1, Raise e)) \/ put_outcome m key (lac s1) ->
  (forall l cfg s',
      _model_cache s' !! key = Some (Some l, Some cfg) ->
      loader_valid s' (Some l, Some cfg) = true ->
      _model_cache (continue l cfg s').1 = _model_cache s') ->
  let out := acquire_then key lac continue s in
  (exists e, out = (s1, Raise e))
  \/ (_model_cache out.1 = ∅ /\ out.2 = Ok blank_512)
  \/ (exists l cfg,
        _model_cache out.1 = {[key := (Some l, Some cfg)]}
        /\ dict_get MODEL_CONFIGS m = Some cfg).
Proof.
  intros Hcheck Hput Hcont out. subst out. unfold acquire_then.
  rewrite (bind_ok _ _ _ _ _ Hcheck). cbn [is_None].
  destruct Hput as [[e Elac]|Hput].
  { left. exists e. by rewrite (bind_raise _ _ _ _ _ Elac). }
  right.
  destruct (lac s1) as [s' r] eqn:Elac.
  inversion Hput as [s'' Hempty|s'' l cfg Hsingle Hvalid Hcfg]; subst.
  - left. rewrite (bind_ok _ _ _ _ _ Elac). done.
  - right. rewrite (bind_ok _ _ _ _ _ Elac). exists l, cfg.
    split; [|done]. rewrite Hcont; [done| |done].
    rewrite Hsingle. apply lookup_singleton_eq.
Qed.

Lemma sampler_continue_keeps_cache `{Env} w m a choice h wd l cfg s :
  _model_cache s !! cache_key m a = Some (Some l, Some cfg) ->
  loader_valid s (Some l, Some cfg) = true ->
  _model_cache
    (('(txt2img_pipe, model_config) ← load_models w m a;
      update_scheduler w l choice (scheduler_class model_config)
                       (shift cfg) ;;
      call w generator_setup ;;
      run_pipeline w h wd) s).1
  = _model_cache s.
Proof.
  intros Hk Hv.
  pose proof (load_models_ends_spec w m a s) as Hends.
  destruct (load_models w m a s) as [s' r] eqn:E.
  inversion Hends as [e Hm|l' c cfg' Hm Hk' Hv'|cfg' e Hm Hinv|cfg' p Hm Hinv Hp];
    subst.
  - by rewrite (bind_raise _ _ _ _ _ E).
  - rewrite (bind_ok _ _ _ _ _ E). apply keeps_cache_generation.
  - rewrite (Hinv _ Hk) in Hv. discriminate.
  - rewrite (Hinv _ Hk) in Hv. discriminate.
Qed.

Lemma check_cache_cached key s l cfg :
  _model_cache s !! key = Some (Some l, Some cfg) ->
  loader_valid s (Some l, Some cfg) = true ->
  check_cache key s = (s, Ok (Some l, Some cfg)).
Proof.
  intros Hk Hv. rewrite check_cache_spec, Hk. unfold generate_valid.
  by rewrite Hv.
Qed.

Lemma check_cache_not_cached key s :
  ~ cached key s ->
  check_cache key s
  = (with_cache (delete key (_model_cache s)) s, Ok (None, None)).
Proof.
  intros Hn. destruct (check_cache_cases key s)
    as [(l & cfg & c & Hk & Hs & _)|Hmiss]; [|done].
  exfalso. apply Hn. exists l, cfg. split; [done|].
  unfold loader_valid. cbn [fst]. by rewrite Hs.
Qed.

(** One call of [generate], by what it does to the cache: nothing at all,
    a hit that leaves the mapping as it was, or a miss that stops at the
    print of [model_type] with the key dropped, or ends with the mapping
    empty (and the blank image) or holding only the new entry. *)
Lemma acquire_then_cases `{Env} m key lac continue s :
  (forall s1, (exists e, lac s1 = (s1, Raise e))
              \/ put_outcome m key (lac s1)) ->
  (forall l cfg s',
      _model_cache s' !! key = Some (Some l, Some cfg) ->
      loader_valid s' (Some l, Some cfg) = true ->
      _model_cache (continue l cfg s').1 = _model_cache s') ->
  let out := acquire_then key lac continue s in
  (cached key s /\ _model_cache out.1 = _model_cache s)
  \/ (~ cached key s
      /\ ((_model_cache out.1 = delete key (_model_cache s)
           /\ exists e, out.2 = Raise e)
          \/ (_model_cache out.1 = ∅ /\ out.2 = Ok blank_512)
          \/ (exists l cfg,
                _model_cache out.1 = {[key := (Some l, Some cfg)]}
                /\ dict_get MODEL_CONFIGS m = Some cfg))).
Proof.
  intros Hput Hcont out.
  destruct (_model_cache s !! key) as [[[l|] [cfg|]]|] eqn:Hk;
    try (destruct (loader_valid s (Some l, Some cfg)) eqn:Hv);
    [left; split;
       [by exists l, cfg
       |subst out; rewrite (acquire_then_hit _ _ _ _ _ _ Hk Hv);
        by apply Hcont]
    |right..];
    (assert (~ cached key s) as Hn
       by (intros (l' & cfg' & Hk' & Hv'); congruence));
    (split; [done|]);
    (destruct (acquire_then_miss m key lac continue s _
                 (check_cache_not_cached key s Hn) (Hput _) Hcont)
       as [[e He]|Hrest];
     [left; subst out; rewrite He; split; [done|by exists e]
     |by right]).
Qed.

Lemma print_then_put_outcome `{Env} m key x (lac : M (option entry)) :
  (forall s, put_outcome m key (lac s)) ->
  forall s1, (exists e, (of_result (py_print x) ;; lac) s1 = (s1, Raise e))
             \/ put_outcome m key ((of_result (py_print x) ;; lac) s1).
Proof.
  intros Hput s1. rewrite print_bind. destruct (printable x).
  - right. apply Hput.
  - left. by eexists.
Qed.

Lemma sampler_generate_eq `{PyRuntime} `{Env} w m ar sch a :
  HiDreamSampler.generate w m ar sch a
  = ('(width, height) ← of_result (HiDreamSampler.parse_aspect_ratio ar);
     of_result (py_print ar) ;;
     if no_models m then mret blank_512
     else acquire_then (cache_key m a)
            (of_result (py_print m) ;;
             HiDreamSampler.load_and_cache w m a (cache_key m a))
            (fun pipe config =>
               '(txt2img_pipe, model_config) ← load_models w m a;
               update_scheduler w pipe sch (scheduler_class model_config)
                                (shift config) ;;
               call w generator_setup ;;
               run_pipeline w (height / 64 * 64) (width / 64 * 64))).
Proof. reflexivity. Qed.

Lemma advanced_generate_eq `{PyRuntime} `{Env} w m ar sch a sq cw ch :
  HiDreamSamplerAdvanced.generate w m ar sch a sq cw ch
  = ('(width, height) ←
       (if contains (U "Square Reso") ar then mret (sq, sq)
        else if bool_decide (ar = U "Custom") then mret (cw, ch)
        else dims ← of_result (HiDreamSamplerAdvanced.parse_dimensions ar);
             of_result (py_print ar) ;;
             mret dims);
     if no_models m then mret blank_512
     else acquire_then (cache_key m a)
            (of_result (py_print m) ;;
             HiDreamSamplerAdvanced.load_and_cache w m a (cache_key m a))
            (fun pipe config =>
               update_scheduler w pipe sch (scheduler_class config)
                                (shift config) ;;
               call w generator_setup ;;
               run_pipeline w (height / 64 * 64 / 64 * 64)
                            (width / 64 * 64 / 64 * 64))).
Proof. reflexivity. Qed.

Lemma img2img_generate_eq `{Env} w m sch a ih iw :
  HiDreamImg2Img.generate w m sch a ih iw
  = (call w preprocess_image_ops ;;
     if no_models m then mret blank_512
     else acquire_then (HiDreamImg2Img.cache_key m a)
            (of_result (py_print m) ;;
             HiDreamImg2Img.load_and_cache w m a
               (HiDreamImg2Img.cache_key m a))
            (fun pipe config =>
               update_scheduler w pipe sch (scheduler_class config)
                                (shift config) ;;
               call w generator_setup ;;
               run_pipeline w ih iw)).
Proof. reflexivity. Qed.

(** The steps of [HiDreamSamplerAdvanced.generate] that fix the size. *)
Lemma advanced_dimensions_cases `{PyRuntime} ar sq cw ch s :
  let dims : M (Z * Z) :=
    if contains (U "Square Reso") ar then mret (sq, sq)
    else if bool_decide (ar = U "Custom") then mret (cw, ch)
    else dims ← of_result (HiDreamSamplerAdvanced.parse_dimensions ar);
         of_result (py_print ar) ;;
         mret dims in
  (exists d, dims s = (s, Ok d)) \/ (exists e, dims s = (s, Raise e)).
Proof.
  cbv zeta. destruct (contains _ ar); [left; by eexists|].
  destruct (bool_decide _); [left; by eexists|].
  destruct (HiDreamSamplerAdvanced.parse_dimensions ar) as [d|e].
  - rewrite of_result_ok, print_bind.
    destruct (printable ar); [left|right]; by eexists.
  - right. by eexists.
Qed.

Lemma advanced_dimensions_spec `{PyRuntime} ar sq cw ch s :
  (if contains (U "Square Reso") ar then mret (sq, sq)
   else if bool_decide (ar = U "Custom") then mret (cw, ch)
   else dims ← of_result (HiDreamSamplerAdvanced.parse_dimensions ar);
        of_result (py_print ar) ;;
        mret dims) s
  = (s, if contains (U "Square Reso") ar then Ok (sq, sq)
        else if bool_decide (ar = U "Custom") then Ok (cw, ch)
        else if printable ar
        then Ok (parsed (HiDreamSamplerAdvanced.parse_dimensions ar))
        else Raise UnicodeEncodeError).
Proof.
  destruct (contains _ ar); [done|].
  destruct (bool_decide _); [done|].
  unfold HiDreamSamplerAdvanced.parse_dimensions, py_print.
  destruct (HiDreamSamplerAdvanced.parse_dimensions_try ar) as [d|e];
    by destruct (printable ar).
Qed.

Lemma run_generate_cases `{PyRuntime} `{Env} w r s :
  let out := run_generate w r s in
  let key := request_key r in
  out.1 = s
  \/ (cached key s /\ _model_cache out.1 = _model_cache s)
  \/ (~ cached key s
      /\ ((_model_cache out.1 = delete key (_model_cache s)
           /\ exists e, out.2 = Raise e)
          \/ (_model_cache out.1 = ∅ /\ out.2 = Ok blank_512)
          \/ (exists l cfg,
                _model_cache out.1 = {[key := (Some l, Some cfg)]}
                /\ dict_get MODEL_CONFIGS (model_type r) = Some cfg))).
Proof.
  destruct r as [n m a ar sch sq cw ch ih iw].
  unfold run_generate, request_key. cbn [node_of model_type
    use_alternate_llm aspect_ratio scheduler_choice square_resolution
    custom_width custom_height image_h image_w].
  destruct n.
  - rewrite sampler_generate_eq.
    destruct (HiDreamSampler.parse_aspect_ratio ar) as [[w0 h0]|e];
      [|by left].
    rewrite of_result_ok, print_bind.
    destruct (printable ar); [|by left].
    destruct (no_models m); [by left|]. right.
    apply acquire_then_cases.
    + apply print_then_put_outcome. intros s1. apply sampler_put_outcome.
    + intros l cfg s' Hk Hv. by apply sampler_continue_keeps_cache.
  - rewrite advanced_generate_eq.
    destruct (advanced_dimensions_cases ar sq cw ch s)
      as [[[w0 h0] Hd]|[e Hd]].
    2:{ left. by rewrite (bind_raise _ _ _ _ _ Hd). }
    rewrite (bind_ok _ _ _ _ _ Hd).
    destruct (no_models m); [by left|]. right.
    apply acquire_then_cases.
    + apply print_then_put_outcome. intros s1. apply advanced_put_outcome.
    + intros l cfg s' _ _. apply keeps_cache_generation.
  - rewrite img2img_generate_eq. unfold call.
    destruct (returns w preprocess_image_ops); [|by left].
    rewrite (bind_ok _ _ s s tt) by reflexivity.
    destruct (no_models m); [by left|]. right.
    apply acquire_then_cases.
    + apply print_then_put_outcome. intros s1. apply img2img_put_outcome.
    + intros l cfg s' _ _. apply keeps_cache_generation.
Qed.

(** ** Single-slot eviction *)

Lemma cache_key_cross_configured m1 a1 m2 a2 :
  In m1 configured_names -> In m2 configured_names ->
  cache_key m1 a1 <> HiDreamImg2Img.cache_key m2 a2.
Proof.
  unfold configured_names. cbn [fmap list_fmap ALL_MODEL_CONFIGS fst In].
  intros H1 H2.
  repeat (destruct H1 as [<-|H1]); try destruct H1;
    repeat (destruct H2 as [<-|H2]); try destruct H2;
    destruct a1, a2; vm_compute; discriminate.
Qed.

Lemma request_key_inj `{Env} (A B : request) cfgA cfgB :
  dict_get MODEL_CONFIGS (model_type A) = Some cfgA ->
  dict_get MODEL_CONFIGS (model_type B) = Some cfgB ->
  request_key A = request_key B -> configuration A = configuration B.
Proof.
  intros HA HB.
  apply MODEL_CONFIGS_sound in HA as (_ & _ & _ & HA).
  apply MODEL_CONFIGS_sound in HB as (_ & _ & _ & HB).
  unfold request_key, configuration.
  destruct (node_of A), (node_of B); intros E;
    try (apply cache_key_inj in E as [E1 E2]; by rewrite E1, E2);
    try (apply img2img_cache_key_inj in E as [E1 E2]; by rewrite E1, E2);
    try (exfalso; exact (cache_key_cross_configured _ _ _ _ HA HB E));
    exfalso; symmetry in E;
    exact (cache_key_cross_configured _ _ _ _ HB HA E).
Qed.

Lemma loads_and_caches_singleton `{PyRuntime} `{Env} w r s :
  loads_and_caches w r s ->
  exists l cfg,
    _model_cache (run_generate w r s).1
    = {[request_key r := (Some l, Some cfg)]}
    /\ dict_get MODEL_CONFIGS (model_type r) = Some cfg.
Proof.
  intros [Hbefore Hafter].
  destruct (run_generate_cases w r s)
    as [Hsame|[[Hc _]|[_ [[Hdel _]|[[Hempty _]|Hdone]]]]].
  - rewrite Hsame in Hafter. done.
  - done.
  - destruct Hafter as (l & cfg & Hk & _).
    by rewrite Hdel, lookup_delete_eq in Hk.
  - destruct Hafter as (l & cfg & Hk & _).
    by rewrite Hempty, lookup_empty in Hk.
  - exact Hdone.
Qed.

(** C1: when a [generate] call has loaded and cached configuration A and a
    later one, of any of the three nodes and from whatever state the cache
    is in by then, loads and caches a different configuration B, A's entry
    is gone: its key is absent from the mapping and both lookups miss on
    it. *)
Theorem single_slot_eviction `{PyRuntime} `{Env} (wA wB : World)
    (A B : request) (s0 s1 : State) :
  configuration A <> configuration B ->
  loads_and_caches wA A s0 ->
  loads_and_caches wB B s1 ->
  let s2 := (run_generate wB B s1).1 in
  _model_cache s2 !! request_key A = None
  /\ lookup_misses (request_key A) s2.
Proof.
  intros Hdiff HA HB s2.
  destruct (loads_and_caches_singleton _ _ _ HA) as (lA & cfgA & _ & HmA).
  destruct (loads_and_caches_singleton _ _ _ HB) as (lB & cfgB & Hs2 & HmB).
  assert (_model_cache s2 !! request_key A = None) as Hgone.
  { subst s2. rewrite Hs2. apply lookup_singleton_ne.
    intros E. apply Hdiff. symmetry. by eapply request_key_inj. }
  split; [done|]. by apply lookup_misses_absent.
Qed.

Lemma single_slot_eviction_witness :
  let s2 := (@run_generate cpython env_full world_ok img2img_full
               (@run_generate cpython env_full world_ok sampler_fast
                  empty_state).1).1 in
  _model_cache s2 !! request_key sampler_fast = None
  /\ lookup_misses (request_key sampler_fast) s2.
Proof.
  apply (@single_slot_eviction cpython env_full world_ok world_ok
           sampler_fast img2img_full empty_state
           (@run_generate cpython env_full world_ok sampler_fast
              empty_state).1).
  - vm_compute. discriminate.
  - split.
    + intros (l & cfg & Hk & _). vm_compute in Hk. discriminate.
    + eexists _, _. split; vm_compute; reflexivity.
  - split.
    + intros (l & cfg & Hk & _). vm_compute in Hk. discriminate.
    + eexists _, _. split; vm_compute; reflexivity.
Defined.

(** ** At most one entry *)

Lemma put_outcome_size `{Env} m key out :
  put_outcome m key out -> (size (_model_cache out.1) <= 1)%nat.
Proof.
  intros [s' Hempty|s' l cfg Hsingle _ _]; cbn [fst].
  - rewrite Hempty, map_size_empty. lia.
  - rewrite Hsingle, map_size_singleton. lia.
Qed.

Lemma run_load_and_cache_outcome `{Env} w r s :
  put_outcome (model_type r) (request_key r) (run_load_and_cache w r s).
Proof.
  unfold run_load_and_cache. destruct (node_of r);
    [apply sampler_put_outcome|apply advanced_put_outcome
    |apply img2img_put_outcome].
Qed.

Lemma load_models_cache `{Env} w m a s :
  _model_cache (load_models w m a s).1 = _model_cache s
  \/ _model_cache (load_models w m a s).1
     = delete (cache_key m a) (_model_cache s).
Proof.
  pose proof (load_models_ends_spec w m a s) as Hends.
  destruct (load_models w m a s) as [s' r].
  inversion Hends; subst; cbn [fst]; auto.
Qed.

(** C2: the eviction that precedes every insertion removes every entry and
    leaves the objects the entries pointed to without any of their four
    components; the load-and-cache block of each node therefore ends with at
    most one entry in the shared mapping; and [generate] of each node,
    [cleanup_models] and [load_models] keep the mapping at no more than one
    entry. *)
Theorem at_most_one_entry `{PyRuntime} `{Env} :
  (forall s, exists s2,
      clear_all_cache s = (s2, Ok tt)
      /\ _model_cache s2 = ∅
      /\ forall k l c, _model_cache s !! k = Some (Some l, c) ->
                       released (heap s2) l)
  /\ (forall w r s,
        (size (_model_cache (run_load_and_cache w r s).1) <= 1)%nat)
  /\ (forall w r s,
        (size (_model_cache s) <= 1)%nat ->
        (size (_model_cache (run_generate w r s).1) <= 1)%nat)
  /\ (forall s,
        (size (_model_cache (HiDreamSampler.cleanup_models s).1) <= 1)%nat)
  /\ (forall w m a s,
        (size (_model_cache s) <= 1)%nat ->
        (size (_model_cache (load_models w m a s).1) <= 1)%nat).
Proof.
  split; [exact clear_all_cache_spec|]. split; [|split; [|split]].
  - intros w r s. eapply put_outcome_size, run_load_and_cache_outcome.
  - intros w r s Hs.
    destruct (run_generate_cases w r s)
      as [->|[[_ ->]|[_ [[-> _]|[[-> _]|(l & cfg & -> & _)]]]]]; try done.
    + etrans; [|exact Hs]. apply map_subseteq_size, delete_subseteq.
    + rewrite map_size_empty. lia.
    + rewrite map_size_singleton. lia.
  - intros s. destruct (cleanup_models_spec s) as (s' & Hrun & Hempty).
    rewrite Hrun. cbn [fst]. rewrite Hempty, map_size_empty. lia.
  - intros w m a s Hs. destruct (load_models_cache w m a s) as [->| ->].
    + done.
    + etrans; [|exact Hs]. apply map_subseteq_size, delete_subseteq.
Qed.

(** ** Where the entries come from *)

Lemma entries_originate_empty `{Env} s :
  _model_cache s = ∅ -> entries_originate s.
Proof. intros Hs k p c Hk. by rewrite Hs, lookup_empty in Hk. Qed.

Lemma entries_originate_same `{Env} s s' :
  _model_cache s' = _model_cache s ->
  entries_originate s -> entries_originate s'.
Proof. intros Hs Ho k p c Hk. rewrite Hs in Hk. by eapply Ho. Qed.


Lemma entries_originate_load_models `{Env} w m a s :
  entries_originate s -> entries_originate (load_models w m a s).1.
Proof.
  intros Ho. destruct (load_models_cache w m a s) as [Hs|Hs].
  - by eapply entries_originate_same.
  - intros k p c Hk. rewrite Hs in Hk.
    apply lookup_delete_Some in Hk as [_ Hk]. by eapply Ho.
Qed.

Lemma entries_originate_cleanup `{Env} s :
  entries_originate (HiDreamSampler.cleanup_models s).1.
Proof.
  destruct (cleanup_models_spec s) as (s' & -> & Hempty).
  by apply entries_originate_empty.
Qed.

(** Under a text-to-image key the stored record is the one of the key's
    model type. *)
Lemma stored_config_is_original `{Env} s m a p c cfg :
  entries_originate s ->
  _model_cache s !! cache_key m a = Some (p, c) ->
  dict_get MODEL_CONFIGS m = Some cfg ->
  c = Some cfg.
Proof.
  intros Ho Hk Hm.
  destruct (Ho _ _ _ Hk) as (m' & a' & cfg' & -> & Hm' & [E|E]).
  - apply cache_key_inj in E as [<- _]. congruence.
  - exfalso.
    apply MODEL_CONFIGS_sound in Hm as (_ & _ & _ & Hin).
    apply MODEL_CONFIGS_sound in Hm' as (_ & _ & _ & Hin').
    exact (cache_key_cross_configured _ _ _ _ Hin Hin' E).
Qed.

(** ** The lookup contract *)

Lemma loader_valid_iff s l c :
  loader_valid s (Some l, c) = true
  <-> exists t, slot_of s (Some l) transformer = Obj t.
Proof.
  unfold loader_valid. cbn [fst].
  destruct (slot_of s (Some l) transformer); split; try done; eauto.
  - by intros [? ?].
  - by intros [? ?].
Qed.

(** C3: for a key with an entry [(pipe, config)], both lookups hand back
    the stored handle and leave the state alone when the handle is not
    [None] and its transformer is an object, [check_cache] together with
    the stored configuration record and [load_models] together with the
    record of its model type, which is the stored one in every state the
    module's own operations produce; when the handle is [None], or its
    transformer is [None] or missing, both lookups report a miss and the
    entry is no longer in the cache. *)
Theorem lookup_contract `{Env} (s : State) (key : pystr)
    (pipe : option handle) (config : option ModelConfig) :
  _model_cache s !! key = Some (pipe, config) ->
  (forall l t,
      pipe = Some l -> slot_of s pipe transformer = Obj t ->
      load_models_cached key s = (s, Ok (Some l))
      /\ (forall cfg, config = Some cfg ->
                      check_cache key s = (s, Ok (Some l, Some cfg)))
      /\ (forall w m a cfg,
            key = cache_key m a -> dict_get MODEL_CONFIGS m = Some cfg ->
            load_models w m a s = (s, Ok (l, cfg))
            /\ (entries_originate s -> config = Some cfg)))
  /\ (pipe = None \/ slot_of s pipe transformer = PyNone
      \/ slot_of s pipe transformer = Absent ->
      let s' := with_cache (delete key (_model_cache s)) s in
      load_models_cached key s = (s', Ok None)
      /\ check_cache key s = (s', Ok (None, None))
      /\ _model_cache s' !! key = None
      /\ (forall w m a,
            key = cache_key m a -> is_Some (dict_get MODEL_CONFIGS m) ->
            _model_cache (load_models w m a s).1 !! key = None)).
Proof.
  intros Hk. split.
  - intros l t -> Ht.
    assert (loader_valid s (Some l, config) = true) as Hv
        by (apply loader_valid_iff; eauto).
    split; [|split].
    + by rewrite load_models_cached_spec, Hk, Hv.
    + intros cfg ->. by apply check_cache_cached.
    + intros w m a cfg -> Hm. split.
      2:{ intros Ho. by eapply stored_config_is_original. }
      pose proof (load_models_ends_spec w m a s) as Hends.
      destruct (load_models w m a s) as [s' r].
      inversion Hends as [e Hm'|l' c cfg' Hm' Hk' Hv'|cfg' e Hm' Hinv
                         |cfg' p Hm' Hinv Hp]; subst.
      * congruence.
      * congruence.
      * rewrite (Hinv _ Hk) in Hv. discriminate.
      * rewrite (Hinv _ Hk) in Hv. discriminate.
  - intros Hbad s'.
    assert (loader_valid s (pipe, config) = false) as Hv.
    { unfold loader_valid. cbn [fst]. destruct pipe as [l|]; [|done].
      destruct Hbad as [?|[-> | ->]]; done. }
    assert (generate_valid s (pipe, config) = false) as Hg
        by (unfold generate_valid; by rewrite Hv).
    split; [|split; [|split]].
    + by rewrite load_models_cached_spec, Hk, Hv.
    + by rewrite check_cache_spec, Hk, Hg.
    + apply lookup_delete_eq.
    + intros w m a -> [cfg Hm].
      pose proof (load_models_ends_spec w m a s) as Hends.
      destruct (load_models w m a s) as [s1 r].
      inversion Hends as [e Hm'|l' c cfg' Hm' Hk' Hv'|cfg' e Hm' Hinv
                         |cfg' p Hm' Hinv Hp]; subst; cbn [fst].
      * congruence.
      * congruence.
      * apply lookup_delete_eq.
      * apply lookup_delete_eq.
Qed.

Lemma lookup_contract_witness :
  let key := HiDreamImg2Img.cache_key (U "full") false in
  exists config,
    _model_cache after_img2img_full !! key = Some (Some 1%nat, config)
    /\ load_models_cached key after_img2img_full
       = (after_img2img_full, Ok (Some 1%nat))
    /\ forall cfg, config = Some cfg ->
         check_cache key after_img2img_full
         = (after_img2img_full, Ok (Some 1%nat, Some cfg)).
Proof.
  intros key. eexists. split; [vm_compute; reflexivity|].
  destruct (proj1 (@lookup_contract env_full after_img2img_full key
                     (Some 1%nat) _ ltac:(vm_compute; reflexivity))
              1%nat (Transformer (U "HiDream-ai/HiDream-I1-Full")) eq_refl
              ltac:(vm_compute; reflexivity)) as (H1 & H2 & _).
  split; [exact H1|exact H2].
Defined.

(** ** A failed load in [HiDreamSampler.generate] *)

Lemma parse_aspect_ratio_raises `{PyRuntime} ar e :
  HiDreamSampler.parse_aspect_ratio ar = Raise e ->
  printable ar = false /\ e = UnicodeEncodeError.
Proof.
  unfold HiDreamSampler.parse_aspect_ratio, py_print.
  destruct (HiDreamSampler.parse_aspect_ratio_try ar); [done|].
  destruct (printable ar); [done|]. cbn. by intros [= <-].
Qed.

Lemma parse_dimensions_raises `{PyRuntime} ar e :
  HiDreamSamplerAdvanced.parse_dimensions ar = Raise e ->
  printable ar = false /\ e = UnicodeEncodeError.
Proof.
  unfold HiDreamSamplerAdvanced.parse_dimensions, py_print.
  destruct (HiDreamSamplerAdvanced.parse_dimensions_try ar); [done|].
  destruct (printable ar); [done|]. cbn. by intros [= <-].
Qed.




(** ** The parsers *)

Lemma is_digit_cases c :
  is_digit c = true ->
  (c = 48 \/ c = 49 \/ c = 50 \/ c = 51 \/ c = 52 \/ c = 53 \/ c = 54
   \/ c = 55 \/ c = 56 \/ c = 57)%N.
Proof.
  unfold is_digit. intros [H1 H2]%andb_prop.
  apply N.leb_le in H1, H2. lia.
Qed.

Ltac digit_cases c H :=
  apply is_digit_cases in H;
  destruct H as [->|[->|[->|[->|[->|[->|[->|[->|[->| ->]]]]]]]]].

Lemma digit_facts c :
  is_digit c = true ->
  isspace c = false /\ is_c_space c = false /\ (c <? 127)%N = true
  /\ (c =? 95)%N = false /\ (c =? 43)%N = false /\ (c =? 45)%N = false
  /\ c <> 40%N /\ c <> 41%N /\ c <> 215%N /\ c <> 120%N.
Proof. intros H. digit_cases c H; repeat split; done. Qed.

Lemma transform_digits `{PyRuntime} ds :
  Forall (fun c => is_digit c = true) ds -> transform ds = Some ds.
Proof.
  induction 1 as [|c ds Hc _ IH]; [done|]. cbn [transform].
  unfold to_ascii. destruct (digit_facts c Hc) as (_ & _ & -> & _).
  by rewrite IH.
Qed.

Lemma scan_digits_all ds :
  Forall (fun c => is_digit c = true) ds -> scan_digits ds = (ds, []).
Proof.
  induction 1 as [|c ds Hc _ IH]; [done|]. cbn [scan_digits].
  by rewrite Hc, IH.
Qed.

Lemma underscores_ok_digits ds :
  Forall (fun c => is_digit c = true) ds -> underscores_ok false ds = true.
Proof.
  induction 1 as [|c ds Hc _ IH]; [done|]. cbn [underscores_ok].
  destruct (digit_facts c Hc) as (_ & _ & _ & -> & _). exact IH.
Qed.

Lemma filter_digits ds :
  Forall (fun c => is_digit c = true) ds ->
  filter (fun c => is_digit c = true) ds = ds.
Proof.
  induction 1 as [|c ds Hc _ IH]; [done|].
  rewrite filter_cons_True by done. by rewrite IH.
Qed.

Lemma py_int_dimension `{PyRuntime} ds :
  dimension_text ds -> py_int ds = Ok (decimal_value ds).
Proof.
  intros (Hne & Hd & Hlen). unfold py_int.
  rewrite (transform_digits _ Hd).
  destruct ds as [|c r]; [done|].
  pose proof (Forall_inv Hd) as Hc.
  destruct (digit_facts c Hc) as (_ & Hsp & _ & Hus & Hplus & Hminus & _).
  cbn [skip_c_space]. rewrite Hsp, Hplus, Hminus.
  rewrite (scan_digits_all _ Hd).
  change (underscores_ok true (c :: r))
    with (if (c =? 95)%N then negb true && underscores_ok true r
          else underscores_ok false r).
  rewrite Hus, (underscores_ok_digits r (Forall_inv_tail Hd)).
  rewrite (filter_digits _ Hd). cbn [negb skip_c_space].
  replace ((640 <? N.of_nat (length (c :: r)))%N) with false
    by (symmetry; apply N.ltb_ge; lia).
  cbn [andb]. f_equal. lia.
Qed.

Lemma lstrip_head c r : isspace c = false -> lstrip (c :: r) = c :: r.
Proof. intros Hc. cbn [lstrip]. by rewrite Hc. Qed.

Lemma rstrip_last r c : isspace c = false -> rstrip (r ++ [c]) = r ++ [c].
Proof.
  intros Hc. unfold rstrip. rewrite rev_unit, (lstrip_head _ _ Hc).
  cbn [rev]. by rewrite rev_involutive.
Qed.

Lemma rstrip_blank r : rstrip (r ++ [32%N]) = rstrip r.
Proof. unfold rstrip. by rewrite rev_unit. Qed.

Lemma dimension_text_ends ds :
  dimension_text ds ->
  (exists c r, ds = c :: r /\ is_digit c = true)
  /\ (exists r c, ds = r ++ [c] /\ is_digit c = true).
Proof.
  intros (Hne & Hd & _). split.
  - destruct ds as [|c r]; [done|]. exists c, r. split; [done|].
    by apply Forall_inv in Hd.
  - destruct (exists_last Hne) as (r & c & ->). exists r, c.
    split; [done|]. apply Forall_app in Hd as [_ Hd].
    by apply Forall_inv in Hd.
Qed.

Lemma strip_between ds tl c :
  dimension_text ds -> is_digit c = true ->
  strip (ds ++ tl ++ [c]) = ds ++ tl ++ [c].
Proof.
  intros ((c0 & r & -> & Hc0) & _)%dimension_text_ends Hc.
  unfold strip. cbn [app].
  rewrite lstrip_head by (by apply digit_facts).
  change (c0 :: r ++ tl ++ [c]) with ((c0 :: r) ++ tl ++ [c]).
  rewrite app_assoc. apply rstrip_last. by apply digit_facts.
Qed.

Lemma strip_dimension ds : dimension_text ds -> strip ds = ds.
Proof.
  intros Hd. destruct (dimension_text_ends _ Hd)
    as [(c0 & r & -> & Hc0) (r' & c & E & Hc)].
  unfold strip. rewrite lstrip_head by (by apply digit_facts).
  rewrite E. apply rstrip_last. by apply digit_facts.
Qed.

Lemma strip_dimension_blank_after ds :
  dimension_text ds -> strip (ds ++ [32%N]) = ds.
Proof.
  intros Hd. destruct (dimension_text_ends _ Hd)
    as [(c0 & r & -> & Hc0) (r' & c & E & Hc)].
  unfold strip. cbn [app]. rewrite lstrip_head by (by apply digit_facts).
  change (c0 :: r ++ [32%N]) with ((c0 :: r) ++ [32%N]).
  rewrite rstrip_blank, E. apply rstrip_last. by apply digit_facts.
Qed.

Lemma strip_dimension_blank_before ds :
  dimension_text ds -> strip (32%N :: ds) = ds.
Proof. intros Hd. unfold strip. cbn [lstrip isspace]. by apply strip_dimension. Qed.

Lemma replace_absent old new s :
  old ∉ s -> replace old new s = s.
Proof.
  induction s as [|c s IH]; [done|]. intros Hn.
  apply not_elem_of_cons in Hn as [Hc Hs]. unfold replace in *.
  cbn [map]. rewrite IH by done.
  destruct (N.eqb_spec c old); [congruence|done].
Qed.

(** *** Splitting at a one-character separator *)

Lemma split_one_cons c x s :
  split [c] (x :: s)
  = if (c =? x)%N then [] :: split [c] s else cons_hd x (split [c] s).
Proof.
  unfold split. cbn [split_from startswith length Nat.sub].
  by rewrite andb_true_r.
Qed.

Lemma split_one_absent c s : c ∉ s -> split [c] s = [s].
Proof.
  induction s as [|x s IH]; [done|]. intros Hn.
  apply not_elem_of_cons in Hn as [Hc Hs]. rewrite split_one_cons.
  destruct (N.eqb_spec c x); [done|]. by rewrite IH.
Qed.

Lemma split_one_first c a b :
  c ∉ a -> split [c] (a ++ c :: b) = a :: split [c] b.
Proof.
  induction a as [|x a IH]; intros Hn.
  - cbn [app]. rewrite split_one_cons. by rewrite N.eqb_refl.
  - apply not_elem_of_cons in Hn as [Hc Hs]. cbn [app].
    rewrite split_one_cons. destruct (N.eqb_spec c x); [done|].
    by rewrite IH.
Qed.

Lemma split_one_prefix c d t :
  c ∉ d ->
  exists p ps, split [c] t = p :: ps /\ split [c] (d ++ t) = (d ++ p) :: ps.
Proof.
  intros Hn. induction d as [|x d IH].
  - cbn [app]. destruct t as [|y t]; [by exists [], []|].
    rewrite split_one_cons. destruct (c =? y)%N; [by eexists _, _|].
    destruct (split [c] t); by eexists _, _.
  - apply not_elem_of_cons in Hn as [Hc Hs].
    destruct (IH Hs) as (p & ps & Ht & Hdt). exists p, ps. split; [done|].
    cbn [app]. rewrite split_one_cons. destruct (N.eqb_spec c x); [done|].
    by rewrite Hdt.
Qed.

(** *** Splitting at " (" *)

Lemma split_paren_first a b :
  40%N ∉ a ->
  exists rest, split [32%N; 40%N] (a ++ 32%N :: 40%N :: b) = a :: rest.
Proof.
  induction a as [|x a IH]; intros Hn.
  - eexists. unfold split. cbn [app split_from startswith].
    reflexivity.
  - apply not_elem_of_cons in Hn as [Hx Ha].
    destruct (IH Ha) as [rest Hrest]. exists rest.
    unfold split in *. cbn [app split_from].
    assert (startswith [32%N; 40%N] (x :: a ++ 32%N :: 40%N :: b) = false)
      as ->.
    { cbn [startswith]. destruct (N.eqb_spec 32 x); [|done]. cbn [andb].
      destruct a as [|y a]; [done|]. cbn [app startswith].
      apply not_elem_of_cons in Ha as [Hy _].
      destruct (N.eqb_spec 40 y); [congruence|done]. }
    by rewrite Hrest.
Qed.

Lemma dimension_text_not_elem ds c :
  dimension_text ds -> is_digit c = false -> c ∉ ds.
Proof.
  intros (_ & Hd & _) Hc Hin. rewrite Forall_forall in Hd.
  specialize (Hd c Hin). congruence.
Qed.

Lemma parse_aspect_ratio_try_shape `{PyRuntime} pre ws hs post :
  40%N ∉ pre -> plain_text ws -> plain_text hs ->
  HiDreamSampler.parse_aspect_ratio_try
    (pre ++ 40%N :: ws ++ 215%N :: hs ++ 41%N :: post)
  = (w ← py_int ws; h ← py_int hs; mret (w, h)).
Proof.
  intros Hpre (Hw40 & Hw41 & Hw215) (Hh40 & Hh41 & Hh215).
  unfold HiDreamSampler.parse_aspect_ratio_try.
  change (U "(") with [40%N]. change (U ")") with [41%N].
  change (U "×") with [215%N].
  rewrite (split_one_first 40 pre _ Hpre).
  assert (40%N ∉ (ws ++ 215%N :: hs) ++ [41%N]) as Hd.
  { rewrite !elem_of_app, elem_of_cons, list_elem_of_singleton.
    intros [[?|[?|?]]|?]; done. }
  destruct (split_one_prefix 40 _ post Hd) as (p & ps & _ & Hsplit).
  replace (ws ++ 215%N :: hs ++ 41%N :: post)
    with (((ws ++ 215%N :: hs) ++ [41%N]) ++ post)
    by (by rewrite <- !app_assoc).
  rewrite Hsplit. cbn [index lookup list_lookup mbind result_bind].
  rewrite <- app_assoc. cbn [app].
  assert (41%N ∉ ws ++ 215%N :: hs) as Hd2.
  { rewrite elem_of_app, elem_of_cons. intros [?|[?|?]]; done. }
  rewrite (split_one_first 41 _ p Hd2).
  cbn [index lookup list_lookup mbind result_bind].
  rewrite (split_one_first 215 ws hs) by done.
  rewrite (split_one_absent 215 hs) by done.
  reflexivity.
Qed.

Lemma dimension_text_plain ds : dimension_text ds -> plain_text ds.
Proof.
  intros Hd. repeat split; by apply dimension_text_not_elem.
Qed.

Lemma parse_aspect_ratio_try_well_formed `{PyRuntime} pre W Hh post :
  40%N ∉ pre -> dimension_text W -> dimension_text Hh ->
  HiDreamSampler.parse_aspect_ratio_try
    (pre ++ 40%N :: W ++ 215%N :: Hh ++ 41%N :: post)
  = Ok (decimal_value W, decimal_value Hh).
Proof.
  intros Hpre HW HH.
  rewrite parse_aspect_ratio_try_shape
    by auto using dimension_text_plain.
  by rewrite (py_int_dimension W HW), (py_int_dimension Hh HH).
Qed.

Lemma parse_resolution_try_well_formed `{PyRuntime} W Hh label :
  dimension_text W -> dimension_text Hh ->
  parse_resolution_try
    (W ++ [32%N; 215%N; 32%N] ++ Hh ++ 32%N :: 40%N :: label)
  = Ok (decimal_value Hh, decimal_value W).
Proof.
  intros HW HH. unfold parse_resolution_try.
  change (U " (") with [32%N; 40%N]. change (U "×") with [215%N].
  set (a := W ++ [32%N; 215%N; 32%N] ++ Hh).
  assert (forall c, is_digit c = false -> c <> 32%N -> c <> 215%N -> c ∉ a)
    as Ha.
  { intros c Hc H32 H215. subst a.
    rewrite !elem_of_app, !elem_of_cons, elem_of_nil.
    intros [HinW|[[?|[?|[?|[]]]]|HinH]]; try done.
    - by eapply (dimension_text_not_elem W c).
    - by eapply (dimension_text_not_elem Hh c). }
  replace (W ++ [32%N; 215%N; 32%N] ++ Hh ++ 32%N :: 40%N :: label)
    with (a ++ 32%N :: 40%N :: label)
    by (subst a; by rewrite <- !app_assoc).
  destruct (split_paren_first a label (Ha 40%N eq_refl ltac:(done)
                                         ltac:(done))) as [rest ->].
  cbn [index lookup list_lookup mbind result_bind].
  assert (strip a = a) as ->.
  { destruct (dimension_text_ends _ HH) as [_ (r' & c & E & Hc)].
    subst a. rewrite E.
    replace (W ++ [32%N; 215%N; 32%N] ++ r' ++ [c])
      with (W ++ ([32%N; 215%N; 32%N] ++ r') ++ [c])
      by (by rewrite <- !app_assoc).
    by apply strip_between. }
  rewrite (replace_absent 120 215 a)
    by (by apply Ha).
  assert (split [215%N] a = [W ++ [32%N]; 32%N :: Hh]) as ->.
  { subst a.
    replace (W ++ [32%N; 215%N; 32%N] ++ Hh)
      with ((W ++ [32%N]) ++ 215%N :: 32%N :: Hh)
      by (by rewrite <- !app_assoc).
    rewrite split_one_first.
    - rewrite split_one_absent; [done|].
      rewrite elem_of_cons. intros [?|?]; [done|].
      by eapply (dimension_text_not_elem Hh 215).
    - rewrite elem_of_app, list_elem_of_singleton. intros [?|?]; [|done].
      by eapply (dimension_text_not_elem W 215). }
  cbn [length Nat.eqb negb index lookup list_lookup mbind result_bind].
  rewrite (strip_dimension_blank_after W HW).
  rewrite (strip_dimension_blank_before Hh HH).
  rewrite (py_int_dimension W HW), (py_int_dimension Hh HH).
  reflexivity.
Qed.

(** *** The fallback *)

Lemma parse_resolution_printable `{PyRuntime} s :
  printable s = true ->
  ((exists e, parse_resolution_try s = Raise e)
   /\ parse_resolution s = Ok (1024, 1024))
  \/ (exists r, parse_resolution_try s = Ok r /\ parse_resolution s = Ok r).
Proof.
  intros Hs. unfold parse_resolution, py_print. rewrite Hs.
  destruct (parse_resolution_try s) as [r|e]; [right|left]; eauto.
Qed.

Lemma parse_aspect_ratio_printable `{PyRuntime} s :
  printable s = true ->
  ((exists e, HiDreamSampler.parse_aspect_ratio_try s = Raise e)
   /\ HiDreamSampler.parse_aspect_ratio s = Ok (1024, 1024))
  \/ (exists r, HiDreamSampler.parse_aspect_ratio_try s = Ok r
                /\ HiDreamSampler.parse_aspect_ratio s = Ok r).
Proof.
  intros Hs. unfold HiDreamSampler.parse_aspect_ratio, py_print. rewrite Hs.
  destruct (HiDreamSampler.parse_aspect_ratio_try s) as [r|e];
    [right|left]; eauto.
Qed.

Lemma parse_dimensions_printable `{PyRuntime} s :
  printable s = true ->
  ((exists e, HiDreamSamplerAdvanced.parse_dimensions_try s = Raise e)
   /\ HiDreamSamplerAdvanced.parse_dimensions s = Ok (1024, 1024))
  \/ (exists r, HiDreamSamplerAdvanced.parse_dimensions_try s = Ok r
                /\ HiDreamSamplerAdvanced.parse_dimensions s = Ok r).
Proof.
  intros Hs. unfold HiDreamSamplerAdvanced.parse_dimensions, py_print.
  rewrite Hs.
  destruct (HiDreamSamplerAdvanced.parse_dimensions_try s) as [r|e];
    [right|left]; eauto.
Qed.

Lemma split_from_elem sep k s p c :
  p ∈ split_from sep k s -> c ∈ p -> c ∈ s.
Proof.
  revert k p. induction s as [|x s IH]; intros k p Hp Hc.
  - cbn [split_from] in Hp. apply list_elem_of_singleton in Hp as ->.
    done.
  - cbn [split_from] in Hp. destruct k as [|k].
    + destruct (startswith sep (x :: s)).
      * apply elem_of_cons in Hp as [->|Hp];
          [by apply elem_of_nil in Hc|].
        right. by eapply IH.
      * unfold cons_hd in Hp.
        destruct (split_from sep 0 s) as [|q qs] eqn:E.
        -- apply list_elem_of_singleton in Hp as ->.
           apply list_elem_of_singleton in Hc as ->. left.
        -- apply elem_of_cons in Hp as [->|Hp].
           ++ apply elem_of_cons in Hc as [->|Hc]; [left|right].
              apply (IH 0%nat q); [rewrite E; left|done].
           ++ right. apply (IH 0%nat p); [rewrite E; by right|done].
    + right. by eapply IH.
Qed.

Lemma lstrip_elem s c : c ∈ lstrip s -> c ∈ s.
Proof.
  induction s as [|x s IH]; [done|]. cbn [lstrip].
  destruct (isspace x); [|done]. intros Hc. right. by apply IH.
Qed.

Lemma strip_elem s c : c ∈ strip s -> c ∈ s.
Proof.
  unfold strip, rstrip. intros Hc. apply lstrip_elem.
  apply list_elem_of_In, in_rev, list_elem_of_In, lstrip_elem in Hc.
  by apply list_elem_of_In, in_rev, list_elem_of_In in Hc.
Qed.

(** Without a multiplication sign and without the letter x there are no
    two parts. *)
Lemma parse_resolution_try_no_separator `{PyRuntime} s :
  120%N ∉ s -> 215%N ∉ s -> exists e, parse_resolution_try s = Raise e.
Proof.
  intros H120 H215. unfold parse_resolution_try.
  destruct (index (split (U " (") s) 0) as [p0|e] eqn:E;
    cbn [mbind result_bind]; [|eauto].
  assert (forall c, c ∈ strip p0 -> c ∈ s) as Hsub.
  { intros c Hc. apply strip_elem in Hc.
    unfold index in E.
    destruct (split (U " (") s !! 0%nat) as [q|] eqn:Eq; [|done].
    injection E as ->. apply list_elem_of_lookup_2 in Eq.
    by eapply split_from_elem. }
  change (U "×") with [215%N].
  rewrite replace_absent by (intros Hc; by apply H120, Hsub).
  rewrite split_one_absent by (intros Hc; by apply H215, Hsub).
  cbn [length Nat.eqb negb]. eexists. reflexivity.
Qed.

(** Without an opening parenthesis there is nothing after it. *)
Lemma parse_aspect_ratio_try_no_paren `{PyRuntime} s :
  40%N ∉ s -> HiDreamSampler.parse_aspect_ratio_try s = Raise IndexError.
Proof.
  intros Hs. unfold HiDreamSampler.parse_aspect_ratio_try.
  change (U "(") with [40%N]. by rewrite split_one_absent.
Qed.

Lemma parse_dimensions_try_plain `{PyRuntime} s :
  contains (U "Square Reso") s = false ->
  HiDreamSamplerAdvanced.parse_dimensions_try s
  = HiDreamSampler.parse_aspect_ratio_try s.
Proof.
  intros Hc. unfold HiDreamSamplerAdvanced.parse_dimensions_try.
  by rewrite Hc.
Qed.

(** Decimal digits of other scripts are read as well. *)
Example parse_aspect_ratio_arabic_indic :
  @HiDreamSampler.parse_aspect_ratio cpython (U "3:4 (٧٦٨×١٠٢٤)")
  = Ok (768, 1024).
Proof. vm_compute. reflexivity. Qed.

(** C9, as the code has it: on every string the standard output can
    encode the three parsers return; whenever the guarded block raises,
    for whatever reason, the result is (1024, 1024), and otherwise it is
    what the guarded block returned.  The guarded block raises, and the
    result is (1024, 1024), for a string with neither a multiplication
    sign nor the letter x ([parse_resolution]) and for a string with no
    opening parenthesis ([parse_aspect_ratio], [parse_dimensions]).  On
    "pre(ws×hs)post", with no parenthesis in "pre" and neither a
    parenthesis nor a multiplication sign in "ws" and "hs",
    [parse_aspect_ratio] returns the two integers [int] reads from "ws" and
    "hs", and (1024, 1024) when [int] raises on one of them;
    [parse_dimensions] does the same unless the string contains "Square
    Reso".  On a string of the shape the option lists use, with decimal
    dimensions [W] and [Hh], [parse_resolution] ("W × Hh (label") returns
    (Hh, W), and [parse_aspect_ratio] and [parse_dimensions]
    ("pre(W×Hh)post") return (W, Hh). *)
Theorem parsers_total_with_fallback `{PyRuntime}
    (W Hh label pre post : pystr) :
  dimension_text W -> dimension_text Hh -> 40%N ∉ pre ->
  (forall s,
      printable s = true ->
      ((exists e, parse_resolution_try s = Raise e)
       /\ parse_resolution s = Ok (1024, 1024))
      \/ (exists r, parse_resolution_try s = Ok r
                    /\ parse_resolution s = Ok r))
  /\ (forall s,
        printable s = true ->
        ((exists e, HiDreamSampler.parse_aspect_ratio_try s = Raise e)
         /\ HiDreamSampler.parse_aspect_ratio s = Ok (1024, 1024))
        \/ (exists r, HiDreamSampler.parse_aspect_ratio_try s = Ok r
                      /\ HiDreamSampler.parse_aspect_ratio s = Ok r))
  /\ (forall s,
        printable s = true ->
        ((exists e, HiDreamSamplerAdvanced.parse_dimensions_try s = Raise e)
         /\ HiDreamSamplerAdvanced.parse_dimensions s = Ok (1024, 1024))
        \/ (exists r, HiDreamSamplerAdvanced.parse_dimensions_try s = Ok r
                      /\ HiDreamSamplerAdvanced.parse_dimensions s = Ok r))
  /\ (forall s,
        printable s = true -> 120%N ∉ s -> 215%N ∉ s ->
        parse_resolution s = Ok (1024, 1024))
  /\ (forall s,
        printable s = true -> 40%N ∉ s ->
        HiDreamSampler.parse_aspect_ratio s = Ok (1024, 1024)
        /\ HiDreamSamplerAdvanced.parse_dimensions s = Ok (1024, 1024))
  /\ (forall ws hs,
        let s := pre ++ U "(" ++ ws ++ U "×" ++ hs ++ U ")" ++ post in
        plain_text ws -> plain_text hs -> printable s = true ->
        HiDreamSampler.parse_aspect_ratio s
        = match py_int ws, py_int hs with
          | Ok w, Ok h => Ok (w, h)
          | _, _ => Ok (1024, 1024)
          end
        /\ (contains (U "Square Reso") s = false ->
            HiDreamSamplerAdvanced.parse_dimensions s
            = HiDreamSampler.parse_aspect_ratio s))
  /\ parse_resolution (W ++ U " × " ++ Hh ++ U " (" ++ label)
     = Ok (decimal_value Hh, decimal_value W)
  /\ HiDreamSampler.parse_aspect_ratio
       (pre ++ U "(" ++ W ++ U "×" ++ Hh ++ U ")" ++ post)
     = Ok (decimal_value W, decimal_value Hh)
  /\ (contains (U "Square Reso")
        (pre ++ U "(" ++ W ++ U "×" ++ Hh ++ U ")" ++ post) = false ->
      HiDreamSamplerAdvanced.parse_dimensions
        (pre ++ U "(" ++ W ++ U "×" ++ Hh ++ U ")" ++ post)
      = Ok (decimal_value W, decimal_value Hh)).
Proof.
  intros HW HH Hpre.
  split; [exact parse_resolution_printable|].
  split; [exact parse_aspect_ratio_printable|].
  split; [exact parse_dimensions_printable|].
  split; [|split; [|split]].
  - intros s Hs H120 H215.
    destruct (parse_resolution_try_no_separator s H120 H215) as [e He].
    unfold parse_resolution, py_print. by rewrite He, Hs.
  - intros s Hs Hparen.
    pose proof (parse_aspect_ratio_try_no_paren s Hparen) as Htry.
    split.
    + unfold HiDreamSampler.parse_aspect_ratio, py_print.
      by rewrite Htry, Hs.
    + unfold HiDreamSamplerAdvanced.parse_dimensions,
        HiDreamSamplerAdvanced.parse_dimensions_try, py_print.
      destruct (contains _ s); [done|].
      fold (HiDreamSampler.parse_aspect_ratio_try s).
      by rewrite Htry, Hs.
  - intros ws hs s Hws Hhs Hs. subst s. revert Hs.
    change (U "(") with [40%N]. change (U "×") with [215%N].
    change (U ")") with [41%N]. cbn [app]. intros Hs. split.
    + unfold HiDreamSampler.parse_aspect_ratio, py_print.
      rewrite (parse_aspect_ratio_try_shape pre ws hs post Hpre Hws Hhs), Hs.
      destruct (py_int ws) as [w|e]; [|done].
      by destruct (py_int hs) as [h|e].
    + intros Hc. unfold HiDreamSamplerAdvanced.parse_dimensions,
        HiDreamSampler.parse_aspect_ratio.
      by rewrite (parse_dimensions_try_plain _ Hc).
  - change (U " × ") with [32%N; 215%N; 32%N].
    change (U " (") with [32%N; 40%N]. change (U "(") with [40%N].
    change (U "×") with [215%N]. change (U ")") with [41%N].
    cbn [app]. split; [|split].
    + unfold parse_resolution.
      by rewrite (parse_resolution_try_well_formed W Hh label HW HH).
    + unfold HiDreamSampler.parse_aspect_ratio.
      by rewrite (parse_aspect_ratio_try_well_formed pre W Hh post Hpre HW HH).
    + intros Hc. unfold HiDreamSamplerAdvanced.parse_dimensions.
      rewrite (parse_dimensions_try_plain _ Hc).
      by rewrite (parse_aspect_ratio_try_well_formed pre W Hh post Hpre HW HH).
Qed.

Lemma parsers_total_with_fallback_witness :
  @parse_resolution cpython (U "768 × 1360 (Portrait)") = Ok (1360, 768)
  /\ @HiDreamSampler.parse_aspect_ratio cpython (U "9:16 (768×1360)")
     = Ok (768, 1360)
  /\ @HiDreamSamplerAdvanced.parse_dimensions cpython (U "9:16 (768×1360)")
     = Ok (768, 1360).
Proof.
  assert (dimension_text (U "768")) as HW.
  { split; [done|]. split; [|vm_compute; lia].
    repeat constructor. }
  assert (dimension_text (U "1360")) as HH.
  { split; [done|]. split; [|vm_compute; lia].
    repeat constructor. }
  assert (40%N ∉ U "9:16 ") as Hpre.
  { intros Hin. apply list_elem_of_In in Hin. cbv in Hin.
    repeat (destruct Hin as [Hin|Hin]; [discriminate Hin|]). exact Hin. }
  destruct (@parsers_total_with_fallback cpython (U "768") (U "1360")
              (U "Portrait)") (U "9:16 ") [] HW HH Hpre)
    as (_ & _ & _ & _ & _ & _ & H1 & H2 & H3).
  split; [exact H1|]. split; [exact H2|].
  apply H3. vm_compute. reflexivity.
Defined.

(** The claim as stated fails on a string the standard output cannot
    encode: for the lone surrogate U+D800 the guarded block of each
    parser raises, the [except] branch prints the string, and the
    [UnicodeEncodeError] of that print leaves the parser. *)
Lemma parsers_raise_on_lone_surrogate :
  @parse_resolution cpython [55296%N] = Raise UnicodeEncodeError
  /\ @HiDreamSampler.parse_aspect_ratio cpython [55296%N]
     = Raise UnicodeEncodeError
  /\ @HiDreamSamplerAdvanced.parse_dimensions cpython [55296%N]
     = Raise UnicodeEncodeError.
Proof. repeat split; vm_compute; reflexivity. Qed.

(** * Further properties of the module *)

(** ** The configured model types *)

Lemma dict_get_None {V} (d : list (pystr * V)) k :
  dict_get d k = None <-> k ∉ d.*1.
Proof.
  induction d as [|[k' v] d IH]; cbn [dict_get fmap list_fmap fst].
  - split; [intros _; apply not_elem_of_nil|done].
  - destruct (decide (k' = k)) as [->|Hne].
    + split; [done|]. intros Hn. exfalso. apply Hn. left.
    + rewrite IH, not_elem_of_cons.
      split; [intros ?; split; [by intros ->|done]|by intros [_ ?]].
Qed.


Lemma dict_get_without {V} (flag : V -> bool) (d : list (pystr * V)) k :
  NoDup d.*1 ->
  dict_get (without flag d) k
  = match dict_get d k with
    | Some v => if flag v then None else Some v
    | None => None
    end.
Proof.
  unfold without.
  induction d as [|[k' v] d IH]; [done|].
  cbn [fmap list_fmap fst]. intros Hnd. apply NoDup_cons in Hnd as [Hk Hnd].
  cbn [List.filter snd dict_get].
  destruct (decide (k' = k)) as [->|Hne].
  - destruct (flag v); cbn [negb dict_get].
    + rewrite (IH Hnd). apply dict_get_None in Hk. by rewrite Hk.
    + by rewrite decide_True.
  - destruct (flag v); cbn [negb dict_get].
    + by apply IH.
    + rewrite decide_False by done. by apply IH.
Qed.

Lemma without_keys_NoDup {V} (flag : V -> bool) (d : list (pystr * V)) :
  NoDup d.*1 -> NoDup (without flag d).*1.
Proof.
  unfold without. induction d as [|[k v] d IH]; [done|].
  cbn [fmap list_fmap fst]. intros Hnd. apply NoDup_cons in Hnd as [Hk Hnd].
  cbn [List.filter snd].
  destruct (negb (flag v)); [|by apply IH].
  cbn [fmap list_fmap fst]. apply NoDup_cons. split; [|by apply IH].
  intros Hin. apply Hk.
  apply list_elem_of_fmap in Hin as ([k1 v1] & -> & Hin).
  apply list_elem_of_fmap. exists (k1, v1). split; [done|].
  apply list_elem_of_In in Hin. apply filter_In in Hin as [Hin _].
  by apply list_elem_of_In.
Qed.

Lemma ALL_MODEL_CONFIGS_NoDup : NoDup ALL_MODEL_CONFIGS.*1.
Proof.
  apply (bool_decide_unpack _). vm_compute. reflexivity.
Qed.

(** The records of the table: the two dependency flags follow [is_nf4],
    the scheduler class is one of the two the module imports, and no model
    type is called "error". *)
Lemma ALL_MODEL_CONFIGS_facts m cfg :
  In (m, cfg) ALL_MODEL_CONFIGS ->
  requires_bnb cfg = negb (is_nf4 cfg)
  /\ requires_gptq_deps cfg = is_nf4 cfg
  /\ bool_decide (scheduler_class cfg
                  ∈ [U "FlowUniPCMultistepScheduler";
                     U "FlashFlowMatchEulerDiscreteScheduler"]) = true
  /\ m <> U "error".
Proof.
  unfold ALL_MODEL_CONFIGS. intros Hin.
  repeat (destruct Hin as [Hin|Hin];
          [injection Hin as <- <-;
           split; [reflexivity|]; split; [reflexivity|];
           split; [vm_compute; reflexivity
                  |intros E; vm_compute in E; discriminate E]|]).
  destruct Hin.
Qed.

Lemma MODEL_CONFIGS_lookup `{Env} m :
  dict_get MODEL_CONFIGS m
  = if hidream_classes_loaded then
      match dict_get ALL_MODEL_CONFIGS m with
      | Some cfg =>
        if requires_bnb cfg && negb bnb_available then None
        else if requires_gptq_deps cfg
                && (negb optimum_available || negb gptq_support_available)
        then None
        else Some cfg
      | None => None
      end
    else None.
Proof.
  unfold MODEL_CONFIGS. cbv zeta.
  destruct hidream_classes_loaded; [|done]. cbn [negb].
  pose proof ALL_MODEL_CONFIGS_NoDup as Hnd.
  destruct bnb_available; cbn [negb];
    destruct (negb optimum_available || negb gptq_support_available);
    rewrite ?dict_get_without
      by (try apply without_keys_NoDup; exact Hnd);
    rewrite ?dict_get_without by exact Hnd;
    destruct (dict_get ALL_MODEL_CONFIGS m) as [cfg|]; try reflexivity;
    rewrite ?andb_true_r, ?andb_false_r;
    destruct (requires_bnb cfg), (requires_gptq_deps cfg); reflexivity.
Qed.

(** X1.  A model type is configured exactly when the table has it, the
    HiDream classes were imported, and the libraries its record asks for
    are there: BitsAndBytes for the records flagged [requires_bnb], Optimum
    and one GPTQ backend for those flagged [requires_gptq_deps].  The
    record is the table's. *)
Theorem MODEL_CONFIGS_spec `{Env} (m : pystr) (cfg : ModelConfig) :
  dict_get MODEL_CONFIGS m = Some cfg
  <-> dict_get ALL_MODEL_CONFIGS m = Some cfg
      /\ hidream_classes_loaded = true
      /\ (requires_bnb cfg = true -> bnb_available = true)
      /\ (requires_gptq_deps cfg = true ->
          optimum_available = true
          /\ (gptqmodel_available = true \/ autogptq_available = true)).
Proof.
  rewrite MODEL_CONFIGS_lookup. unfold gptq_support_available.
  destruct hidream_classes_loaded.
  2:{ split; [done|]. by intros (_ & ? & _). }
  destruct (dict_get ALL_MODEL_CONFIGS m) as [c|].
  2:{ split; [done|]. by intros (? & _). }
  destruct (requires_bnb c) eqn:Eb, bnb_available eqn:Ebnb;
    destruct (requires_gptq_deps c) eqn:Eg, optimum_available eqn:Eo,
      gptqmodel_available eqn:E1, autogptq_available eqn:E2;
    cbn [negb andb orb];
    (split;
     [intros [= <-]; rewrite ?Eb, ?Eg; repeat split; auto; congruence
     |intros ([= <-] & _ & Hb & Hg); rewrite ?Eb, ?Eg in *;
      try reflexivity;
      first [ by specialize (Hb eq_refl)
            | destruct (Hg eq_refl) as [? [?|?]]; congruence ]]).
Qed.

(** ** A fresh load, call by call *)

Lemma first_failure_cons w st sites :
  first_failure w (st :: sites)
  = if returns w st then first_failure w sites else Some st.
Proof. unfold first_failure. cbn [find]. by destruct (returns w st). Qed.

Lemma MODEL_CONFIGS_In `{Env} m cfg :
  dict_get MODEL_CONFIGS m = Some cfg ->
  In (m, cfg) ALL_MODEL_CONFIGS
  /\ hidream_classes_loaded = true
  /\ (is_nf4 cfg = false -> bnb_available = true)
  /\ (is_nf4 cfg = true -> gptqmodel_available || autogptq_available = true)
  /\ bool_decide (scheduler_class cfg ∈ available_schedulers) = true.
Proof.
  rewrite MODEL_CONFIGS_lookup. unfold available_schedulers.
  destruct hidream_classes_loaded; [|done].
  destruct (dict_get ALL_MODEL_CONFIGS m) as [c|] eqn:Hall; [|done].
  apply dict_get_In in Hall.
  destruct (ALL_MODEL_CONFIGS_facts _ _ Hall) as (Hb & Hg & Hs & _).
  rewrite Hb, Hg. unfold gptq_support_available.
  destruct (is_nf4 c) eqn:Hnf, bnb_available, optimum_available,
    (gptqmodel_available || autogptq_available);
    cbn [negb andb orb]; intros [= <-]; repeat split; auto; congruence.
Qed.

(** The load of a configured record is the run of its calls: it stops at
    the first one that does not return, and otherwise appends the
    assembled pipeline to the store. *)
Lemma load_models_fresh_spec `{Env} w m a cfg s :
  dict_get MODEL_CONFIGS m = Some cfg ->
  load_models_fresh w m a cfg s = fresh_load w cfg a s.
Proof.
  intros Hm.
  destruct (MODEL_CONFIGS_In _ _ Hm) as (_ & Hcls & Hbnb & Hgptq & Hsch).
  unfold load_models_fresh, fresh_load, loading_sites,
    get_scheduler_instance. cbv zeta.
  fold (llama_model_name cfg a).
  rewrite Hsch. unfold available_schedulers. rewrite Hcls.
  destruct (is_nf4 cfg) eqn:Hnf.
  - specialize (Hgptq eq_refl). rewrite !ret_bind.
    cbn [app]. rewrite first_failure_cons, call_bind.
    destruct (returns w AutoTokenizer_from_pretrained); [|done].
    rewrite first_failure_cons.
    assert (forall (k : unit -> M handle) s0,
      (try_except
         (if gptqmodel_available
          then call w AutoModelForCausalLM_from_pretrained
          else if autogptq_available
          then call w AutoGPTQForCausalLM_from_pretrained
          else raise (ImportError (U "No supported GPTQModel backend for INT4/NF4 (need transformers.GPTQConfig or auto_gptq).")))
         (fun e => raise e) ≫= k) s0
      = if returns w (if gptqmodel_available
                      then AutoModelForCausalLM_from_pretrained
                      else AutoGPTQForCausalLM_from_pretrained)
        then k tt s0
        else (s0, Raise (LibraryError
                           (if gptqmodel_available
                            then AutoModelForCausalLM_from_pretrained
                            else AutoGPTQForCausalLM_from_pretrained)))) as Hte.
    { intros k s0. unfold try_except, mbind, M_bind, call, raise.
      destruct gptqmodel_available.
      - by destruct (returns w AutoModelForCausalLM_from_pretrained).
      - destruct autogptq_available; [|done].
        by destruct (returns w AutoGPTQForCausalLM_from_pretrained). }
    rewrite Hte. clear Hte.
    destruct (returns w _); [|done].
    cbn [andb].
    destruct accelerate_available; cbn [app];
      rewrite ?ret_bind, ?first_failure_cons, ?call_bind;
      repeat (rewrite ?bind_assoc, ?first_failure_cons, ?call_bind, ?ret_bind;
              destruct (returns w _); [|done]).
    all: unfold first_failure; cbn [find];
      unfold new_pipe, setattr, mbind, M_bind, mret, M_ret;
      cbn [with_heap heap _model_cache];
      rewrite lookup_app_r by lia; rewrite Nat.sub_diag;
      cbn [lookup list_lookup];
      rewrite insert_app_r_alt by lia; rewrite Nat.sub_diag;
      reflexivity.
  - rewrite (Hbnb eq_refl). rewrite !ret_bind.
    cbn [app andb].
    repeat (rewrite ?bind_assoc, ?first_failure_cons, ?call_bind, ?ret_bind;
            destruct (returns w _); [|done]).
    unfold first_failure; cbn [find];
      unfold new_pipe, setattr, mbind, M_bind, mret, M_ret;
      cbn [with_heap heap _model_cache];
      rewrite lookup_app_r by lia; rewrite Nat.sub_diag;
      cbn [lookup list_lookup];
      rewrite insert_app_r_alt by lia; rewrite Nat.sub_diag;
      reflexivity.
Qed.

Lemma load_models_spec `{Env} w m a cfg s :
  dict_get MODEL_CONFIGS m = Some cfg ->
  load_models w m a s
  = match _model_cache s !! cache_key m a with
    | Some (Some l, c) =>
      if loader_valid s (Some l, c) then (s, Ok (l, cfg))
      else match fresh_load w cfg a
                   (with_cache (delete (cache_key m a) (_model_cache s)) s)
           with
           | (s2, Ok l') => (s2, Ok (l', cfg))
           | (s2, Raise e) => (s2, Raise e)
           end
    | Some (None, c) =>
      match fresh_load w cfg a
              (with_cache (delete (cache_key m a) (_model_cache s)) s)
      with
      | (s2, Ok l') => (s2, Ok (l', cfg))
      | (s2, Raise e) => (s2, Raise e)
      end
    | None =>
      match fresh_load w cfg a s with
      | (s2, Ok l') => (s2, Ok (l', cfg))
      | (s2, Raise e) => (s2, Raise e)
      end
    end.
Proof.
  intros Hm. unfold load_models. rewrite Hm.
  destruct (MODEL_CONFIGS_sound _ _ Hm) as (-> & -> & -> & _).
  cbn [negb]. unfold mbind at 1, M_bind at 1.
  rewrite load_models_cached_spec.
  destruct (_model_cache s !! cache_key m a) as [[[l|] c]|] eqn:E.
  - destruct (loader_valid s (Some l, c)) eqn:V; [done|].
    unfold mbind, M_bind. rewrite (load_models_fresh_spec _ _ _ _ _ Hm).
    by destruct (fresh_load _ _ _ _) as [s2 [l'|e]].
  - change (loader_valid s (None, c)) with false. cbv iota.
    unfold mbind, M_bind. rewrite (load_models_fresh_spec _ _ _ _ _ Hm).
    by destruct (fresh_load _ _ _ _) as [s2 [l'|e]].
  - unfold mbind, M_bind. rewrite (load_models_fresh_spec _ _ _ _ _ Hm).
    by destruct (fresh_load _ _ _ _) as [s2 [l'|e]].
Qed.

(** The ways a fresh load from [s1], a state with the heap of [s] and a
    cache inside the one of [s], can end. *)
Lemma fresh_load_cases `{Env} w cfg a s1 :
  (exists st, first_failure w (loading_sites cfg) = Some st
              /\ returns w st = false
              /\ fresh_load w cfg a s1 = (s1, Raise (LibraryError st)))
  \/ (first_failure w (loading_sites cfg) = None
      /\ fresh_load w cfg a s1
         = (with_heap (heap s1 ++ [loaded_pipe cfg a]) s1,
            Ok (length (heap s1)))).
Proof.
  unfold fresh_load.
  destruct (first_failure w (loading_sites cfg)) as [st|] eqn:E.
  - left. exists st. split; [done|]. split; [|done].
    unfold first_failure in E. apply find_some in E as [_ E].
    by destruct (returns w st).
  - by right.
Qed.

(** X2.  A call of [load_models] can fail in three ways only: the HiDream
    classes were not imported (ImportError), the model type is not
    configured (ValueError), or one of the third-party calls of a fresh
    load did not return, in which case the exception is the one of the
    first such call.  The dependency guards after the model-type test, the
    "BNB config required", "No supported GPTQModel backend" and scheduler
    lookup errors cannot occur for a configured model type.  The object
    store is as before the call. *)
Theorem load_models_failure_causes `{Env} (w : World) (m : pystr)
    (a : bool) (s s' : State) (e : exn) :
  load_models w m a s = (s', Raise e) ->
  heap s' = heap s
  /\ ((hidream_classes_loaded = false
       /\ e = ImportError
                (U "Cannot load models: HiDream classes failed to import."))
      \/ (hidream_classes_loaded = true
          /\ dict_get MODEL_CONFIGS m = None
          /\ e = ValueError (U "Unknown or incompatible model_type: " ++ m))
      \/ (exists cfg st,
            dict_get MODEL_CONFIGS m = Some cfg
            /\ first_failure w (loading_sites cfg) = Some st
            /\ returns w st = false
            /\ e = LibraryError st)).
Proof.
  destruct (dict_get MODEL_CONFIGS m) as [cfg|] eqn:Hm.
  - rewrite (load_models_spec _ _ _ _ _ Hm).
    assert (forall s1, heap s1 = heap s ->
      match fresh_load w cfg a s1 with
      | (s2, Ok l') => (s2, Ok (l', cfg))
      | (s2, Raise e0) => (s2, Raise e0)
      end = (s', Raise e) ->
      heap s' = heap s
      /\ exists st, first_failure w (loading_sites cfg) = Some st
                    /\ returns w st = false /\ e = LibraryError st) as Hf.
    { intros s1 Hh.
      destruct (fresh_load_cases w cfg a s1) as [(st & F & R & ->)|[_ ->]];
        [|done].
      intros [= <- <-]. eauto. }
    intros Hl.
    assert (heap s' = heap s
            /\ exists st, first_failure w (loading_sites cfg) = Some st
                          /\ returns w st = false /\ e = LibraryError st)
      as [Hh (st & F & R & ->)].
    { destruct (_model_cache s !! cache_key m a) as [[[l|] c]|].
      - destruct (loader_valid s (Some l, c)); [done|].
        refine (Hf _ _ Hl); reflexivity.
      - refine (Hf _ _ Hl); reflexivity.
      - refine (Hf _ _ Hl); reflexivity. }
    split; [done|]. right. right. by exists cfg, st.
  - rewrite (load_models_not_configured _ _ _ _ Hm).
    destruct hidream_classes_loaded; intros [= <- <-]; split; auto.
Qed.

Lemma load_models_failure_causes_witness :
  heap empty_state = heap empty_state
  /\ ((@hidream_classes_loaded env_full = false
       /\ LibraryError AutoTokenizer_from_pretrained
          = ImportError
              (U "Cannot load models: HiDream classes failed to import."))
      \/ (@hidream_classes_loaded env_full = true
          /\ dict_get (@MODEL_CONFIGS env_full) (U "fast") = None
          /\ LibraryError AutoTokenizer_from_pretrained
             = ValueError (U "Unknown or incompatible model_type: "
                             ++ U "fast"))
      \/ (exists cfg st,
            dict_get (@MODEL_CONFIGS env_full) (U "fast") = Some cfg
            /\ first_failure world_down (@loading_sites env_full cfg)
               = Some st
            /\ returns world_down st = false
            /\ LibraryError AutoTokenizer_from_pretrained
               = LibraryError st)).
Proof.
  apply (@load_models_failure_causes env_full world_down (U "fast") false
           empty_state empty_state
           (LibraryError AutoTokenizer_from_pretrained)).
  vm_compute. reflexivity.
Defined.

(** X3.  [load_models] never adds an entry to the cache and never changes
    one: whatever is cached afterwards was cached before.  It leaves the
    object store alone unless every call of a fresh load returned; then
    it appends exactly one pipeline, assembled from the record of the
    model type, and returns its handle with that record. *)
Theorem load_models_effect `{Env} (w : World) (m : pystr) (a : bool)
    (s : State) :
  let out := load_models w m a s in
  (forall k v, _model_cache out.1 !! k = Some v ->
               _model_cache s !! k = Some v)
  /\ (heap out.1 = heap s
      \/ (exists cfg,
            dict_get MODEL_CONFIGS m = Some cfg
            /\ first_failure w (loading_sites cfg) = None
            /\ out.2 = Ok (length (heap s), cfg)
            /\ heap out.1 = heap s ++ [loaded_pipe cfg a])).
Proof.
  cbv zeta.
  destruct (dict_get MODEL_CONFIGS m) as [cfg|] eqn:Hm.
  2:{ rewrite (load_models_not_configured _ _ _ _ Hm). cbn [fst]. auto. }
  rewrite (load_models_spec _ _ _ _ _ Hm).
  assert (forall s1,
    heap s1 = heap s ->
    (forall k v, _model_cache s1 !! k = Some v ->
                 _model_cache s !! k = Some v) ->
    let out := match fresh_load w cfg a s1 with
               | (s2, Ok l') => (s2, Ok (l', cfg))
               | (s2, Raise e0) => (s2, Raise e0)
               end in
    (forall k v, _model_cache out.1 !! k = Some v ->
                 _model_cache s !! k = Some v)
    /\ (heap out.1 = heap s
        \/ (exists cfg0,
              Some cfg = Some cfg0
              /\ first_failure w (loading_sites cfg0) = None
              /\ out.2 = Ok (length (heap s), cfg0)
              /\ heap out.1 = heap s ++ [loaded_pipe cfg0 a]))) as Hf.
  { intros s1 Hh Hc. cbv zeta.
    destruct (fresh_load_cases w cfg a s1) as [(st & F & R & ->)|[F ->]];
      cbn [fst snd with_heap heap _model_cache].
    - auto.
    - split; [done|]. right. exists cfg. rewrite Hh. auto. }
  assert (forall k v,
            delete (cache_key m a) (_model_cache s) !! k = Some v ->
            _model_cache s !! k = Some v) as Hdel.
  { intros k v Hk. apply lookup_delete_Some in Hk. tauto. }
  destruct (_model_cache s !! cache_key m a) as [[[l|] c]|].
  - destruct (loader_valid s (Some l, c)).
    + cbn [fst]. auto.
    + by apply Hf.
  - by apply Hf.
  - by apply Hf.
Qed.

(** ** The model choice offered by [INPUT_TYPES] *)



(** ** The steps after the pipeline is in hand *)

Lemma torch_zeros_eq h wd s :
  torch_zeros [1; h; wd; 3] s = (s, blank_result h wd).
Proof.
  unfold torch_zeros, blank_result. cbn [forallb].
  change (0 <=? 1) with true. change (0 <=? 3) with true.
  cbn [andb]. rewrite andb_true_r.
  by destruct ((0 <=? h) && (0 <=? wd)).
Qed.

Lemma run_pipeline_eq w h wd s :
  run_pipeline w h wd s = (s, pipeline_result w h wd).
Proof.
  unfold run_pipeline, pipeline_result, try_finally, try_except, call.
  cbv zeta. unfold mbind, M_bind.
  destruct (returns w pipeline_call).
  - cbn [mret M_ret].
    destruct (returns w progress_update); [|reflexivity].
    cbn [mret M_ret].
    repeat match goal with
           | |- context [match ?x with _ => _ end] => destruct x
           end; first [reflexivity|apply torch_zeros_eq].
  - cbn [raise]. rewrite torch_zeros_eq.
    destruct (blank_result h wd) as [b|e];
      by destruct (returns w progress_update).
Qed.

Lemma pipeline_result_returns w h wd o :
  pipeline_result w h wd = Ok o ->
  (o = zeros [1; h; wd; 3] /\ 0 <= h /\ 0 <= wd)
  \/ (exists ih iw,
        returns w pipeline_call = true
        /\ output_shape w = Some [1; ih; iw; 3]
        /\ o = image [1; ih; iw; 3]).
Proof.
  assert (blank_result h wd = Ok o ->
          o = zeros [1; h; wd; 3] /\ 0 <= h /\ 0 <= wd) as Hb.
  { unfold blank_result.
    destruct (0 <=? h) eqn:E1; [|done]. destruct (0 <=? wd) eqn:E2; [|done].
    cbn [andb]. intros [= <-]. split; [done|]. lia. }
  unfold pipeline_result.
  destruct (returns w progress_update); [|done].
  destruct (returns w pipeline_call); [|by left; apply Hb].
  destruct (output_shape w) as [sh|]; [|by left; apply Hb].
  repeat match goal with
         | |- context [match ?x with _ => _ end] => destruct x
         end; try (by left; apply Hb).
  intros [= <-]. right. by eauto.
Qed.

Lemma update_scheduler_spec `{Env} w l p choice cls sh s :
  hidream_classes_loaded = true ->
  bool_decide (cls ∈ available_schedulers) = true ->
  heap s !! l = Some p ->
  update_scheduler w l choice cls sh s
  = if printable choice then
      match chosen_scheduler choice cls sh with
      | None => (s, Ok tt)
      | Some sc =>
        if returns w scheduler_replace
        then (with_heap (<[l := set_slot scheduler (Obj sc) p]> (heap s)) s,
              Ok tt)
        else (s, Raise (LibraryError scheduler_replace))
      end
    else (s, Raise UnicodeEncodeError).
Proof.
  intros Hcls Hsch Hl.
  unfold update_scheduler, chosen_scheduler, make_scheduler,
    get_scheduler_instance.
  rewrite Hsch. clear Hsch. unfold available_schedulers. rewrite Hcls.
  destruct (bool_decide (choice = U "Default for model")) eqn:Ed;
    cbn [negb].
  { replace (printable choice) with true
      by (apply bool_decide_eq_true in Ed; rewrite Ed; symmetry;
          vm_compute; reflexivity).
    rewrite bind_assoc, call_bind.
    destruct (returns w scheduler_replace); [|reflexivity].
    rewrite ret_bind. by apply setattr_ok. }
  rewrite print_bind. destruct (printable choice); [|reflexivity].
  destruct (bool_decide (choice = U "UniPC")).
  { rewrite bind_assoc, ret_bind, bind_assoc, call_bind.
    destruct (returns w scheduler_replace); [|reflexivity].
    rewrite ret_bind. by apply setattr_ok. }
  destruct (bool_decide (choice = U "Euler")).
  { rewrite bind_assoc, ret_bind, bind_assoc, call_bind.
    destruct (returns w scheduler_replace); [|reflexivity].
    rewrite ret_bind. by apply setattr_ok. }
  destruct (bool_decide (choice = U "Karras Euler")).
  { rewrite bind_assoc, ret_bind, bind_assoc, call_bind.
    destruct (returns w scheduler_replace); [|reflexivity].
    rewrite ret_bind. by apply setattr_ok. }
  destruct (bool_decide (choice = U "Karras Exponential")); [|reflexivity].
  rewrite bind_assoc, ret_bind, bind_assoc, call_bind.
  destruct (returns w scheduler_replace); [|reflexivity].
  rewrite ret_bind. by apply setattr_ok.
Qed.

Lemma generation_spec `{Env} w l p choice cls sh h wd s :
  hidream_classes_loaded = true ->
  bool_decide (cls ∈ available_schedulers) = true ->
  heap s !! l = Some p ->
  generation w l choice cls sh h wd s
  = generation_result w l p choice cls sh h wd s.
Proof.
  intros Hcls Hsch Hl. unfold generation, generation_result.
  unfold mbind at 1, M_bind at 1.
  rewrite (update_scheduler_spec _ _ _ _ _ _ _ Hcls Hsch Hl).
  destruct (printable choice); [|reflexivity].
  destruct (chosen_scheduler choice cls sh) as [sc|].
  - destruct (returns w scheduler_replace); [|reflexivity].
    rewrite call_bind. destruct (returns w generator_setup); [|reflexivity].
    apply run_pipeline_eq.
  - rewrite call_bind. destruct (returns w generator_setup); [|reflexivity].
    apply run_pipeline_eq.
Qed.

(** Whatever the pipeline handle and the record, the step changes at most
    the scheduler of the object behind the handle. *)
Lemma generation_state `{Env} w l choice cls sh h wd s :
  let s' := (generation w l choice cls sh h wd s).1 in
  _model_cache s' = _model_cache s
  /\ (heap s' = heap s
      \/ exists p sc, heap s !! l = Some p
                      /\ heap s' = <[l := set_slot scheduler (Obj sc) p]>
                                     (heap s)).
Proof.
  cbv zeta. split; [apply keeps_cache_generation|].
  unfold generation.
  assert (forall s1 : State,
            ((call w generator_setup ;; run_pipeline w h wd) s1).1 = s1)
    as Hrest.
  { intros s1. rewrite call_bind.
    destruct (returns w generator_setup); [|done].
    by rewrite run_pipeline_eq. }
  assert (forall (sc : component) (m : M component),
            stateless m ->
            let s' := ((new_scheduler ← m;
                        setattr (Some l) scheduler (Obj new_scheduler)) ;;
                       call w generator_setup ;;
                       run_pipeline w h wd) s in
            heap s'.1 = heap s
            \/ exists p sc, heap s !! l = Some p
                 /\ heap s'.1 = <[l := set_slot scheduler (Obj sc) p]>
                                   (heap s)) as Hset.
  { intros _ m [[sc|e] Hm]; cbv zeta.
    - rewrite bind_assoc. rewrite (bind_ok _ _ _ _ _ (Hm s)).
      destruct (heap s !! l) as [p|] eqn:Hl.
      + rewrite (bind_ok _ _ _ _ _ (setattr_ok _ _ _ _ _ Hl)).
        rewrite Hrest. right. by exists p, sc.
      + left. erewrite bind_raise; [reflexivity|].
        unfold setattr. by rewrite Hl.
    - rewrite bind_assoc. rewrite (bind_raise _ _ _ _ _ (Hm s)). by left. }
  unfold update_scheduler.
  destruct (negb _).
  2:{ apply (Hset (Tokenizer [])), stateless_get_scheduler_instance. }
  rewrite bind_assoc, print_bind. destruct (printable choice); [|by left].
  repeat match goal with
         | |- context [if ?b then _ else _] => destruct b
         end;
    try (apply (Hset (Tokenizer []));
         first [apply stateless_make_scheduler
               |apply stateless_get_scheduler_instance]).
  rewrite ret_bind, Hrest. by left.
Qed.

(** ** One call of [generate], as an equation *)

Lemma run_generate_eq `{PyRuntime} `{Env} w r s :
  run_generate w r s
  = if reaches_cache w r
    then acquire_then (request_key r) (print_and_load w r)
           (continue_with w r) s
    else (s, if prepared w r then Ok blank_512 else Raise (unprepared r)).
Proof.
  destruct r as [n m a ar sch sq cw ch ih iw].
  unfold run_generate, request_key, reaches_cache, prepared, unprepared,
    print_and_load, run_load_and_cache, continue_with, requested_size.
  cbn [node_of model_type use_alternate_llm aspect_ratio scheduler_choice
       square_resolution custom_width custom_height image_h image_w].
  destruct n.
  - rewrite sampler_generate_eq. unfold request_key. cbn [node_of
      model_type use_alternate_llm].
    destruct (HiDreamSampler.parse_aspect_ratio ar) as [[w0 h0]|e] eqn:Ep.
    + rewrite of_result_ok, print_bind.
      destruct (printable ar); [|reflexivity]. cbn [andb].
      by destruct (no_models m).
    + apply parse_aspect_ratio_raises in Ep as [-> ->]. reflexivity.
  - rewrite advanced_generate_eq. unfold request_key. cbn [node_of
      model_type use_alternate_llm].
    unfold mbind at 1, M_bind at 1. rewrite advanced_dimensions_spec.
    destruct (contains (U "Square Reso") ar); cbn [orb andb].
    { by destruct (no_models m). }
    destruct (bool_decide (ar = U "Custom")); cbn [orb andb].
    { by destruct (no_models m). }
    destruct (printable ar); [|reflexivity]. cbn [andb].
    destruct (parsed (HiDreamSamplerAdvanced.parse_dimensions ar))
      as [w0 h0].
    by destruct (no_models m).
  - rewrite img2img_generate_eq. unfold request_key. cbn [node_of
      model_type use_alternate_llm]. rewrite call_bind.
    destruct (returns w preprocess_image_ops); [|reflexivity].
    cbn [andb]. by destruct (no_models m).
Qed.

Lemma first_failure_app w l1 l2 :
  first_failure w (l1 ++ l2)
  = match first_failure w l1 with
    | Some st => Some st
    | None => first_failure w l2
    end.
Proof.
  induction l1 as [|st l1 IH]; [done|].
  cbn [app]. rewrite !first_failure_cons. by destruct (returns w st).
Qed.

Lemma loaded_pipe_lookup cfg a s :
  heap (with_heap (heap s ++ [loaded_pipe cfg a]) s) !! length (heap s)
  = Some (loaded_pipe cfg a).
Proof. cbn [with_heap heap]. by apply list_lookup_middle. Qed.

(** The conversion of a pipeline with its four components in place. *)
Lemma convert_loaded w l p s :
  heap s !! l = Some p ->
  (forall a, exists c, get_slot a p = Obj c) ->
  HiDreamImg2Img.convert w l s
  = if returns w HiDreamImageToImagePipeline_init
    then (with_heap (heap s ++ [converted p]) s, Ok (length (heap s)))
    else (s, Raise (LibraryError HiDreamImageToImagePipeline_init)).
Proof.
  intros Hl Hp.
  destruct (Hp scheduler) as [sc Hsc], (Hp text_encoder_4) as [te Hte],
    (Hp tokenizer_4) as [tk Htk], (Hp transformer) as [tr Htr].
  unfold HiDreamImg2Img.convert.
  rewrite (bind_ok _ _ _ _ _ (getattr_obj _ _ _ _ _ Hl Hsc)).
  rewrite (bind_ok _ _ _ _ _ (getattr_obj _ _ _ _ _ Hl Hte)).
  rewrite (bind_ok _ _ _ _ _ (getattr_obj _ _ _ _ _ Hl Htk)).
  rewrite call_bind.
  destruct (returns w HiDreamImageToImagePipeline_init); [|reflexivity].
  erewrite bind_ok by reflexivity.
  assert (forall q, heap (with_heap (heap s ++ [q]) s) !! l = Some p) as Hl2.
  { intros q. cbn [with_heap heap]. rewrite lookup_app_l; [done|].
    by eapply lookup_lt_Some. }
  rewrite (bind_ok _ _ _ _ _ (getattr_obj _ _ _ _ _ (Hl2 _) Htr)).
  erewrite bind_ok.
  2:{ apply setattr_ok. cbn [with_heap heap].
      apply list_lookup_middle. reflexivity. }
  unfold mret, M_ret. cbn [with_heap heap _model_cache].
  f_equal. unfold with_heap. cbn [_model_cache]. f_equal.
  rewrite insert_app_r_alt by lia. rewrite Nat.sub_diag.
  cbn [insert list_insert]. f_equal. f_equal.
  unfold converted.
  cbn [get_slot] in Hsc, Hte, Htk, Htr.
  by rewrite Hsc, Hte, Htk, Htr.
Qed.

Lemma loaded_pipe_slots cfg a x :
  exists c, get_slot x (loaded_pipe cfg a) = Obj c.
Proof. destruct x; cbn; eauto. Qed.

(** The load-and-cache block of a node: the eviction loop empties the
    cache; then the block stores the pipeline of the request when every
    call of the load returns, and otherwise hands back [None] with the
    cache empty. *)
Lemma run_load_and_cache_spec `{Env} w r s :
  exists s2,
    clear_all_cache s = (s2, Ok tt)
    /\ _model_cache s2 = ∅
    /\ match loadable w r with
       | Some cfg =>
         dict_get MODEL_CONFIGS (model_type r) = Some cfg
         /\ run_load_and_cache w r s
            = (stored_state r cfg s2,
               Ok (Some (Some (new_handle r s2), Some cfg)))
       | None =>
         exists s3, _model_cache s3 = ∅
                    /\ run_load_and_cache w r s = (s3, Ok None)
       end.
Proof.
  destruct (clear_all_cache_spec s) as (s2 & Hclear & Hempty & _).
  exists s2. split; [done|]. split; [done|].
  assert (_model_cache s2 !! cache_key (model_type r) (use_alternate_llm r)
          = None) as Hnone by (by rewrite Hempty, lookup_empty).
  destruct r as [n m a ar sch sq cw ch ih iw].
  unfold loadable, run_load_and_cache, stored_state, new_handle,
    new_objects, request_key.
  cbn [node_of model_type use_alternate_llm] in *.
  destruct (dict_get MODEL_CONFIGS m) as [cfg|] eqn:Hm.
  2:{ exists s2. split; [done|].
      pose proof (load_models_not_configured w m a s2 Hm) as Hl.
      destruct n;
        [unfold HiDreamSampler.load_and_cache
        |unfold HiDreamSamplerAdvanced.load_and_cache
        |unfold HiDreamImg2Img.load_and_cache];
        rewrite (bind_ok _ _ _ _ _ Hclear); unfold try_except;
        by rewrite (bind_raise _ _ _ _ _ Hl). }
  pose proof (load_models_spec w m a cfg s2 Hm) as Hl.
  rewrite Hnone in Hl.
  assert (forall key,
    HiDreamSampler.load_and_cache w m a key s
    = match first_failure w (loading_sites cfg) with
      | Some _ => (s2, Ok None)
      | None =>
        ({| _model_cache := {[key := (Some (length (heap s2)), Some cfg)]};
            heap := heap s2 ++ [loaded_pipe cfg a] |},
         Ok (Some (Some (length (heap s2)), Some cfg)))
      end) as Hsampler.
  { intros key. unfold HiDreamSampler.load_and_cache.
    rewrite (bind_ok _ _ _ _ _ Hclear). unfold try_except.
    destruct (fresh_load_cases w cfg a s2) as [(st & F & R & E)|[F E]];
      rewrite E in Hl; rewrite F.
    - by rewrite (bind_raise _ _ _ _ _ Hl).
    - rewrite (bind_ok _ _ _ _ _ Hl).
      unfold cache_setitem, mbind, M_bind, mret, M_ret.
      cbn [with_heap with_cache _model_cache heap]. by rewrite Hempty. }
  destruct n.
  - rewrite app_nil_r, Hsampler.
    destruct (first_failure w (loading_sites cfg)); cbn [is_None]; eauto.
  - rewrite app_nil_r.
    change (HiDreamSamplerAdvanced.load_and_cache w m a)
      with (HiDreamSampler.load_and_cache w m a).
    rewrite Hsampler.
    destruct (first_failure w (loading_sites cfg)); cbn [is_None]; eauto.
  - rewrite first_failure_app.
    unfold HiDreamImg2Img.load_and_cache.
    rewrite (bind_ok _ _ _ _ _ Hclear). unfold try_except.
    destruct (fresh_load_cases w cfg a s2) as [(st & F & R & E)|[F E]];
      rewrite E in Hl; rewrite F.
    + cbn [is_None]. exists s2. split; [done|].
      by rewrite (bind_raise _ _ _ _ _ Hl).
    + rewrite (bind_ok _ _ _ _ _ Hl).
      pose proof (convert_loaded w _ _ _ (loaded_pipe_lookup cfg a s2)
                    (loaded_pipe_slots cfg a)) as Hc.
      rewrite first_failure_cons.
      destruct (returns w HiDreamImageToImagePipeline_init).
      2:{ cbn [is_None]. eexists. split; [|by rewrite (bind_raise _ _ _ _ _ Hc)].
          done. }
      * rewrite (bind_ok _ _ _ _ _ Hc).
        cbn [first_failure find is_None]. split; [done|].
        unfold cache_setitem, mbind, M_bind, mret, M_ret.
        cbn [with_heap with_cache _model_cache heap]. rewrite Hempty.
        rewrite length_app. cbn [length].
        rewrite <- app_assoc. cbn [app].
        by replace (length (heap s2) + 1)%nat with (S (length (heap s2)))
          by lia.
Qed.

Lemma bind_Ok_inv {A B} (m : M A) (f : A -> M B) s s' b :
  (m ≫= f) s = (s', Ok b) ->
  exists s1 a, m s = (s1, Ok a) /\ f a s1 = (s', Ok b).
Proof. unfold mbind, M_bind. destruct (m s) as [s1 [a|e]]; [eauto|done]. Qed.

Lemma generation_returns `{Env} w l choice cls sh h wd s s' o :
  generation w l choice cls sh h wd s = (s', Ok o) ->
  pipeline_result w h wd = Ok o.
Proof.
  unfold generation. intros Hg.
  apply bind_Ok_inv in Hg as (s1 & [] & _ & Hg).
  apply bind_Ok_inv in Hg as (s2 & [] & _ & Hg).
  rewrite run_pipeline_eq in Hg. congruence.
Qed.

Lemma continue_with_returns `{PyRuntime} `{Env} w r l cfg s s' o :
  continue_with w r l cfg s = (s', Ok o) ->
  pipeline_result w (requested_size r).1 (requested_size r).2 = Ok o.
Proof.
  unfold continue_with. destruct (node_of r); intros Hc;
    [apply bind_Ok_inv in Hc as (s1 & [l' cfg'] & _ & Hc)|..];
    by eapply generation_returns.
Qed.

Lemma acquire_then_returns key lac cont s s' o :
  acquire_then key lac cont s = (s', Ok o) ->
  o = blank_512 \/ exists l cfg s1, cont l cfg s1 = (s', Ok o).
Proof.
  unfold acquire_then. intros Ha.
  apply bind_Ok_inv in Ha as (s1 & [pipe config] & _ & Ha).
  apply bind_Ok_inv in Ha as (s2 & loaded & _ & Ha).
  destruct loaded as [[[l|] [cfg|]]|];
    try (left; cbv [mret M_ret] in Ha; congruence).
  right. eauto.
Qed.

Lemma requested_size_floor `{PyRuntime} r :
  node_of r <> Img2Img ->
  (requested_size r).1 mod 64 = 0 /\ (requested_size r).2 mod 64 = 0.
Proof.
  unfold requested_size. destruct (node_of r); [| |done]; intros _.
  - destruct (parsed _) as [w0 h0].
    cbn [fst snd]. split; apply Z.mod_mul; lia.
  - destruct (if contains _ _ then _ else _) as [w0 h0].
    cbn [fst snd]. split; apply Z.mod_mul; lia.
Qed.

(** X5.  Whatever [generate] returns is a tensor of shape [1, h, w, 3]:
    the blank 512x512 image, a blank image of the requested size, or the
    image the pipeline produced.  For the two text-to-image nodes the
    requested height and width are multiples of 64. *)
Theorem generate_output_shape `{PyRuntime} `{Env} (w : World) (r : request)
    (s : State) (out : Output) :
  (run_generate w r s).2 = Ok out ->
  (out = blank_512
   \/ out = zeros [1; (requested_size r).1; (requested_size r).2; 3]
   \/ (exists ih iw,
         returns w pipeline_call = true
         /\ output_shape w = Some [1; ih; iw; 3]
         /\ out = image [1; ih; iw; 3]))
  /\ (node_of r <> Img2Img ->
      (requested_size r).1 mod 64 = 0 /\ (requested_size r).2 mod 64 = 0).
Proof.
  intros Hout. split; [|apply requested_size_floor].
  destruct (run_generate w r s) as [s' res] eqn:E. cbn [snd] in Hout.
  subst res. rewrite run_generate_eq in E.
  destruct (reaches_cache w r).
  - apply acquire_then_returns in E as [->|(l & cfg & s1 & E)]; [by left|].
    apply continue_with_returns in E.
    destruct (pipeline_result_returns _ _ _ _ E)
      as [[-> _]|(ih & iw & ? & ? & ->)].
    + right. by left.
    + right. right. by exists ih, iw.
  - left. destruct (prepared w r); congruence.
Qed.

Lemma generate_output_shape_witness :
  (image [1; 1024; 1024; 3] = blank_512
   \/ image [1; 1024; 1024; 3]
      = zeros [1; (@requested_size cpython sampler_fast).1;
               (@requested_size cpython sampler_fast).2; 3]
   \/ (exists ih iw,
         returns world_ok pipeline_call = true
         /\ output_shape world_ok = Some [1; ih; iw; 3]
         /\ image [1; 1024; 1024; 3] = image [1; ih; iw; 3]))
  /\ (node_of sampler_fast <> Img2Img ->
      (@requested_size cpython sampler_fast).1 mod 64 = 0
      /\ (@requested_size cpython sampler_fast).2 mod 64 = 0).
Proof.
  apply (@generate_output_shape cpython env_full world_ok sampler_fast
           empty_state (image [1; 1024; 1024; 3])).
  vm_compute. reflexivity.
Defined.

(** ** The two paths of a call that reaches the cache *)

Lemma run_generate_run `{PyRuntime} `{Env} w r s :
  reaches_cache w r = true ->
  (exists l cfg,
      _model_cache s !! request_key r = Some (Some l, Some cfg)
      /\ loader_valid s (Some l, Some cfg) = true
      /\ run_generate w r s = continue_with w r l cfg s)
  \/ (~ cached (request_key r) s
      /\ if printable (model_type r)
         then
           exists s2,
             clear_all_cache
               (with_cache (delete (request_key r) (_model_cache s)) s)
             = (s2, Ok tt)
             /\ _model_cache s2 = ∅
             /\ match loadable w r with
                | Some cfg =>
                  dict_get MODEL_CONFIGS (model_type r) = Some cfg
                  /\ run_generate w r s
                     = continue_with w r (new_handle r s2) cfg
                         (stored_state r cfg s2)
                | None =>
                  exists s3, _model_cache s3 = ∅
                             /\ run_generate w r s = (s3, Ok blank_512)
                end
         else
           run_generate w r s
           = (with_cache (delete (request_key r) (_model_cache s)) s,
              Raise UnicodeEncodeError)).
Proof.
  intros Hreach. rewrite run_generate_eq, Hreach.
  assert (~ cached (request_key r) s ->
    if printable (model_type r)
    then
      exists s2,
        clear_all_cache
          (with_cache (delete (request_key r) (_model_cache s)) s)
        = (s2, Ok tt)
        /\ _model_cache s2 = ∅
        /\ match loadable w r with
           | Some cfg =>
             dict_get MODEL_CONFIGS (model_type r) = Some cfg
             /\ acquire_then (request_key r) (print_and_load w r)
                  (continue_with w r) s
                = continue_with w r (new_handle r s2) cfg
                    (stored_state r cfg s2)
           | None =>
             exists s3, _model_cache s3 = ∅
                        /\ acquire_then (request_key r)
                             (print_and_load w r) (continue_with w r) s
                           = (s3, Ok blank_512)
           end
    else
      acquire_then (request_key r) (print_and_load w r)
        (continue_with w r) s
      = (with_cache (delete (request_key r) (_model_cache s)) s,
         Raise UnicodeEncodeError)) as Hmiss.
  { intros Hn. unfold acquire_then, print_and_load.
    rewrite (bind_ok _ _ _ _ _ (check_cache_not_cached _ _ Hn)).
    cbn [is_None]. rewrite bind_assoc, print_bind.
    destruct (printable (model_type r)); [|reflexivity].
    destruct (run_load_and_cache_spec w r
                (with_cache (delete (request_key r) (_model_cache s)) s))
      as (s2 & Hclear & Hempty & Hload).
    exists s2. split; [done|]. split; [done|].
    destruct (loadable w r) as [cfg|].
    - destruct Hload as [Hm Hload]. split; [done|].
      by rewrite (bind_ok _ _ _ _ _ Hload).
    - destruct Hload as (s3 & He & Hload). exists s3. split; [done|].
      by rewrite (bind_ok _ _ _ _ _ Hload). }
  destruct (_model_cache s !! request_key r) as [[[l|] [cfg|]]|] eqn:Hk;
    try (destruct (loader_valid s (Some l, Some cfg)) eqn:Hv);
    [left; exists l, cfg; split; [done|]; split; [done|];
     by apply acquire_then_hit
    |right..];
    (assert (~ cached (request_key r) s) as Hn
       by (intros (l' & cfg' & Hk' & Hv'); congruence));
    (split; [done|]); by apply Hmiss.
Qed.


(** With a usable entry under the key of the request, whose record is a
    configured one, the rest of [generate] is the scheduler update, the
    generator and the pipeline; the first node first asks [load_models]
    again, which rejects a model type that is not configured. *)
Lemma continue_with_spec `{PyRuntime} `{Env} w r l cfg m' p s :
  dict_get MODEL_CONFIGS m' = Some cfg ->
  _model_cache s !! request_key r = Some (Some l, Some cfg) ->
  loader_valid s (Some l, Some cfg) = true ->
  heap s !! l = Some p ->
  continue_with w r l cfg s
  = match node_of r, dict_get MODEL_CONFIGS (model_type r) with
    | Sampler, None =>
      (s, Raise (ValueError (U "Unknown or incompatible model_type: "
                               ++ model_type r)))
    | Sampler, Some cfg_m =>
      generation_result w l p (scheduler_choice r) (scheduler_class cfg_m)
        (shift cfg) (requested_size r).1 (requested_size r).2 s
    | _, _ =>
      generation_result w l p (scheduler_choice r) (scheduler_class cfg)
        (shift cfg) (requested_size r).1 (requested_size r).2 s
    end.
Proof.
  intros Hm' Hk Hv Hl.
  destruct (MODEL_CONFIGS_In _ _ Hm') as (_ & Hcls & _ & _ & Hsch).
  unfold continue_with, request_key in *.
  destruct (node_of r).
  - destruct (dict_get MODEL_CONFIGS (model_type r)) as [cfg_m|] eqn:Hm.
    + rewrite (bind_ok _ _ s s (l, cfg_m)).
      2:{ rewrite (load_models_spec _ _ _ _ _ Hm), Hk. by rewrite Hv. }
      destruct (MODEL_CONFIGS_In _ _ Hm) as (_ & _ & _ & _ & Hsch_m).
      by apply generation_spec.
    + erewrite bind_raise; [reflexivity|].
      rewrite (load_models_not_configured _ _ _ _ Hm). by rewrite Hcls.
  - destruct (dict_get MODEL_CONFIGS (model_type r));
      by apply generation_spec.
  - destruct (dict_get MODEL_CONFIGS (model_type r));
      by apply generation_spec.
Qed.

Lemma stored_state_lookup r cfg s2 :
  heap (stored_state r cfg s2) !! new_handle r s2
  = Some (pipe_for (node_of r) cfg (use_alternate_llm r)).
Proof.
  unfold stored_state, new_handle, new_objects, pipe_for. cbn [heap].
  destruct (node_of r); try by apply list_lookup_middle.
  rewrite lookup_app_r by lia.
  by replace (S (length (heap s2)) - length (heap s2))%nat with 1%nat by lia.
Qed.

Lemma stored_state_key r cfg s2 :
  _model_cache (stored_state r cfg s2) !! request_key r
  = Some (Some (new_handle r s2), Some cfg).
Proof. unfold stored_state. cbn [_model_cache]. apply lookup_singleton_eq. Qed.

Lemma stored_state_valid r cfg s2 :
  loader_valid (stored_state r cfg s2) (Some (new_handle r s2), Some cfg)
  = true.
Proof.
  unfold loader_valid, slot_of. cbn [fst].
  rewrite stored_state_lookup. by destruct (node_of r).
Qed.

Lemma generation_result_state w l p choice cls sh h wd s :
  let s' := (generation_result w l p choice cls sh h wd s).1 in
  s' = s
  \/ exists sc, chosen_scheduler choice cls sh = Some sc
                /\ returns w scheduler_replace = true
                /\ s' = with_heap (<[l := set_slot scheduler (Obj sc) p]>
                                     (heap s)) s.
Proof.
  cbv zeta. unfold generation_result.
  destruct (printable choice); [|by left].
  destruct (chosen_scheduler choice cls sh) as [sc|].
  - destruct (returns w scheduler_replace) eqn:R.
    + right. exists sc. by destruct (returns w generator_setup).
    + by left.
  - left. by destruct (returns w generator_setup).
Qed.









(** ** What a miss leaves *)

Lemma same_build_refl p : (exists c, v_scheduler p = Obj c) -> same_build p p.
Proof. intros Hc. by repeat split. Qed.

Lemma same_build_set_scheduler p q sc :
  same_build p q -> same_build (set_slot scheduler (Obj sc) p) q.
Proof.
  intros (? & ? & ? & ? & _). unfold same_build. cbn. by eauto 10.
Qed.

Lemma pipe_for_scheduler n cfg a : exists c, v_scheduler (pipe_for n cfg a) = Obj c.
Proof. destruct n; cbn; eauto. Qed.


Lemma continue_with_configured `{PyRuntime} `{Env} w r l cfg p s :
  dict_get MODEL_CONFIGS (model_type r) = Some cfg ->
  _model_cache s !! request_key r = Some (Some l, Some cfg) ->
  loader_valid s (Some l, Some cfg) = true ->
  heap s !! l = Some p ->
  continue_with w r l cfg s
  = generation_result w l p (scheduler_choice r) (scheduler_class cfg)
      (shift cfg) (requested_size r).1 (requested_size r).2 s.
Proof.
  intros Hm Hk Hv Hl.
  rewrite (continue_with_spec _ _ _ _ _ _ _ Hm Hk Hv Hl), Hm.
  by destruct (node_of r).
Qed.



(** ** What a hit does *)

Lemma generation_world_eq `{Env} w1 w2 l choice cls sh h wd :
  returns w1 scheduler_replace = returns w2 scheduler_replace ->
  returns w1 generator_setup = returns w2 generator_setup ->
  returns w1 pipeline_call = returns w2 pipeline_call ->
  returns w1 progress_update = returns w2 progress_update ->
  output_shape w1 = output_shape w2 ->
  generation w1 l choice cls sh h wd = generation w2 l choice cls sh h wd.
Proof.
  intros H1 H2 H3 H4 H5.
  unfold generation, update_scheduler, make_scheduler,
    get_scheduler_instance, run_pipeline, call.
  by rewrite H1, H2, H3, H4, H5.
Qed.

Lemma load_models_usable `{Env} w m a l c s :
  _model_cache s !! cache_key m a = Some (Some l, c) ->
  loader_valid s (Some l, c) = true ->
  load_models w m a s
  = match dict_get MODEL_CONFIGS m with
    | Some cfg => (s, Ok (l, cfg))
    | None =>
      (s, Raise (if hidream_classes_loaded
                 then ValueError (U "Unknown or incompatible model_type: "
                                    ++ m)
                 else ImportError
                        (U "Cannot load models: HiDream classes failed to import.")))
    end.
Proof.
  intros Hk Hv. destruct (dict_get MODEL_CONFIGS m) as [cfg|] eqn:Hm.
  - by rewrite (load_models_spec _ _ _ _ _ Hm), Hk, Hv.
  - by apply load_models_not_configured.
Qed.

(** X8.  A call that finds a usable entry under its key loads nothing: its
    result and the state it leaves are the same whatever the model-loading
    library calls would do.  They depend on the outside world only through
    the image preparation, the scheduler replacement, the generator setup,
    the pipeline call with its output and the progress bar update. *)
Theorem hit_ignores_loading `{PyRuntime} `{Env} (w1 w2 : World)
    (r : request) (s : State) :
  cached (request_key r) s ->
  returns w1 preprocess_image_ops = returns w2 preprocess_image_ops ->
  returns w1 scheduler_replace = returns w2 scheduler_replace ->
  returns w1 generator_setup = returns w2 generator_setup ->
  returns w1 pipeline_call = returns w2 pipeline_call ->
  returns w1 progress_update = returns w2 progress_update ->
  output_shape w1 = output_shape w2 ->
  run_generate w1 r s = run_generate w2 r s.
Proof.
  intros (l & cfg & Hk & Hv) Hp Hs Hg Hc Hu Ho.
  rewrite !run_generate_eq.
  assert (prepared w1 r = prepared w2 r) as Hprep
      by (unfold prepared; by rewrite Hp).
  assert (reaches_cache w1 r = reaches_cache w2 r) as ->
      by (unfold reaches_cache; by rewrite Hprep).
  rewrite Hprep. destruct (reaches_cache w2 r); [|done].
  rewrite !(acquire_then_hit _ _ _ _ _ _ Hk Hv).
  unfold continue_with.
  pose proof (generation_world_eq w1 w2 l (scheduler_choice r)) as Hgen.
  unfold request_key in Hk.
  destruct (node_of r).
  - unfold mbind, M_bind.
    rewrite !(load_models_usable _ _ _ _ _ _ Hk Hv).
    destruct (dict_get MODEL_CONFIGS (model_type r)) as [cfg_m|]; [|done].
    by rewrite Hgen.
  - by rewrite Hgen.
  - by rewrite Hgen.
Qed.

Lemma hit_ignores_loading_witness :
  @run_generate cpython env_full world_ok sampler_fast after_sampler_fast
  = @run_generate cpython env_full world_offline sampler_fast
      after_sampler_fast.
Proof.
  apply (@hit_ignores_loading cpython env_full world_ok world_offline
           sampler_fast after_sampler_fast); try reflexivity.
  exists 0%nat.
  eexists. split; vm_compute; reflexivity.
Defined.




(** ** The cache in the states the module can reach *)

Lemma cache_sound_empty `{Env} s : _model_cache s = ∅ -> cache_sound s.
Proof. intros He k e Hk. by rewrite He, lookup_empty in Hk. Qed.

Lemma cache_sound_sub `{Env} s s' :
  (forall k e, _model_cache s' !! k = Some e -> _model_cache s !! k = Some e) ->
  (forall l p, heap s !! l = Some p -> heap s' !! l = Some p) ->
  cache_sound s -> cache_sound s'.
Proof.
  intros Hc Hh Hs k e Hk.
  destruct (Hs k e (Hc _ _ Hk)) as (n & m & a & cfg & l & p & ? & ? & ? & Hl & ?).
  exists n, m, a, cfg, l, p. do 3 (split; [assumption|]). by split; [apply Hh|].
Qed.

Lemma cache_sound_set_scheduler `{Env} s l p sc :
  cache_sound s -> heap s !! l = Some p ->
  cache_sound (with_heap (<[l := set_slot scheduler (Obj sc) p]> (heap s)) s).
Proof.
  intros Hs Hl k e Hk. cbn [with_heap _model_cache] in Hk.
  destruct (Hs k e Hk) as (n & m & a & cfg & l0 & p0 & ? & ? & ? & Hl0 & Hb).
  destruct (decide (l0 = l)) as [->|Hne].
  - exists n, m, a, cfg, l, (set_slot scheduler (Obj sc) p).
    do 3 (split; [assumption|]). split.
    + cbn [with_heap heap]. apply list_lookup_insert_eq.
      by eapply lookup_lt_Some.
    + apply same_build_set_scheduler. congruence.
  - exists n, m, a, cfg, l0, p0. do 3 (split; [assumption|]).
    split; [|assumption].
    cbn [with_heap heap]. by rewrite list_lookup_insert_ne.
Qed.

Lemma cache_sound_generation_result `{Env} w l p choice cls sh h wd s :
  cache_sound s -> heap s !! l = Some p ->
  cache_sound (generation_result w l p choice cls sh h wd s).1.
Proof.
  intros Hs Hl.
  destruct (generation_result_state w l p choice cls sh h wd s)
    as [->|(sc & _ & _ & ->)]; [done|].
  by apply cache_sound_set_scheduler.
Qed.

Lemma cache_sound_stored `{Env} r cfg s2 :
  dict_get MODEL_CONFIGS (model_type r) = Some cfg ->
  cache_sound (stored_state r cfg s2).
Proof.
  intros Hm k e Hk. unfold stored_state in Hk. cbn [_model_cache] in Hk.
  apply lookup_singleton_Some in Hk as [<- <-].
  exists (node_of r), (model_type r), (use_alternate_llm r), cfg,
    (new_handle r s2), (pipe_for (node_of r) cfg (use_alternate_llm r)).
  split; [unfold request_key; by destruct (node_of r)|].
  split; [done|]. split; [done|].
  split; [apply stored_state_lookup|].
  apply same_build_refl, pipe_for_scheduler.
Qed.

Lemma cache_sound_entries `{Env} s : cache_sound s -> entries_originate s.
Proof.
  intros Hs k pipe c Hk.
  destruct (Hs _ _ Hk) as (n & m & a & cfg & l & p & -> & [= -> ->] & Hm & _).
  exists m, a, cfg. split; [done|]. split; [done|].
  destruct n; cbn [node_key]; auto.
Qed.

Lemma cache_sound_generate `{PyRuntime} `{Env} w r s :
  cache_sound s -> cache_sound (run_generate w r s).1.
Proof.
  intros Hs.
  destruct (reaches_cache w r) eqn:Hreach.
  2:{ by rewrite run_generate_eq, Hreach. }
  destruct (run_generate_run w r s Hreach)
    as [(l & cfg & Hk & Hv & ->)|(_ & Hmiss)].
  - destruct (Hs _ _ Hk)
      as (n & m' & a' & cfg' & l' & p & _ & [= <- <-] & Hm' & Hl & _).
    rewrite (continue_with_spec _ _ _ _ _ _ _ Hm' Hk Hv Hl).
    destruct (node_of r);
      [destruct (dict_get MODEL_CONFIGS (model_type r))|..];
      first [by apply cache_sound_generation_result|done].
  - destruct (printable (model_type r)).
    2:{ rewrite Hmiss. cbn [fst].
        apply (cache_sound_sub s); [|done|done].
        intros k e Hk. cbn [with_cache _model_cache] in Hk.
        apply lookup_delete_Some in Hk. tauto. }
    destruct Hmiss as (s2 & Hclear & Hempty & Hload).
    destruct (loadable w r) as [cfg|].
    + destruct Hload as [Hm ->].
      rewrite (continue_with_configured _ _ _ _ _ _ Hm
                 (stored_state_key r cfg s2) (stored_state_valid r cfg s2)
                 (stored_state_lookup r cfg s2)).
      apply cache_sound_generation_result;
        [by apply cache_sound_stored|apply stored_state_lookup].
    + destruct Hload as (s3 & He & ->). by apply cache_sound_empty.
Qed.

Lemma load_models_state `{Env} w m a s :
  let s' := (load_models w m a s).1 in
  (forall k e, _model_cache s' !! k = Some e -> _model_cache s !! k = Some e)
  /\ (forall l p, heap s !! l = Some p -> heap s' !! l = Some p).
Proof.
  cbv zeta.
  pose proof (load_models_ends_spec w m a s) as Hends.
  destruct (load_models w m a s) as [s' res].
  assert (forall k e,
            delete (cache_key m a) (_model_cache s) !! k = Some e ->
            _model_cache s !! k = Some e) as Hdel.
  { intros k e Hk. apply lookup_delete_Some in Hk. tauto. }
  inversion Hends; subst; cbn [fst with_cache with_heap _model_cache heap];
    (split; [done|]); try done.
  intros l p0 Hl. by apply lookup_app_l_Some.
Qed.

Lemma cache_sound_load_models `{Env} w m a s :
  cache_sound s -> cache_sound (load_models w m a s).1.
Proof.
  destruct (load_models_state w m a s) as [Hc Hh].
  by apply cache_sound_sub.
Qed.

Lemma cache_sound_cleanup `{Env} s :
  cache_sound (HiDreamSampler.cleanup_models s).1.
Proof.
  destruct (cleanup_models_spec s) as (s' & -> & He).
  by apply cache_sound_empty.
Qed.

Lemma same_build_usable s l p q c cfg :
  heap s !! l = Some p -> same_build p q ->
  (exists t, v_transformer q = Obj t) ->
  loader_valid s (Some l, c) = true
  /\ generate_valid s (Some l, Some cfg) = true.
Proof.
  intros Hl (_ & Ht & _) [t Hq].
  assert (loader_valid s (Some l, c) = true) as Hv.
  { unfold loader_valid, slot_of. cbn [fst]. rewrite Hl. cbn [get_slot].
    by rewrite Ht, Hq. }
  split; [done|]. unfold generate_valid.
  unfold loader_valid in *. cbn [fst snd] in *. by rewrite Hv.
Qed.

Lemma pipe_for_transformer n cfg a :
  exists t, v_transformer (pipe_for n cfg a) = Obj t.
Proof. destruct n; cbn; eauto. Qed.

(** The cache holds at most one key. *)
Lemma one_key_generate `{PyRuntime} `{Env} w r s :
  (forall k1 k2, is_Some (_model_cache s !! k1) ->
                 is_Some (_model_cache s !! k2) -> k1 = k2) ->
  forall k1 k2,
    is_Some (_model_cache (run_generate w r s).1 !! k1) ->
    is_Some (_model_cache (run_generate w r s).1 !! k2) -> k1 = k2.
Proof.
  intros Hone k1 k2.
  destruct (run_generate_cases w r s)
    as [->|[[_ ->]|[_ [[-> _]|[[-> _]|(l & cfg & -> & _)]]]]]; auto.
  - intros [e1 H1] [e2 H2].
    apply lookup_delete_Some in H1 as [_ H1].
    apply lookup_delete_Some in H2 as [_ H2]. apply Hone; by eexists.
  - rewrite lookup_empty. by intros [? ?].
  - intros [e1 H1] [e2 H2].
    apply lookup_singleton_Some in H1 as [<- _].
    by apply lookup_singleton_Some in H2 as [<- _].
Qed.

Lemma reachable_invariant `{PyRuntime} `{Env} s :
  reachable s ->
  cache_sound s
  /\ (forall k1 k2, is_Some (_model_cache s !! k1) ->
                    is_Some (_model_cache s !! k2) -> k1 = k2).
Proof.
  induction 1 as [|w r s _ [IHs IHo]|w m a s _ [IHs IHo]|s _ [IHs IHo]].
  - split; [by apply cache_sound_empty|].
    intros k1 k2 [e1 H1]. unfold empty_state in H1.
    cbn [_model_cache] in H1. by rewrite lookup_empty in H1.
  - split; [by apply cache_sound_generate|by apply one_key_generate].
  - split; [by apply cache_sound_load_models|].
    destruct (load_models_state w m a s) as [Hc _].
    intros k1 k2 [e1 H1] [e2 H2]. apply IHo; eexists; by apply Hc.
  - split; [apply cache_sound_cleanup|].
    destruct (cleanup_models_spec s) as (s' & -> & He).
    intros k1 k2 [e1 H1]. cbn [fst] in H1. by rewrite He, lookup_empty in H1.
Qed.

(** X10.  In every state the module can reach from the empty cache by
    calls of the [generate] methods, of [load_models] and of
    [cleanup_models], whatever the library calls do, the cache holds at
    most one entry; that entry sits under the key of a configured model
    type, holds that model type's record and the handle of a live pipeline
    built for the key (its kind, its transformer, its LLM and tokenizer),
    and both lookups accept it: there are no stale entries. *)
Theorem reachable_cache_sound `{PyRuntime} `{Env} (s : State) (k : pystr)
    (e : entry) :
  reachable s ->
  _model_cache s !! k = Some e ->
  (forall k', is_Some (_model_cache s !! k') -> k' = k)
  /\ exists n m a cfg l p,
       k = node_key n m a
       /\ e = (Some l, Some cfg)
       /\ dict_get MODEL_CONFIGS m = Some cfg
       /\ heap s !! l = Some p
       /\ same_build p (pipe_for n cfg a)
       /\ check_cache k s = (s, Ok e)
       /\ load_models_cached k s = (s, Ok (Some l)).
Proof.
  intros Hr Hk. destruct (reachable_invariant s Hr) as [Hs Hone].
  split; [intros k' Hk'; by apply Hone|].
  destruct (Hs _ _ Hk) as (n & m & a & cfg & l & p & -> & -> & Hm & Hl & Hb).
  exists n, m, a, cfg, l, p. do 5 (split; [done|]). split.
  - destruct (same_build_usable s l p _ (Some cfg) cfg Hl Hb
                (pipe_for_transformer n cfg a)) as [Hv _].
    by apply check_cache_cached.
  - destruct (same_build_usable s l p _ (Some cfg) cfg Hl Hb
                (pipe_for_transformer n cfg a)) as [Hv _].
    by rewrite load_models_cached_spec, Hk, Hv.
Qed.

Lemma reachable_cache_sound_witness :
  (forall k', is_Some (_model_cache after_img2img_full !! k') ->
              k' = HiDreamImg2Img.cache_key (U "full") false)
  /\ exists n m a cfg l p,
       HiDreamImg2Img.cache_key (U "full") false = node_key n m a
       /\ (Some 1%nat, dict_get (@MODEL_CONFIGS env_full) (U "full"))
          = (Some l, Some cfg)
       /\ dict_get (@MODEL_CONFIGS env_full) m = Some cfg
       /\ heap after_img2img_full !! l = Some p
       /\ same_build p (pipe_for n cfg a)
       /\ check_cache (HiDreamImg2Img.cache_key (U "full") false)
            after_img2img_full
          = (after_img2img_full,
             Ok (Some 1%nat, dict_get (@MODEL_CONFIGS env_full) (U "full")))
       /\ load_models_cached (HiDreamImg2Img.cache_key (U "full") false)
            after_img2img_full
          = (after_img2img_full, Ok (Some l)).
Proof.
  apply (@reachable_cache_sound cpython env_full after_img2img_full).
  - apply (@reach_generate cpython env_full world_ok img2img_full).
    apply reach_start.
  - vm_compute. reflexivity.
Defined.

(** X11.  In a reachable state, whatever is found under the key of a
    request for a configured model type was built for that request: the
    entry holds the record of the requested model type and a live pipeline
    of the node's kind with the transformer of that model and the LLM the
    alternate-LLM flag selects; the cache never serves another model's
    pipeline. *)
Theorem hit_serves_request `{PyRuntime} `{Env} (s : State) (r : request)
    (cfg : ModelConfig) (e : entry) :
  reachable s ->
  dict_get MODEL_CONFIGS (model_type r) = Some cfg ->
  _model_cache s !! request_key r = Some e ->
  exists l p,
    e = (Some l, Some cfg)
    /\ heap s !! l = Some p
    /\ same_build p (pipe_for (node_of r) cfg (use_alternate_llm r))
    /\ cached (request_key r) s.
Proof.
  intros Hr Hm Hk. destruct (reachable_invariant s Hr) as [Hs _].
  destruct (Hs _ _ Hk)
    as (n & m' & a' & cfg' & l & p & Hkey & -> & Hm' & Hl & Hb).
  destruct (MODEL_CONFIGS_sound _ _ Hm) as (_ & _ & _ & Hin).
  destruct (MODEL_CONFIGS_sound _ _ Hm') as (_ & _ & _ & Hin').
  assert (m' = model_type r /\ a' = use_alternate_llm r
          /\ pipe_for n cfg' a' = pipe_for (node_of r) cfg' a')
    as (-> & -> & Hp).
  { unfold request_key in Hkey.
    destruct n, (node_of r); cbn [node_key] in Hkey;
      first [ apply cache_key_inj in Hkey as [-> ->]; by auto
            | apply img2img_cache_key_inj in Hkey as [-> ->]; by auto
            | by apply cache_key_cross_configured in Hkey
            | symmetry in Hkey;
              by apply cache_key_cross_configured in Hkey ]. }
  assert (cfg' = cfg) as -> by congruence.
  rewrite Hp in Hb.
  exists l, p. do 3 (split; [done|]).
  exists l, cfg. split; [done|].
  by destruct (same_build_usable s l p _ (Some cfg) cfg Hl Hb
                 (pipe_for_transformer _ cfg _)).
Qed.

Lemma hit_serves_request_witness :
  exists l p,
    (Some 0%nat, Some loaded_config_fast) = (Some l, Some loaded_config_fast)
    /\ heap after_sampler_fast !! l = Some p
    /\ same_build p (pipe_for (node_of sampler_fast) loaded_config_fast
                       (use_alternate_llm sampler_fast))
    /\ cached (request_key sampler_fast) after_sampler_fast.
Proof.
  apply (@hit_serves_request cpython env_full after_sampler_fast
           sampler_fast loaded_config_fast
           (Some 0%nat, Some loaded_config_fast)).
  - apply (@reach_generate cpython env_full world_ok sampler_fast).
    apply reach_start.
  - vm_compute. reflexivity.
  - vm_compute. reflexivity.
Defined.

(** ** What eviction leaves alone *)

Lemma null_all_lookup_other pipe h l :
  pipe <> Some l -> null_all pipe h !! l = h !! l.
Proof.
  intros Hne. unfold null_all. by rewrite !null_attr_lookup_other.
Qed.

Lemma null_attr_length a pipe h : length (null_attr a pipe h) = length h.
Proof.
  unfold null_attr. destruct pipe as [l|]; [|done].
  destruct (h !! l); [|done]. apply length_insert.
Qed.

Lemma null_all_length pipe h : length (null_all pipe h) = length h.
Proof. unfold null_all. by rewrite !null_attr_length. Qed.

Lemma null_all_class pipe h l p' :
  null_all pipe h !! l = Some p' ->
  exists p, h !! l = Some p /\ pipe_class p' = pipe_class p.
Proof.
  destruct (decide (pipe = Some l)) as [->|Hne].
  - unfold null_all. rewrite !null_attr_lookup_same.
    destruct (h !! l) as [p|]; [|done]. intros [= <-]. by exists p.
  - rewrite null_all_lookup_other by done. intros Hl. by exists p'.
Qed.

Lemma evict_keys_frame keys s :
  let s' := (evict_keys keys s).1 in
  length (heap s') = length (heap s)
  /\ (forall l,
        (forall k c, k ∈ keys -> _model_cache s !! k <> Some (Some l, c)) ->
        heap s' !! l = heap s !! l)
  /\ (forall l p', heap s' !! l = Some p' ->
        exists p, heap s !! l = Some p /\ pipe_class p' = pipe_class p).
Proof.
  revert s. induction keys as [|k0 r IH]; intros s; cbn [evict_keys].
  { cbn. split; [done|]. split; [done|]. intros l p' Hl. by exists p'. }
  unfold mbind, M_bind.
  assert (exists s1,
    evict_entry k0 s = (s1, Ok tt)
    /\ _model_cache s1 = delete k0 (_model_cache s)
    /\ length (heap s1) = length (heap s)
    /\ (forall l, (forall c, _model_cache s !! k0 <> Some (Some l, c)) ->
                  heap s1 !! l = heap s !! l)
    /\ (forall l p', heap s1 !! l = Some p' ->
          exists p, heap s !! l = Some p /\ pipe_class p' = pipe_class p))
    as (s1 & -> & Hc & Hlen & Hframe & Hcls).
  { destruct (_model_cache s !! k0) as [[pipe config]|] eqn:E.
    - rewrite (evict_entry_present _ _ _ _ E). eexists.
      split; [reflexivity|]. cbn [_model_cache heap].
      split; [done|]. split; [apply null_all_length|]. split.
      + intros l Hl. apply null_all_lookup_other. intros ->. by eapply Hl.
      + intros l p'. apply null_all_class.
    - rewrite (evict_entry_absent _ _ E). exists s.
      split; [done|]. split; [by rewrite delete_id|].
      split; [done|]. split; [done|]. intros l p' Hl. by exists p'. }
  destruct (IH s1) as (IHlen & IHframe & IHcls). cbv zeta in *.
  split; [congruence|]. split.
  - intros l Hl. rewrite IHframe.
    + apply Hframe. intros c. apply Hl. left.
    + intros k c Hk. rewrite Hc. intros Hd.
      apply lookup_delete_Some in Hd as [_ Hd]. revert Hd. apply Hl.
      by right.
  - intros l p' Hl. destruct (IHcls _ _ Hl) as (p1 & Hl1 & Hc1).
    destruct (Hcls _ _ Hl1) as (p & Hl0 & Hc0). exists p. split; congruence.
Qed.

(** X12.  [cleanup_models] touches only the objects the cache refers to:
    every pipeline that some entry holds loses its four components, every
    other object of the store is left exactly as it was, and no object is
    created, removed or changes its class. *)
Theorem cleanup_models_frame (s : State) :
  let s' := (HiDreamSampler.cleanup_models s).1 in
  length (heap s') = length (heap s)
  /\ (forall k l c, _model_cache s !! k = Some (Some l, c) ->
                    released (heap s') l)
  /\ (forall l,
        (forall k c, _model_cache s !! k <> Some (Some l, c)) ->
        heap s' !! l = heap s !! l)
  /\ (forall l p', heap s' !! l = Some p' ->
        exists p, heap s !! l = Some p /\ pipe_class p' = pipe_class p).
Proof.
  cbv zeta. set (keys := (map_to_list (_model_cache s)).*1).
  assert ((HiDreamSampler.cleanup_models s).1 = (evict_keys keys s).1) as ->.
  { unfold HiDreamSampler.cleanup_models, cache_keys.
    rewrite (bind_ok _ _ s s keys) by reflexivity.
    pose proof (evict_keys_ok keys s) as Hok. unfold mbind, M_bind.
    destruct (evict_keys keys s) as [s1 r1]. cbn [snd] in Hok. by subst r1. }
  destruct (evict_keys_frame keys s) as (Hlen & Hframe & Hcls).
  split; [done|]. split; [|split; [|done]].
  - intros k l c Hk.
    destruct (evict_keys_released keys s l) as [_ Hr].
    eapply Hr; [|exact Hk]. apply cache_keys_elem. by eexists.
  - intros l Hl. apply Hframe. intros k c _. apply Hl.
Qed.

(** ** Prompts *)

Lemma lstrip_cases s :
  lstrip s = [] \/ exists c r, lstrip s = c :: r /\ isspace c = false.
Proof.
  induction s as [|c s IH]; [by left|]. cbn [lstrip].
  destruct (isspace c) eqn:E; [done|]. right. by exists c, s.
Qed.

Lemma lstrip_idem s : lstrip (lstrip s) = lstrip s.
Proof.
  destruct (lstrip_cases s) as [->|(c & r & -> & Hc)]; [done|].
  by apply lstrip_head.
Qed.

Lemma lstrip_app_last a c :
  isspace c = false -> lstrip (a ++ [c]) = lstrip a ++ [c].
Proof.
  intros Hc. induction a as [|x a IH]; cbn [app lstrip].
  - by rewrite Hc.
  - by destruct (isspace x).
Qed.

Lemma rstrip_cons c r : isspace c = false -> rstrip (c :: r) = c :: rstrip r.
Proof.
  intros Hc. unfold rstrip. cbn [rev].
  by rewrite (lstrip_app_last _ _ Hc), rev_app_distr.
Qed.

Lemma rstrip_idem s : rstrip (rstrip s) = rstrip s.
Proof. unfold rstrip. by rewrite rev_involutive, lstrip_idem. Qed.

Lemma strip_idem s : strip (strip s) = strip s.
Proof.
  unfold strip. destruct (lstrip_cases s) as [->|(c & r & -> & Hc)]; [done|].
  rewrite (rstrip_cons _ _ Hc), (lstrip_head _ _ Hc), (rstrip_cons _ _ Hc).
  by rewrite rstrip_idem.
Qed.

Lemma nonempty_true s : nonempty s = true <-> s <> [].
Proof. by destruct s. Qed.

Lemma nonempty_false s : nonempty s = false <-> s = [].
Proof. by destruct s. Qed.

Lemma strip_period : strip (U ".") <> [].
Proof. vm_compute. discriminate. Qed.

(** X13.  The four encoder prompts of [HiDreamSamplerAdvanced.generate] are
    never blank.  An encoder's own prompt is used, stripped, when it has
    anything but white space; otherwise the primary prompt is used as
    typed; and when that is blank too the prompt is "." and, for the Llama
    encoder, the system prompt is replaced by the single-period
    instruction.  The Llama prompt is chosen like the others.  A negative
    prompt is dropped only when it is the empty string: one made of white
    space is passed on as the empty string. *)
Theorem advanced_prompts (specific primary system negative : pystr) :
  let p := encoder_prompt specific primary in
  strip p <> []
  /\ (llama_prompts specific primary system).1 = p
  /\ (strip specific <> [] ->
      p = strip specific
      /\ (llama_prompts specific primary system).2 = system)
  /\ (strip specific = [] -> strip primary <> [] ->
      p = primary /\ (llama_prompts specific primary system).2 = system)
  /\ (strip specific = [] -> strip primary = [] ->
      p = U "."
      /\ (llama_prompts specific primary system).2 = period_system_prompt)
  /\ (negative_argument negative = None <-> negative = [])
  /\ (negative <> [] -> strip negative = [] ->
      negative_argument negative = Some []).
Proof.
  cbv zeta. unfold encoder_prompt, llama_prompts, negative_argument.
  destruct (nonempty (strip specific)) eqn:Es.
  - apply nonempty_true in Es as Hs.
    assert (nonempty (strip (strip specific)) = true) as ->
        by (rewrite strip_idem; exact Es).
    cbn [negb fst snd]. rewrite strip_idem.
    split; [done|]. split; [done|]. split; [done|].
    split; [done|]. split; [done|].
    destruct negative; cbn [nonempty]; split; try done.
    intros _ ->. done.
  - apply nonempty_false in Es as Hs.
    destruct (nonempty (strip primary)) eqn:Ep; cbn [negb fst snd].
    + apply nonempty_true in Ep as Hp.
      split; [done|]. split; [done|]. split; [done|].
      split; [done|]. split; [done|].
      destruct negative; cbn [nonempty]; split; try done.
      intros _ ->. done.
    + apply nonempty_false in Ep as Hp.
      split; [apply strip_period|]. split; [done|]. split; [done|].
      split; [done|]. split; [done|].
      destruct negative; cbn [nonempty]; split; try done.
      intros _ ->. done.
Qed.

(** ** The sizes behind the offered aspect ratios *)

Ltac dimension_text_tac :=
  split; [discriminate|split; [repeat constructor|vm_compute; lia]].

Ltac no_paren_tac :=
  let Hin := fresh "Hin" in
  intros Hin; apply list_elem_of_In in Hin; cbv in Hin;
  repeat (destruct Hin as [Hin|Hin]; [discriminate Hin|]); exact Hin.

Lemma parse_aspect_ratio_option `{PyRuntime} pre W Hh :
  40%N ∉ pre -> dimension_text W -> dimension_text Hh ->
  HiDreamSampler.parse_aspect_ratio (pre ++ 40%N :: W ++ 215%N :: Hh ++ [41%N])
  = Ok (decimal_value W, decimal_value Hh)
  /\ (contains (U "Square Reso")
        (pre ++ 40%N :: W ++ 215%N :: Hh ++ [41%N]) = false ->
      HiDreamSamplerAdvanced.parse_dimensions
        (pre ++ 40%N :: W ++ 215%N :: Hh ++ [41%N])
      = Ok (decimal_value W, decimal_value Hh)).
Proof.
  intros Hpre HW HH. split.
  - unfold HiDreamSampler.parse_aspect_ratio.
    by rewrite (parse_aspect_ratio_try_well_formed pre W Hh [] Hpre HW HH).
  - intros Hc. unfold HiDreamSamplerAdvanced.parse_dimensions.
    rewrite (parse_dimensions_try_plain _ Hc).
    by rewrite (parse_aspect_ratio_try_well_formed pre W Hh [] Hpre HW HH).
Qed.

Lemma floor_64_idem z : z / 64 * 64 / 64 * 64 = z / 64 * 64.
Proof. by rewrite Z.div_mul by lia. Qed.

Ltac option_tac pre W Hh :=
  let Hp := fresh "Hp" in
  destruct (parse_aspect_ratio_option pre W Hh) as [Hp Hp'];
  [no_paren_tac|dimension_text_tac|dimension_text_tac|];
  intros r Hn Ha; unfold requested_size; rewrite Hn, Ha;
  first
    [ replace (HiDreamSampler.parse_aspect_ratio _)
        with (@Ok (Z * Z) (decimal_value W, decimal_value Hh))
        by (rewrite <- Hp; f_equal)
    | replace (HiDreamSamplerAdvanced.parse_dimensions _)
        with (@Ok (Z * Z) (decimal_value W, decimal_value Hh))
        by (rewrite <- Hp' by (vm_compute; reflexivity); f_equal) ];
  vm_compute; reflexivity.

(** X14.  The size a text-to-image node asks the pipeline for is the size
    on the label of the chosen aspect ratio rounded down to multiples of
    64, as (height, width).  Of the labelled sizes only 1024x1024 survives:
    "9:16 (768×1360)" asks for 768 wide by 1344 high, "3:4 (880×1168)" for
    832 by 1152, "3:2 (1248×832)" for 1216 by 832, and so on.  The advanced
    node takes the square and the custom sizes from its own inputs,
    rounded down in the same way. *)
Theorem offered_aspect_ratio_sizes `{PyRuntime} :
  Forall2 (fun o hw =>
             forall r, node_of r = Sampler -> aspect_ratio r = o ->
                       requested_size r = hw)
    sampler_aspect_ratio_options
    [(1024, 1024); (1344, 768); (768, 1344); (1152, 832); (832, 1152);
     (832, 1216); (1216, 832)]
  /\ Forall2 (fun o (hw : request -> Z * Z) =>
                forall r, node_of r = Advanced -> aspect_ratio r = o ->
                          requested_size r = hw r)
       advanced_aspect_ratio_options
       [fun r => (square_resolution r / 64 * 64,
                  square_resolution r / 64 * 64);
        fun _ => (1344, 768); fun _ => (768, 1344); fun _ => (1152, 832);
        fun _ => (832, 1152); fun _ => (832, 1216); fun _ => (1216, 832);
        fun r => (custom_height r / 64 * 64, custom_width r / 64 * 64)].
Proof.
  split.
  - unfold sampler_aspect_ratio_options.
    repeat apply List.Forall2_cons; [| | | | | | |apply List.Forall2_nil].
    + option_tac (U "1:1 ") (U "1024") (U "1024").
    + option_tac (U "9:16 ") (U "768") (U "1360").
    + option_tac (U "16:9 ") (U "1360") (U "768").
    + option_tac (U "3:4 ") (U "880") (U "1168").
    + option_tac (U "4:3 ") (U "1168") (U "880").
    + option_tac (U "3:2 ") (U "1248") (U "832").
    + option_tac (U "2:3 ") (U "832") (U "1248").
  - unfold advanced_aspect_ratio_options.
    repeat apply List.Forall2_cons; [| | | | | | | |apply List.Forall2_nil].
    + intros r Hn Ha. unfold requested_size. rewrite Hn, Ha.
      replace (contains (U "Square Reso") (U "1:1 (Square Reso)")) with true
        by (vm_compute; reflexivity).
      by rewrite floor_64_idem.
    + option_tac (U "9:16 ") (U "768") (U "1360").
    + option_tac (U "16:9 ") (U "1360") (U "768").
    + option_tac (U "3:4 ") (U "880") (U "1168").
    + option_tac (U "4:3 ") (U "1168") (U "880").
    + option_tac (U "3:2 ") (U "1248") (U "832").
    + option_tac (U "2:3 ") (U "832") (U "1248").
    + intros r Hn Ha. unfold requested_size. rewrite Hn, Ha.
      replace (contains (U "Square Reso") (U "Custom")) with false
        by (vm_compute; reflexivity).
      rewrite bool_decide_eq_true_2 by done.
      by rewrite !floor_64_idem.
Qed.

(** ** [parse_resolution] and the letter x *)

Lemma replace_cons old new c s :
  replace old new (c :: s)
  = (if (c =? old)%N then new else c) :: replace old new s.
Proof. reflexivity. Qed.

Lemma startswith_replace sep s :
  Forall (fun d => d <> 120%N /\ d <> 215%N) sep ->
  startswith sep (replace 120 215 s) = startswith sep s.
Proof.
  intros Hsep. revert s.
  induction Hsep as [|d sep [H1 H2] _ IH]; intros s; [done|].
  destruct s as [|c s]; [done|].
  rewrite replace_cons. cbn [startswith]. rewrite IH. f_equal.
  destruct (c =? 120)%N eqn:E.
  - apply N.eqb_eq in E as ->.
    apply N.eqb_neq in H1, H2. by rewrite H1, H2.
  - done.
Qed.

Lemma cons_hd_replace c ps :
  map (replace 120 215) (cons_hd c ps)
  = cons_hd (if (c =? 120)%N then 215%N else c) (map (replace 120 215) ps).
Proof. by destruct ps. Qed.

Lemma split_from_replace sep k s :
  Forall (fun d => d <> 120%N /\ d <> 215%N) sep ->
  split_from sep k (replace 120 215 s)
  = map (replace 120 215) (split_from sep k s).
Proof.
  intros Hsep. revert k.
  induction s as [|c s IH]; intros k; [done|].
  rewrite replace_cons. cbn [split_from].
  destruct k as [|k]; [|apply IH].
  rewrite <- replace_cons, (startswith_replace _ _ Hsep).
  destruct (startswith sep (c :: s)).
  - cbn [map]. by rewrite IH.
  - by rewrite cons_hd_replace, IH.
Qed.

Lemma isspace_replace c :
  isspace (if (c =? 120)%N then 215%N else c) = isspace c.
Proof. destruct (c =? 120)%N eqn:E; [|done]. by apply N.eqb_eq in E as ->. Qed.

Lemma lstrip_replace s :
  lstrip (replace 120 215 s) = replace 120 215 (lstrip s).
Proof.
  induction s as [|c s IH]; [done|].
  rewrite replace_cons. cbn [lstrip]. rewrite isspace_replace.
  destruct (isspace c); [done|]. by rewrite replace_cons.
Qed.

Lemma strip_replace s :
  strip (replace 120 215 s) = replace 120 215 (strip s).
Proof.
  unfold strip, rstrip. rewrite lstrip_replace.
  unfold replace at 1. rewrite <- map_rev.
  fold (replace 120 215 (rev (lstrip s))).
  rewrite lstrip_replace. unfold replace. by rewrite map_rev.
Qed.

Lemma replace_idem s :
  replace 120 215 (replace 120 215 s) = replace 120 215 s.
Proof.
  unfold replace. rewrite map_map. apply map_ext. intros c.
  destruct (c =? 120)%N eqn:E; [done|]. by rewrite E.
Qed.

Lemma printable_replace s : printable (replace 120 215 s) = printable s.
Proof.
  unfold printable, replace. induction s as [|c s IH]; [done|].
  cbn [map forallb]. rewrite IH. f_equal.
  destruct (c =? 120)%N eqn:E; [|done]. by apply N.eqb_eq in E as ->.
Qed.

(** X15.  [parse_resolution] reads the letter x as the multiplication
    sign: writing "x" for "×" anywhere in the string changes nothing in
    what it returns. *)
Theorem parse_resolution_letter_x `{PyRuntime} (s : pystr) :
  parse_resolution (replace 120 215 s) = parse_resolution s.
Proof.
  unfold parse_resolution, parse_resolution_try, split, py_print.
  rewrite split_from_replace.
  2:{ change (U " (") with [32%N; 40%N]. repeat constructor; done. }
  rewrite printable_replace.
  destruct (split_from (U " (") 0 s) as [|p0 ps]; [done|].
  cbn [map index lookup list_lookup mbind result_bind].
  rewrite strip_replace, replace_idem.
  by destruct (negb _).
Qed.

(** ** The presets of [HiDreamResolutionSelect] *)


(** ** The geometry of the image preparation *)

Lemma closest_step_in `{PyFloat} a st wh :
  In st.2 standard_resolutions -> In wh standard_resolutions ->
  In (closest_step a st wh).2 standard_resolutions.
Proof.
  destruct st as [b t], wh as [w h]. cbn [snd closest_step].
  intros Ht Hwh. by destruct (flt _ _).
Qed.

Lemma foldl_closest_in `{PyFloat} a l st :
  In st.2 standard_resolutions ->
  (forall wh, In wh l -> In wh standard_resolutions) ->
  In (foldl (closest_step a) st l).2 standard_resolutions.
Proof.
  revert st. induction l as [|wh l IH]; intros st Hst Hl; [done|].
  cbn [foldl]. apply IH.
  - apply closest_step_in; [done|]. apply Hl. by left.
  - intros wh' Hin. apply Hl. by right.
Qed.

Lemma closest_resolution_in `{PyFloat} a :
  In (closest_resolution a) standard_resolutions.
Proof.
  unfold closest_resolution. apply foldl_closest_in; [|done].
  cbn. by left.
Qed.

Lemma standard_resolutions_16 wh :
  In wh standard_resolutions ->
  wh.1 / 16 * 16 = wh.1 /\ wh.2 / 16 * 16 = wh.2 /\ 0 < wh.1 /\ 0 < wh.2.
Proof.
  unfold standard_resolutions. intros Hin.
  repeat (destruct Hin as [<-|Hin]; [by vm_compute|]). destruct Hin.
Qed.

(** X17.  Whatever the float arithmetic gives, when [preprocess_image]
    gets through its arithmetic the target size is one of its seven
    standard resolutions, unchanged by the rounding to multiples of 16;
    the resized image matches the target in width or in height and both
    its sides are multiples of 16; and, its sides being non-negative, the
    block copied is the same in both tensors and lies inside both: the
    final assignment cannot fail on mismatched shapes, and the block is
    centred in the target up to one pixel. *)
Theorem preprocess_geometry_sound `{PyFloat} (orig_h orig_w : Z)
    (g : Geometry) :
  preprocess_geometry orig_h orig_w = Some g ->
  0 <= new_h g -> 0 <= new_w g ->
  In (target_width g, target_height g) standard_resolutions
  /\ (new_w g = target_width g \/ new_h g = target_height g)
  /\ new_w g mod 16 = 0 /\ new_h g mod 16 = 0
  /\ 0 <= y_offset g /\ y_offset g + height_to_copy g <= new_h g
  /\ 0 <= x_offset g /\ x_offset g + width_to_copy g <= new_w g
  /\ 0 <= target_y_offset g
  /\ target_y_offset g + height_to_copy g <= target_height g
  /\ 0 <= target_x_offset g
  /\ target_x_offset g + width_to_copy g <= target_width g
  /\ 0 <= target_height g - height_to_copy g - 2 * target_y_offset g <= 1
  /\ 0 <= target_width g - width_to_copy g - 2 * target_x_offset g <= 1.
Proof.
  unfold preprocess_geometry.
  destruct (orig_h =? 0); [done|].
  pose proof (closest_resolution_in (truediv orig_w orig_h)) as Hin.
  destruct (closest_resolution (truediv orig_w orig_h)) as [tw th].
  destruct (standard_resolutions_16 _ Hin) as (Hw & Hh & Hwp & Hhp).
  cbn [fst snd] in Hw, Hh, Hwp, Hhp. rewrite Hw, Hh.
  assert (forall nw nh,
    (nw = tw \/ nh = th) -> nw mod 16 = 0 -> nh mod 16 = 0 ->
    Some {| target_width := tw; target_height := th;
            new_w := nw; new_h := nh;
            y_offset := Z.max 0 ((nh - th) / 2);
            x_offset := Z.max 0 ((nw - tw) / 2);
            height_to_copy := Z.min nh th;
            width_to_copy := Z.min nw tw;
            target_y_offset := Z.max 0 ((th - Z.min nh th) / 2);
            target_x_offset := Z.max 0 ((tw - Z.min nw tw) / 2) |}
    = Some g ->
    0 <= new_h g -> 0 <= new_w g ->
    In (target_width g, target_height g) standard_resolutions
    /\ (new_w g = target_width g \/ new_h g = target_height g)
    /\ new_w g mod 16 = 0 /\ new_h g mod 16 = 0
    /\ 0 <= y_offset g /\ y_offset g + height_to_copy g <= new_h g
    /\ 0 <= x_offset g /\ x_offset g + width_to_copy g <= new_w g
    /\ 0 <= target_y_offset g
    /\ target_y_offset g + height_to_copy g <= target_height g
    /\ 0 <= target_x_offset g
    /\ target_x_offset g + width_to_copy g <= target_width g
    /\ 0 <= target_height g - height_to_copy g - 2 * target_y_offset g <= 1
    /\ 0 <= target_width g - width_to_copy g - 2 * target_x_offset g <= 1)
    as Hgeo.
  { intros nw nh Hmatch Hnw Hnh [= <-]. cbn. intros Hh0 Hw0.
    split; [done|]. split; [done|]. split; [done|]. split; [done|].
    pose proof (Z.div_mod (nh - th) 2 ltac:(lia)).
    pose proof (Z.mod_pos_bound (nh - th) 2 ltac:(lia)).
    pose proof (Z.div_mod (nw - tw) 2 ltac:(lia)).
    pose proof (Z.mod_pos_bound (nw - tw) 2 ltac:(lia)).
    pose proof (Z.div_mod (th - Z.min nh th) 2 ltac:(lia)).
    pose proof (Z.mod_pos_bound (th - Z.min nh th) 2 ltac:(lia)).
    pose proof (Z.div_mod (tw - Z.min nw tw) 2 ltac:(lia)).
    pose proof (Z.mod_pos_bound (tw - Z.min nw tw) 2 ltac:(lia)).
    lia. }
  destruct (flt (truediv tw th) (truediv orig_w orig_h)).
  - destruct (int_truediv tw (truediv orig_w orig_h)) as [n|]; [|done].
    cbn [mbind option_bind]. apply Hgeo; [by left| |apply Z.mod_mul; lia].
    rewrite <- Hw. apply Z.mod_mul. lia.
  - destruct (int_mul th (truediv orig_w orig_h)) as [n|]; [|done].
    cbn [mbind option_bind]. apply Hgeo; [by right|apply Z.mod_mul; lia|].
    rewrite <- Hh. apply Z.mod_mul. lia.
Qed.

Lemma preprocess_geometry_sound_witness :
  exists g,
    @preprocess_geometry fractions 600 800 = Some g
    /\ (target_width g, target_height g) = (1168, 880)
    /\ (new_w g, new_h g) = (1168, 864)
    /\ (y_offset g, height_to_copy g, target_y_offset g) = (0, 864, 8)
    /\ In (target_width g, target_height g) standard_resolutions
    /\ (new_w g = target_width g \/ new_h g = target_height g)
    /\ new_w g mod 16 = 0 /\ new_h g mod 16 = 0
    /\ 0 <= y_offset g /\ y_offset g + height_to_copy g <= new_h g
    /\ 0 <= x_offset g /\ x_offset g + width_to_copy g <= new_w g
    /\ 0 <= target_y_offset g
    /\ target_y_offset g + height_to_copy g <= target_height g
    /\ 0 <= target_x_offset g
    /\ target_x_offset g + width_to_copy g <= target_width g
    /\ 0 <= target_height g - height_to_copy g - 2 * target_y_offset g <= 1
    /\ 0 <= target_width g - width_to_copy g - 2 * target_x_offset g <= 1.
Proof.
  eexists. split; [vm_compute; reflexivity|].
  split; [reflexivity|]. split; [reflexivity|]. split; [reflexivity|].
  apply (@preprocess_geometry_sound fractions 600 800).
  - vm_compute. reflexivity.
  - vm_compute. discriminate.
  - vm_compute. discriminate.
Defined.
